(** * cf-worker-totp: the TOTP engine of [index.ts] and [utils.ts]

    The repository holds the engine twice.  [index.ts] (first revision)
    defines [generateTOTP], [verifyTOTP] and [generateTOTPWithT] over
    HMAC-SHA-256; [utils.ts] defines the same three functions over
    HMAC-SHA-1, with argument validation and a bound check before the
    dynamic truncation.  Both are embedded here, in [Module Index] and
    [Module Utils], over a common model of the JavaScript operations
    they use.

    Numbers.  The functions receive JavaScript numbers.  Time stamps,
    steps, [period], [digits] and [window] are embedded as integers
    ([Z]) and the 32-bit operators are written out with their
    wrap-around.  This is the arithmetic of the code wherever every
    number it computes is an integer of magnitude below 2^53 and no
    division is by zero: there no operation rounds.  Elsewhere the code
    leaves the integers, and the statements say where they stop:
    [10 ** digits] is a fraction for [digits < 0] (reached in [index.ts]
    only, which does not validate [digits]); [Math.floor(0 / 0)] is
    [NaN], a step [generateTOTPWithT] rejects; the counter of the
    window loop stops advancing at 2^53; and the step expression of
    [index.ts] rounds when [period] is no integer.  For the last two the
    window-step expressions ([Module Float64]) and the window loops
    ([Utils64], [Index64]) are embedded a second time on binary64
    numbers.

    Collaborators.  [base32Decode] (npm package base32-decode) and the
    HMAC of [crypto.subtle] are parameters of the development. *)

From Stdlib Require Import ZArith Lia Bool List String Ascii.
From Stdlib Require Import Strings.Byte.
From Stdlib Require Import Floats.
From stdpp Require Import base list.
From Equations Require Import Equations.
Import ListNotations.

Local Open Scope Z_scope.

(** A value together with the equation that names it, for the
    well-founded definitions below. *)
Definition inspect {A : Type} (a : A) : {b : A | a = b} := exist _ a eq_refl.

(** ** JavaScript primitives *)

Module JS.

(** [ToInt32] and [ToUint32] of an integer-valued number. *)
Definition toUint32 (x : Z) : Z := x mod 2 ^ 32.

Definition toInt32 (x : Z) : Z :=
  let u := toUint32 x in if u <? 2 ^ 31 then u else u - 2 ^ 32.

(** An operand that may be [undefined] (an array read out of range):
    [ToInt32(undefined)] is [0]. *)
Definition toInt32u (v : option Z) : Z :=
  match v with Some x => toInt32 x | None => 0 end.

(** [a & b], [a << n], [a >>> n] on numbers. *)
Definition band (a b : Z) : Z := Z.land (toInt32 a) (toInt32 b).
Definition shl (a n : Z) : Z := toInt32 (Z.shiftl (toInt32 a) (toUint32 n mod 32)).
Definition ushr (a n : Z) : Z := Z.shiftr (toUint32 a) (toUint32 n mod 32).

(** [v & b] and [a | v] where [v] is what an array read returned. *)
Definition bandu (v : option Z) (b : Z) : Z := Z.land (toInt32u v) (toInt32 b).
Definition boru (a : Z) (v : option Z) : Z := Z.lor (toInt32 a) (toInt32u v).

(** [isNaN(x)] and [Number.isInteger(x)] on an integer-valued number
    ([Num64.isNaN] is the test on binary64 numbers);
    [typeof x !== 'number'] and [typeof s !== 'string'] are false of
    every argument of the embedding and are not written. *)
Definition isNaN (x : Z) : bool := false.
Definition isInteger (x : Z) : bool := true.

(** [a % b] on integers: the sign of the dividend. *)
Definition rem (a b : Z) : Z := Z.rem a b.

(** [10 ** d] for [0 <= d]; for a negative [d] JavaScript computes a
    fraction, which the integers do not have. *)
Definition pow10 (d : Z) : Z := 10 ^ d.

(** The value of a byte, and [ToUint8] as a typed-array store does it. *)
Definition byteVal (b : byte) : Z := Z.of_N (Byte.to_N b).

Definition toUint8 (x : Z) : byte :=
  match Byte.of_N (Z.to_N (x mod 256)) with
  | Some b => b
  | None => Byte.x00
  end.

(** [a[i]] on a [Uint8Array]: [undefined] out of range. *)
Definition get (a : list byte) (i : Z) : option Z :=
  if i <? 0 then None else byteVal <$> a !! Z.to_nat i.

(** [a[i] = v] on a [Uint8Array]: the value is stored modulo 256, a
    store out of range is ignored. *)
Definition set (a : list byte) (i : Z) (v : Z) : list byte :=
  if i <? 0 then a else <[Z.to_nat i := toUint8 v]> a.

(** [new Uint8Array(n)]. *)
Definition newUint8Array (n : nat) : list byte := replicate n Byte.x00.

(** [a.length]. *)
Definition len (a : list byte) : Z := Z.of_nat (length a).

End JS.

(** ** Strings: [Number.prototype.toString] and [String.prototype.padStart] *)

Module Str.

Definition digitChar (d : Z) : ascii := ascii_of_nat (48 + Z.to_nat d).

(** The decimal digits of a non-negative integer, most significant
    first. *)
Equations? dec (n : Z) : string by wf (Z.to_nat n) lt :=
  dec n with inspect (n <? 10) := {
    | exist _ true _ => String (digitChar n) EmptyString
    | exist _ false H => (dec (n / 10) ++ String (digitChar (n mod 10)) EmptyString)%string }.
Proof.
  apply Z.ltb_ge in H.
  assert (n / 10 < n) by (apply Z.div_lt; lia).
  assert (0 <= n / 10) by (apply Z.div_pos; lia).
  lia.
Qed.

(** [n.toString()] for an integer [n]. *)
Definition toString (n : Z) : string :=
  if n <? 0 then String "-"%char (dec (- n)) else dec n.

Fixpoint zeros (k : nat) : string :=
  match k with
  | O => EmptyString
  | S k' => String "0"%char (zeros k')
  end.

(** [s.padStart(n, '0')]: [n] is clamped at 0 by [ToLength]. *)
Definition padStart (s : string) (n : Z) : string :=
  let l := String.length s in
  if (Z.to_nat n <=? l)%nat then s else (zeros (Z.to_nat n - l) ++ s)%string.

(** The characters the pattern [\d] accepts. *)
Definition isDigit (c : ascii) : bool :=
  let k := nat_of_ascii c in ((48 <=? k) && (k <=? 57))%nat.

Fixpoint allDigits (s : string) : bool :=
  match s with
  | EmptyString => true
  | String c s' => isDigit c && allDigits s'
  end.

(** The number a string of decimal digits denotes. *)
Fixpoint valueFrom (acc : Z) (s : string) : Z :=
  match s with
  | EmptyString => acc
  | String c s' => valueFrom (10 * acc + (Z.of_nat (nat_of_ascii c) - 48)) s'
  end.

Definition value (s : string) : Z := valueFrom 0 s.

End Str.

(** ** Errors, results and the world the functions run in *)

Inductive HashAlg : Type := SHA1 | SHA256.

(** The errors the code throws, by their message, and the two errors of
    the collaborators. *)
Inductive Error : Type :=
| InvalidSecret          (* 'Invalid secret: must be a non-empty string' *)
| InvalidPeriod          (* 'Invalid period: must be a positive number' *)
| InvalidDigits          (* 'Invalid digits: must be a positive integer' *)
| InvalidOTP             (* 'Invalid OTP: must be a non-empty string' *)
| InvalidTimeStep        (* 'Invalid time step T: must be a number' *)
| Base32Error            (* thrown by base32Decode *)
| CryptoError            (* thrown by crypto.subtle.importKey / sign *)
| HmacFailed (alg : HashAlg)  (* `Failed to generate HMAC with algorithm ${algorithm}` *)
| TruncationRange        (* 'HMAC array too small for truncation' *)
| FailedToGenerateTOTP.  (* 'Failed to generate TOTP' *)

Inductive Result (A : Type) : Type :=
| Ok (a : A)
| Throw (e : Error).
Arguments Ok {A} a.
Arguments Throw {A} e.

(** What a call can observe and change: the clock behind [Date.now()]
    ([clock k] is what the [k]-th reading returns, [reads] counts the
    readings made) and the lines [console.error] has written. *)
Record World : Type := mkWorld {
  clock : nat -> Z;
  reads : nat;
  console : list (string * Error)
}.

Definition M (A : Type) : Type := World -> Result A * World.

Definition ret {A} (a : A) : M A := fun w => (Ok a, w).

Definition throw {A} (e : Error) : M A := fun w => (Throw e, w).

Definition bind {A B} (m : M A) (k : A -> M B) : M B :=
  fun w => match m w with
           | (Ok a, w') => k a w'
           | (Throw e, w') => (Throw e, w')
           end.

(** [try { m } catch (error) { h error }]. *)
Definition try_catch {A} (m : M A) (h : Error -> M A) : M A :=
  fun w => match m w with
           | (Ok a, w') => (Ok a, w')
           | (Throw e, w') => h e w'
           end.

Notation "x <- m ;; k" := (bind m (fun x => k))
  (at level 100, m at next level, right associativity).
Notation "m ;;; k" := (bind m (fun _ => k))
  (at level 100, right associativity).

(** The time the next reading of the clock returns, and the world after
    that reading. *)
Definition nowOf (w : World) : Z := clock w (reads w).

Definition tick (w : World) : World :=
  mkWorld (clock w) (S (reads w)) (console w).

(** [Date.now()]. *)
Definition Date_now : M Z := fun w => (Ok (nowOf w), tick w).

(** The world after some lines were written to the console, and after
    one [console.error(label, error)]. *)
Definition appendLog (es : list (string * Error)) (w : World) : World :=
  mkWorld (clock w) (reads w) (console w ++ es).

Definition logged (label : string) (e : Error) (w : World) : World :=
  appendLog [(label, e)] w.

(** [console.error(label, error)]. *)
Definition console_error (label : string) (e : Error) : M unit :=
  fun w => (Ok tt, logged label e w).

(** A collaborator that either returns or throws [e]. *)
Definition call {A} (r : option A) (e : Error) : M A :=
  match r with
  | Some a => ret a
  | None => throw e
  end.

(** [Math.floor(a / b)] on integers.  (For [b = 0] and [a <> 0]
    JavaScript yields an infinity, whose 32-bit conversions are those
    of the [0] returned here; for [0 / 0] it yields [NaN], which the
    integers do not have.) *)
Definition floorDiv (a b : Z) : Z := a / b.

(** ** The blocks both files share, statement for statement *)

(** [!s] for a string [s]. *)
Definition emptyStr (s : string) : bool := (s =? "")%string.

(** The counter loop:
<<
    const TBytes = new Uint8Array(8);
    let tempT = T;
    for (let i = 7; i >= 0; i--) {
      TBytes[i] = tempT & 0xFF;
      tempT = tempT >>> 8;
    }
>>
    [counterLoop n tempT TBytes] runs the iterations [i = n-1, ..., 0]. *)
Fixpoint counterLoop (n : nat) (tempT : Z) (TBytes : list byte) : list byte :=
  match n with
  | O => TBytes
  | S i => counterLoop i (JS.ushr tempT 8)
             (JS.set TBytes (Z.of_nat i) (JS.band tempT 255))
  end.

Definition counterBytes (T : Z) : list byte :=
  counterLoop 8 T (JS.newUint8Array 8).

(** [hmacArray[hmacArray.length - 1] & 0x0F]. *)
Definition truncOffset (hmacArray : list byte) : Z :=
  JS.bandu (JS.get hmacArray (JS.len hmacArray - 1)) 15.

(** The truncation loop:
<<
    let truncated = 0;
    for (let i = 0; i < 4; i++) {
      truncated = (truncated << 8) | hmacArray[offset + i];
    }
>>
    [truncLoop n i truncated] runs the [n] iterations from [i] on. *)
Fixpoint truncLoop (hmacArray : list byte) (offset : Z)
    (n : nat) (i : Z) (truncated : Z) : Z :=
  match n with
  | O => truncated
  | S n' => truncLoop hmacArray offset n' (i + 1)
              (JS.boru (JS.shl truncated 8) (JS.get hmacArray (offset + i)))
  end.

(** [(truncated & 0x7FFFFFFF) % (10 ** digits)]. *)
Definition otpOf (truncated digits : Z) : Z :=
  JS.rem (JS.band truncated 2147483647) (JS.pow10 digits).

(** [otp.toString().padStart(digits, '0')]. *)
Definition otpString (otp digits : Z) : string :=
  Str.padStart (Str.toString otp) digits.

(** The default arguments [period = 30, digits = 6, window = 1]. *)
Definition defaultPeriod : Z := 30.
Definition defaultDigits : Z := 6.
Definition defaultWindow : Z := 1.

(** ** [index.ts], first revision: HMAC-SHA-256, no validation of
    [period] and [digits], no bound check before the truncation *)

Module Index.
Section WithCollaborators.

(** [base32Decode(s, 'RFC4648')]: [None] when it throws. *)
Variable base32Decode : string -> option (list byte).
(** HMAC of [crypto.subtle] ([importKey] then [sign]) for a hash, a key
    and a message: [None] when either call rejects. *)
Variable subtleHmac : HashAlg -> list byte -> list byte -> option (list byte).

Definition generateHMAC (data key : list byte) (algorithm : HashAlg) : M (list byte) :=
  try_catch
    (call (subtleHmac algorithm key data) CryptoError)
    (fun error =>
       console_error "Error generating HMAC:" error ;;;
       throw (HmacFailed algorithm)).

Definition hmacSha256 (key data : list byte) : M (list byte) :=
  generateHMAC data key SHA256.

(** Steps 3 to 6 of both generators, from the step [T] on. *)
Definition codeAtStep (key : list byte) (T digits : Z) : M string :=
  let TBytes := counterBytes T in
  hmacArray <- hmacSha256 key TBytes ;;
  let offset := truncOffset hmacArray in
  let truncated := truncLoop hmacArray offset 4 0 0 in
  let otp := otpOf truncated digits in
  ret (otpString otp digits).

Definition generateTOTP (secretBase32 : string) (period digits : Z) : M string :=
  try_catch
    (if emptyStr secretBase32 then throw InvalidSecret else
     key <- call (base32Decode secretBase32) Base32Error ;;
     now <- Date_now ;;
     let T := floorDiv now (period * 1000) in
     codeAtStep key T digits)
    (fun error =>
       console_error "Error generating TOTP:" error ;;;
       throw FailedToGenerateTOTP).

Definition generateTOTPWithT (secretBase32 : string) (T period digits : Z) : M string :=
  try_catch
    (if emptyStr secretBase32 then throw InvalidSecret else
     if JS.isNaN T then throw InvalidTimeStep else
     key <- call (base32Decode secretBase32) Base32Error ;;
     codeAtStep key T digits)
    (fun error =>
       console_error "Error generating TOTP with specific T:" error ;;;
       throw FailedToGenerateTOTP).

(** The step [verifyTOTP] derives for the window offset [t], on
    integers ([Float64.indexStep] is the expression on binary64
    numbers). *)
Definition windowStep (currentTime period t : Z) : Z :=
  floorDiv (currentTime + t * period * 1000) (period * 1000).

(** The window loop, from [t] on:
<<
  for (let t = -window; t <= window; t++) {
    const T = Math.floor((currentTime + t * period * 1000) / (period * 1000));
    const totp = await generateTOTPWithT(secretBase32, T, period, digits);
    if (totp === userInput) return true;
  }
  return false;
>>
    with an integer counter, which is the counter of the code for a
    window below 2^53 (the loop with a binary64 counter follows
    [Module Float64]). *)
Equations? verifyLoop (secretBase32 userInput : string)
    (period digits window currentTime : Z) (t : Z) (w : World)
    : Result bool * World by wf (Z.to_nat (window + 1 - t)) lt :=
  verifyLoop secretBase32 userInput period digits window currentTime t w
    with inspect (t <=? window) := {
    | exist _ false _ => (Ok false, w)
    | exist _ true H
        with generateTOTPWithT secretBase32
               (windowStep currentTime period t) period digits w := {
        | (Throw e, w') => (Throw e, w')
        | (Ok totp, w') with (totp =? userInput)%string := {
            | true => (Ok true, w')
            | false => verifyLoop secretBase32 userInput period digits
                         window currentTime (t + 1) w' } } }.
Proof. apply Z.leb_le in H. lia. Qed.

(** The [try] block of [verifyTOTP]. *)
Definition verifyTOTP_try (secretBase32 userInput : string)
    (period digits window : Z) : M bool :=
  if emptyStr secretBase32 then throw InvalidSecret else
  if emptyStr userInput then throw InvalidOTP else
  currentTime <- Date_now ;;
  verifyLoop secretBase32 userInput period digits window currentTime (- window).

Definition verifyTOTP (secretBase32 userInput : string)
    (period digits window : Z) : M bool :=
  try_catch
    (verifyTOTP_try secretBase32 userInput period digits window)
    (fun error =>
       console_error "Error verifying TOTP:" error ;;;
       ret false).

End WithCollaborators.
End Index.

(** ** [utils.ts]: HMAC-SHA-1, validated arguments, checked truncation *)

Module Utils.
Section WithCollaborators.

Variable base32Decode : string -> option (list byte).
Variable subtleHmac : HashAlg -> list byte -> list byte -> option (list byte).

Definition generateHMAC (data key : list byte) (algorithm : HashAlg) : M (list byte) :=
  try_catch
    (call (subtleHmac algorithm key data) CryptoError)
    (fun error =>
       console_error "Error generating HMAC:" error ;;;
       throw (HmacFailed algorithm)).

Definition hmacSha1 (key data : list byte) : M (list byte) :=
  generateHMAC data key SHA1.

(** The truncation with its guard:
<<
  if (offset + 3 < hmacArray.length) { ...loop... }
  else { throw new Error('HMAC array too small for truncation'); }
>> *)
Definition truncate (hmacArray : list byte) : M Z :=
  let offset := truncOffset hmacArray in
  if offset + 3 <? JS.len hmacArray
  then ret (truncLoop hmacArray offset 4 0 0)
  else throw TruncationRange.

(** The generators from the step [T] on. *)
Definition codeAtStep (key : list byte) (T digits : Z) : M string :=
  let TBytes := counterBytes T in
  hmacArray <- hmacSha1 key TBytes ;;
  truncated <- truncate hmacArray ;;
  let otp := otpOf truncated digits in
  ret (otpString otp digits).

Definition generateTOTP (secretBase32 : string) (period digits : Z) : M string :=
  try_catch
    (if emptyStr secretBase32 then throw InvalidSecret else
     if period <=? 0 then throw InvalidPeriod else
     if (digits <=? 0) || negb (JS.isInteger digits) then throw InvalidDigits else
     key <- call (base32Decode secretBase32) Base32Error ;;
     now <- Date_now ;;
     let T := floorDiv now (period * 1000) in
     codeAtStep key T digits)
    (fun error =>
       console_error "Error generating TOTP:" error ;;;
       throw FailedToGenerateTOTP).

Definition generateTOTPWithT (secretBase32 : string) (T period digits : Z) : M string :=
  try_catch
    (if emptyStr secretBase32 then throw InvalidSecret else
     if period <=? 0 then throw InvalidPeriod else
     if (digits <=? 0) || negb (JS.isInteger digits) then throw InvalidDigits else
     if JS.isNaN T then throw InvalidTimeStep else
     key <- call (base32Decode secretBase32) Base32Error ;;
     codeAtStep key T digits)
    (fun error =>
       console_error "Error generating TOTP with specific T:" error ;;;
       throw FailedToGenerateTOTP).

(** The window loop, from [t] on:
<<
  for (let t = -window; t <= window; t++) {
    const T = currentT + t;
    const totp = await generateTOTPWithT(secretBase32, T, period, digits);
    if (totp === userInput) return true;
  }
  return false;
>>
    with an integer counter, which is the counter of the code for a
    window below 2^53 (the loop with a binary64 counter follows
    [Module Float64]). *)
Equations? verifyLoop (secretBase32 userInput : string)
    (period digits window currentT : Z) (t : Z) (w : World)
    : Result bool * World by wf (Z.to_nat (window + 1 - t)) lt :=
  verifyLoop secretBase32 userInput period digits window currentT t w
    with inspect (t <=? window) := {
    | exist _ false _ => (Ok false, w)
    | exist _ true H
        with generateTOTPWithT secretBase32 (currentT + t) period digits w := {
        | (Throw e, w') => (Throw e, w')
        | (Ok totp, w') with (totp =? userInput)%string := {
            | true => (Ok true, w')
            | false => verifyLoop secretBase32 userInput period digits
                         window currentT (t + 1) w' } } }.
Proof. apply Z.leb_le in H. lia. Qed.

(** The [try] block of [verifyTOTP]. *)
Definition verifyTOTP_try (secretBase32 userInput : string)
    (period digits window : Z) : M bool :=
  if emptyStr secretBase32 then throw InvalidSecret else
  if period <=? 0 then throw InvalidPeriod else
  if (digits <=? 0) || negb (JS.isInteger digits) then throw InvalidDigits else
  if emptyStr userInput then throw InvalidOTP else
  currentTime <- Date_now ;;
  let currentT := floorDiv currentTime (period * 1000) in
  verifyLoop secretBase32 userInput period digits window currentT (- window).

Definition verifyTOTP (secretBase32 userInput : string)
    (period digits window : Z) : M bool :=
  try_catch
    (verifyTOTP_try secretBase32 userInput period digits window)
    (fun error =>
       console_error "Error verifying TOTP:" error ;;;
       ret false).

End WithCollaborators.
End Utils.

(** ** The window-step expressions on binary64 numbers

    [period] is any positive number, so [period * 1000] need not be an
    integer.  The two expressions [verifyTOTP] uses for the step of a
    window offset are embedded here with the rounding of each
    operation, in the order JavaScript evaluates them. *)

Module Float64.

Definition ofZ (z : Z) : float :=
  if z <? 0 then PrimFloat.opp (PrimFloat.of_uint63 (Uint63.of_Z (- z)))
  else PrimFloat.of_uint63 (Uint63.of_Z z).

(** [Math.floor]: a finite number with a negative exponent has a
    mantissa below 2^53, so its floor is converted back exactly; every
    other number is its own floor. *)
Definition Math_floor (x : float) : float :=
  match Prim2SF x with
  | S754_finite s m e =>
      if 0 <=? e then x
      else ofZ (Z.shiftr (if s then Z.neg m else Z.pos m) (- e))
  | _ => x
  end.

(** [utils.ts]: [currentT + t] with
    [currentT = Math.floor(currentTime / (period * 1000))]. *)
Definition currentStep (currentTime period : float) : float :=
  Math_floor (currentTime / (period * 1000))%float.

Definition utilsStep (currentTime period t : float) : float :=
  (currentStep currentTime period + t)%float.

(** [index.ts]:
    [Math.floor((currentTime + t * period * 1000) / (period * 1000))]. *)
Definition indexStep (currentTime period t : float) : float :=
  Math_floor ((currentTime + t * period * 1000) / (period * 1000))%float.

(** [currentTime] lies on a step boundary: the quotient is an integer. *)
Definition onBoundary (currentTime period : float) : bool :=
  let q := (currentTime / (period * 1000))%float in
  PrimFloat.eqb (Math_floor q) q.

End Float64.

(** ** The window loops with a binary64 counter

    [window] is a JavaScript number, and so is the counter of
<<
  for (let t = -window; t <= window; t++)
>>
    whose increment is rounded: from 2^53 on, [t + 1] is [t] again.
    The loops of both files are embedded here a second time, with
    [period], [window], the counter and the step as binary64 numbers
    ([digits] stays an integer).  The loop need not end, so it takes
    fuel: the result [None] says that it has not returned after [fuel]
    iterations. *)

Module Num64.

(** [isNaN(x)]. *)
Definition isNaN (x : float) : bool := negb (PrimFloat.eqb x x).

(** The integer from which [x & 0xFF] and [x >>> 8] take the 32 low
    bits: [x] truncated towards zero, and 0 for [NaN] and the
    infinities. *)
Definition integerOf (x : float) : Z :=
  match Prim2SF x with
  | S754_finite s m e =>
      let a := if 0 <=? e then Z.shiftl (Z.pos m) e
               else Z.shiftr (Z.pos m) (- e) in
      if s then - a else a
  | _ => 0
  end.

End Num64.

Module Utils64.
Section WithCollaborators.

Variable base32Decode : string -> option (list byte).
Variable subtleHmac : HashAlg -> list byte -> list byte -> option (list byte).

(** [generateTOTPWithT] of [utils.ts] at a binary64 step. *)
Definition generateTOTPWithT (secretBase32 : string) (T period : float)
    (digits : Z) : M string :=
  try_catch
    (if emptyStr secretBase32 then throw InvalidSecret else
     if PrimFloat.leb period 0 then throw InvalidPeriod else
     if (digits <=? 0) || negb (JS.isInteger digits) then throw InvalidDigits else
     if Num64.isNaN T then throw InvalidTimeStep else
     key <- call (base32Decode secretBase32) Base32Error ;;
     Utils.codeAtStep subtleHmac key (Num64.integerOf T) digits)
    (fun error =>
       console_error "Error generating TOTP with specific T:" error ;;;
       throw FailedToGenerateTOTP).

(** The window loop, from [t] on:
<<
  for (let t = -window; t <= window; t++) {
    const T = currentT + t;
    const totp = await generateTOTPWithT(secretBase32, T, period, digits);
    if (totp === userInput) return true;
  }
  return false;
>> *)
Fixpoint verifyLoop (fuel : nat) (secretBase32 userInput : string)
    (period : float) (digits : Z) (window currentT t : float)
    : M (option bool) :=
  match fuel with
  | O => ret None
  | S fuel' =>
      if PrimFloat.leb t window then
        totp <- generateTOTPWithT secretBase32 (currentT + t)%float period digits ;;
        if (totp =? userInput)%string then ret (Some true)
        else verifyLoop fuel' secretBase32 userInput period digits
               window currentT (t + 1)%float
      else ret (Some false)
  end.

Definition verifyTOTP_try (fuel : nat) (secretBase32 userInput : string)
    (period : float) (digits : Z) (window : float) : M (option bool) :=
  if emptyStr secretBase32 then throw InvalidSecret else
  if PrimFloat.leb period 0 then throw InvalidPeriod else
  if (digits <=? 0) || negb (JS.isInteger digits) then throw InvalidDigits else
  if emptyStr userInput then throw InvalidOTP else
  currentTime <- Date_now ;;
  let currentT := Float64.currentStep (Float64.ofZ currentTime) period in
  verifyLoop fuel secretBase32 userInput period digits window currentT
    (- window)%float.

Definition verifyTOTP (fuel : nat) (secretBase32 userInput : string)
    (period : float) (digits : Z) (window : float) : M (option bool) :=
  try_catch
    (verifyTOTP_try fuel secretBase32 userInput period digits window)
    (fun error =>
       console_error "Error verifying TOTP:" error ;;;
       ret (Some false)).

End WithCollaborators.
End Utils64.

Module Index64.
Section WithCollaborators.

Variable base32Decode : string -> option (list byte).
Variable subtleHmac : HashAlg -> list byte -> list byte -> option (list byte).

(** [generateTOTPWithT] of [index.ts] at a binary64 step; [period] is
    not used there. *)
Definition generateTOTPWithT (secretBase32 : string) (T period : float)
    (digits : Z) : M string :=
  try_catch
    (if emptyStr secretBase32 then throw InvalidSecret else
     if Num64.isNaN T then throw InvalidTimeStep else
     key <- call (base32Decode secretBase32) Base32Error ;;
     Index.codeAtStep subtleHmac key (Num64.integerOf T) digits)
    (fun error =>
       console_error "Error generating TOTP with specific T:" error ;;;
       throw FailedToGenerateTOTP).

(** The window loop, from [t] on:
<<
  for (let t = -window; t <= window; t++) {
    const T = Math.floor((currentTime + t * period * 1000) / (period * 1000));
    const totp = await generateTOTPWithT(secretBase32, T, period, digits);
    if (totp === userInput) return true;
  }
  return false;
>> *)
Fixpoint verifyLoop (fuel : nat) (secretBase32 userInput : string)
    (period : float) (digits : Z) (window currentTime t : float)
    : M (option bool) :=
  match fuel with
  | O => ret None
  | S fuel' =>
      if PrimFloat.leb t window then
        let T := Float64.indexStep currentTime period t in
        totp <- generateTOTPWithT secretBase32 T period digits ;;
        if (totp =? userInput)%string then ret (Some true)
        else verifyLoop fuel' secretBase32 userInput period digits
               window currentTime (t + 1)%float
      else ret (Some false)
  end.

Definition verifyTOTP_try (fuel : nat) (secretBase32 userInput : string)
    (period : float) (digits : Z) (window : float) : M (option bool) :=
  if emptyStr secretBase32 then throw InvalidSecret else
  if emptyStr userInput then throw InvalidOTP else
  currentTime <- Date_now ;;
  verifyLoop fuel secretBase32 userInput period digits window
    (Float64.ofZ currentTime) (- window)%float.

Definition verifyTOTP (fuel : nat) (secretBase32 userInput : string)
    (period : float) (digits : Z) (window : float) : M (option bool) :=
  try_catch
    (verifyTOTP_try fuel secretBase32 userInput period digits window)
    (fun error =>
       console_error "Error verifying TOTP:" error ;;;
       ret (Some false)).

End WithCollaborators.
End Index64.

(** ** Where the integer arithmetic is the arithmetic of the code

    A clock reading and a window for which every number the window
    loop computes ([t], [t * period * 1000], the sum with the time, the
    step) is an integer of magnitude below 2^53, so that no binary64
    operation rounds. *)
Definition exactWindow (now period window : Z) : Prop :=
  0 <= now /\ 0 < period /\ 0 <= window /\
  now + window * period * 1000 < 2 ^ 53.

(** ** The properties the specification states, in its own words *)

Module Spec.

(** The unsigned 64-bit big-endian representation of a counter. *)
Definition be64 (T : Z) : list byte :=
  map (fun k => JS.toUint8 (T / 2 ^ (8 * Z.of_nat k)))
      [7; 6; 5; 4; 3; 2; 1; 0]%nat.

(** RFC 4226 dynamic truncation: the low nibble of the last byte, the
    big-endian 32-bit word at that offset, its high bit cleared, modulo
    [10^digits]. *)
Definition byteAt (mac : list byte) (i : Z) : Z :=
  JS.byteVal (List.nth (Z.to_nat i) mac Byte.x00).

Definition dtOffset (mac : list byte) : Z :=
  Z.land (JS.byteVal (List.last mac Byte.x00)) 15.

Definition beUint32 (mac : list byte) (off : Z) : Z :=
  byteAt mac off * 2 ^ 24 + byteAt mac (off + 1) * 2 ^ 16
  + byteAt mac (off + 2) * 2 ^ 8 + byteAt mac (off + 3).

Definition dynamicTruncation (mac : list byte) (digits : Z) : Z :=
  Z.land (beUint32 mac (dtOffset mac)) 2147483647 mod 10 ^ digits.

(** A code of [digits] characters: the decimal text of a number below
    [10^digits], padded on the left with ['0'] to exactly [digits]
    characters, each of them a decimal digit. *)
Definition isCode (digits : Z) (code : string) : Prop :=
  exists n,
    0 <= n < 10 ^ digits /\
    code = Str.padStart (Str.toString n) digits /\
    String.length code = Z.to_nat digits /\
    Str.allDigits code = true /\
    Str.value code = n.

(** The offsets of a verification window, earliest first. *)
Definition offsets (window : Z) : list Z :=
  map (fun k => - window + Z.of_nat k) (seq 0 (Z.to_nat (2 * window + 1))).

End Spec.

(** ** What the specification calls a valid secret

    The secret is a non-empty string that [base32Decode] accepts, and
    the HMAC primitive accepts the decoded key and returns a MAC of the
    length of its hash (20 bytes for SHA-1, 32 for SHA-256). *)

Definition macLength (alg : HashAlg) : Z :=
  match alg with
  | SHA1 => 20
  | SHA256 => 32
  end.

Definition validSecret
    (base32Decode : string -> option (list byte))
    (subtleHmac : HashAlg -> list byte -> list byte -> option (list byte))
    (alg : HashAlg) (secretBase32 : string) : Prop :=
  emptyStr secretBase32 = false /\
  exists key, base32Decode secretBase32 = Some key /\
    forall data, exists mac,
      subtleHmac alg key data = Some mac /\ JS.len mac = macLength alg.

(** ** Test doubles for the collaborators *)

Module Stub.

(** A decoder that rejects the secret ["!"] and otherwise returns the
    bytes of the text. *)
Definition decode (s : string) : option (list byte) :=
  if (s =? "!")%string then None else Some (list_byte_of_string s).

(** A MAC of the length of the hash whose truncation offset is 0 and
    whose first four bytes are bytes 4 to 7 of the message. *)
Definition hmac (alg : HashAlg) (_ data : list byte) : option (list byte) :=
  Some (take 4 (drop 4 data ++ replicate 4 Byte.x00)
        ++ replicate (Z.to_nat (macLength alg) - 4) Byte.x00).

(** A 16-byte MAC whose last byte selects the offset 15. *)
Definition shortHmac (_ : HashAlg) (_ _ : list byte) : option (list byte) :=
  Some (replicate 15 Byte.x00 ++ [Byte.x0f]).

(** A primitive that rejects every key. *)
Definition failingHmac (_ : HashAlg) (_ _ : list byte) : option (list byte) :=
  None.

(** A world whose clock stands at 3 700 000 ms (step 123 for a period
    of 30 s) and whose console is empty. *)
Definition world : World := mkWorld (fun _ => 3700000) 0 [].

End Stub.

(** * Byte values, the world across a call, [getKV] and the routes *)

(** ** Reading a counter back

    The number a sequence of bytes denotes, most significant byte
    first. *)

Fixpoint beValueFrom (acc : Z) (bs : list byte) : Z :=
  match bs with
  | [] => acc
  | b :: bs' => beValueFrom (acc * 256 + JS.byteVal b) bs'
  end.

Definition beValue (bs : list byte) : Z := beValueFrom 0 bs.

(** ** What a call may do to the world

    [w'] is [w] after at most one reading of the clock and after some
    lines, possibly none, were written to the console. *)

Definition evolves (w w' : World) : Prop :=
  clock w' = clock w /\
  (reads w' = reads w \/ reads w' = S (reads w)) /\
  exists es, console w' = console w ++ es.

(** The same without a reading of the clock. *)
Definition logsOnly (w w' : World) : Prop :=
  clock w' = clock w /\ reads w' = reads w /\
  exists es, console w' = console w ++ es.

(** The outcome of a generator called in [w]: a code and an untouched
    console, or the generic error and at least one more console
    line. *)
Definition generatorOutcome (w : World) (out : Result string * World) : Prop :=
  evolves w (snd out) /\
  match fst out with
  | Ok _ => console (snd out) = console w
  | Throw e =>
      e = FailedToGenerateTOTP /\
      exists l es, console (snd out) = console w ++ l :: es
  end.

(** The argument checks of the two [verifyTOTP], as one test. *)
Definition utilsChecksPass (s u : string) (p d : Z) : bool :=
  negb (emptyStr s) && negb (p <=? 0) && negb (d <=? 0) && negb (emptyStr u).

Definition indexChecksPass (s u : string) : bool :=
  negb (emptyStr s) && negb (emptyStr u).

(** ** [getKV], both revisions of [utils.ts]

    [getKV] reads a key of the KV namespace bound as [env.test] and
    races the read against a timer of 5000 ms.  What the platform does
    is data of the model: whether the binding exists, and how the race
    settles for each key. *)

Module KV.

(** What a [throw] or a rejected promise carries: an [Error] with its
    message ([syntax] tells whether it is a [SyntaxError], which the
    routes ask), or a value that is no [Error]. *)
Inductive Thrown : Type :=
| ErrorWith (syntax : bool) (message : string)
| NotAnError.

(** How [Promise.race([env.test.get(key), timeout])] settles: the read
    resolves first, with a string ([Some]) or with [null] or anything
    that is no string ([None]); the read rejects first; or the timer
    fires first. *)
Inductive Settle : Type :=
| Resolves (v : option string)
| Rejects (e : Thrown)
| TimerFirst.

(** [env.test]: absent ([None]) or a namespace. *)
Definition Env : Type := option (string -> Settle).

(** The lines [getKV] writes to the console. *)
Inductive Line : Type :=
| WarnFallback                      (* warn: namespace does not exist, using fallback secret *)
| ErrTimedOut (key : string)        (* error: KV operation timed out for key *)
| ErrAccessing (key : string) (e : Thrown)   (* error: Error accessing KV for key *)
| ErrFetching (key : string) (message : string)  (* error: Error fetching key ... from KV namespace *)
| ErrUnknown (key : string) (e : Thrown).    (* error: Unknown error fetching key *)

(** What a call does: it returns a string or [null], or it throws. *)
Inductive Outcome : Type :=
| Returns (v : option string)
| Throws (e : Thrown).

(** [s.includes(pat)]. *)
Fixpoint includes (s pat : string) : bool :=
  if String.prefix pat s then true
  else match s with
       | EmptyString => false
       | String _ s' => includes s' pat
       end.

Definition quote : string := String (ascii_of_nat 34) EmptyString.

(** The messages of the errors [getKV] creates. *)
Definition invalidKey : Thrown :=
  ErrorWith false "Invalid key: Key must be a non-empty string".
Definition timedOut : Thrown := ErrorWith false "KV operation timed out".
Definition noNamespace : Thrown :=
  ErrorWith false ("KV namespace " ++ quote ++ "test" ++ quote ++ " does not exist").

(** The development secret the second revision falls back to. *)
Definition fallbackSecret : string := "JBSWY3DPEHPK3PXP".

(** The race, as the [await] sees it. *)
Definition race (s : Settle) : Thrown + option string :=
  match s with
  | Resolves v => inr v
  | Rejects e => inl e
  | TimerFirst => inl timedOut
  end.

(** [e instanceof Error && e.message.includes('timed out')]. *)
Definition isTimedOut (e : Thrown) : bool :=
  match e with
  | ErrorWith _ m => includes m "timed out"
  | NotAnError => false
  end.

End KV.

(** First revision (src/unnamed/part_001, lines 10-53). *)
Module UtilsV1.
Import KV.

(** The [catch] block: what it logs, then whether it throws again or
    returns [null]. *)
Definition onError (key : string) (error : Thrown) (ls : list Line)
    : Outcome * list Line :=
  match error with
  | ErrorWith _ m =>
      let ls1 :=
        if negb (includes m "does not exist") && negb (includes m "timed out")
        then ls ++ [ErrFetching key m] else ls in
      if includes m "timed out" then (Throws error, ls1) else (Returns None, ls1)
  | NotAnError => (Returns None, ls ++ [ErrUnknown key error])
  end.

Definition getKV (key : string) (env : Env) : Outcome * list Line :=
  if emptyStr key then (Throws invalidKey, []) else
  match env with
  | None => onError key noNamespace []
  | Some test =>
      match race (test key) with
      | inr result => (Returns result, [])
      | inl error => onError key error []
      end
  end.

End UtilsV1.

(** Second revision (src/unnamed/part_001, lines 64-117). *)
Module UtilsV2.
Import KV.

(** The inner [try] with its [catch (kvError)]. *)
Definition readKey (key : string) (test : string -> Settle)
    : Outcome * list Line :=
  match race (test key) with
  | inr result => (Returns result, [])
  | inl kvError =>
      if isTimedOut kvError then (Throws kvError, [ErrTimedOut key])
      else (Returns None, [ErrAccessing key kvError])
  end.

(** The outer [catch (error)]. *)
Definition onError (key : string) (error : Thrown) (ls : list Line)
    : Outcome * list Line :=
  match error with
  | ErrorWith _ m =>
      let ls1 :=
        if negb (includes m "timed out") then ls ++ [ErrFetching key m] else ls in
      if includes m "timed out" then (Throws error, ls1) else (Returns None, ls1)
  | NotAnError => (Returns None, ls ++ [ErrUnknown key error])
  end.

Definition getKV (key : string) (env : Env) : Outcome * list Line :=
  if emptyStr key then (Throws invalidKey, []) else
  match
    match env with
    | None => (Returns (Some fallbackSecret), [WarnFallback])
    | Some test => readKey key test
    end
  with
  | (Returns v, ls) => (Returns v, ls)
  | (Throws error, ls) => onError key error ls
  end.

End UtilsV2.

(** ** The routes of [index.ts]

    A request body is, for the handlers, one of three things: text that
    is no JSON ([c.req.json()] rejects with a [SyntaxError]), the JSON
    value [null] (destructuring it throws a [TypeError]), or any other
    JSON value, of which the handlers read one property; a property
    that is missing, or is no string, is [JOther]. *)

Module Http.

Inductive JVal : Type :=
| JString (s : string)
| JOther.

Inductive Body : Type :=
| BadJson
| JsonNull
| JsonValue (field : string -> JVal).

(** What reaches the [catch] of a handler. *)
Inductive Raised : Type :=
| SyntaxError
| TypeError
| FromKV (e : KV.Thrown)
| FromEngine (e : Error).

(** [error instanceof SyntaxError].  The errors of the engine are
    created with [new Error]. *)
Definition isSyntaxError (e : Raised) : bool :=
  match e with
  | SyntaxError => true
  | TypeError => false
  | FromKV (KV.ErrorWith syntax _) => syntax
  | FromKV KV.NotAnError => false
  | FromEngine _ => false
  end.

(** The object given to [c.json]. *)
Inductive Payload : Type :=
| ErrorText (error : string)
| IsValid (isValid : bool)
| Otp (otp : string).

Record Response : Type := mkResponse {
  payload : Payload;
  status : Z
}.

(** [c.json(object, status)]; the status defaults to 200. *)
Definition json (p : Payload) (status : Z) : Response := mkResponse p status.
Definition json200 (p : Payload) : Response := json p 200.

(** The lines a handler and the [getKV] it calls write to the console
    (the lines of the engine go to the console of the world). *)
Inductive Line : Type :=
| FromGetKV (l : KV.Line)
| InfoJson (body : Body)          (* info: json is *)
| InfoOpt (opt : JVal)            (* info: opt is *)
| ErrVerifying (e : Raised)       (* error: Error verifying TOTP: *)
| ErrGenerating (e : Error)       (* error: Error generating TOTP: *)
| ErrParsing (e : Raised).        (* error: Error parsing request: *)

(** [/^\d+$/.test(s)] and [/^\d{6}$/.test(s)]. *)
Definition digitsOnly (s : string) : bool :=
  negb (emptyStr s) && Str.allDigits s.
Definition sixDigits (s : string) : bool :=
  (String.length s =? 6)%nat && Str.allDigits s.

(** The key under which the secret is stored. *)
Definition secretKey : string := "totp-demo".

End Http.

(** First revision of [index.ts] (src/unnamed/part_000, lines 181-214).
    The secret is fetched once, when the module is loaded; the handlers
    await that one promise. *)
Module AppV1.
Import KV Http.
Section WithCollaborators.

Variable base32Decode : string -> option (list byte).
Variable subtleHmac : HashAlg -> list byte -> list byte -> option (list byte).

(** [const kv = getKV("totp-demo")], settled. *)
Definition kv (env : Env) : Outcome := fst (UtilsV1.getKV secretKey env).

Definition invalidRequest : Response :=
  json (ErrorText "Invalid request format") 400.

(** [app.post("/totp/verify", ...)] *)
Definition totpVerify (kv : Outcome) (body : Body) (w : World)
    : Response * World :=
  match body with
  | BadJson | JsonNull => (invalidRequest, w)
  | JsonValue field =>
      let otp := field "otp"%string in
      match kv with
      | Throws _ => (invalidRequest, w)
      | Returns secret =>
          match secret with
          | None => (json (ErrorText "Invalid secret") 400, w)
          | Some secret =>
              if emptyStr secret
              then (json (ErrorText "Invalid secret") 400, w) else
              match otp with
              | JOther => (json (ErrorText "Invalid OTP format") 400, w)
              | JString otp =>
                  if negb (digitsOnly otp)
                  then (json (ErrorText "Invalid OTP format") 400, w) else
                  match Index.verifyTOTP base32Decode subtleHmac secret otp
                          defaultPeriod defaultDigits defaultWindow w with
                  | (Ok isValid, w') => (json200 (IsValid isValid), w')
                  | (Throw _, w') => (invalidRequest, w')
                  end
              end
          end
      end
  end.

(** [app.post("/totp/generate", ...)] *)
Definition totpGenerate (body : Body) (w : World) : Response * World :=
  match body with
  | BadJson | JsonNull => (invalidRequest, w)
  | JsonValue field =>
      match field "secret"%string with
      | JOther => (json (ErrorText "Invalid secret") 400, w)
      | JString secret =>
          if emptyStr secret
          then (json (ErrorText "Invalid secret") 400, w) else
          match Index.generateTOTP base32Decode subtleHmac secret
                  defaultPeriod defaultDigits w with
          | (Ok otp, w') => (json200 (Otp otp), w')
          | (Throw _, w') => (invalidRequest, w')
          end
      end
  end.

End WithCollaborators.
End AppV1.

(** Second revision of [index.ts] (src/unnamed/part_000, lines 233-284).
    Every request fetches the secret again. *)
Module AppV2.
Import KV Http.
Section WithCollaborators.

Variable base32Decode : string -> option (list byte).
Variable subtleHmac : HashAlg -> list byte -> list byte -> option (list byte).

(** The [catch (error)] of both handlers, after its [console.error]. *)
Definition onError (error : Raised) : Response :=
  if isSyntaxError error then json (ErrorText "Invalid JSON format") 400
  else json (ErrorText "Server error") 500.

(** [app.post("/totp/verify", ...)] *)
Definition totpVerify (env : Env) (body : Body) (w : World)
    : (Response * list Line) * World :=
  match body with
  | BadJson => ((onError SyntaxError, [ErrVerifying SyntaxError]), w)
  | JsonNull =>
      ((onError TypeError, [InfoJson body; ErrVerifying TypeError]), w)
  | JsonValue field =>
      let opt := field "opt"%string in
      let (kv, kvLines) := UtilsV2.getKV secretKey env in
      let ls := InfoJson body :: map FromGetKV kvLines in
      match kv with
      | Throws e => ((onError (FromKV e), ls ++ [ErrVerifying (FromKV e)]), w)
      | Returns secret =>
          match secret with
          | None => ((json (ErrorText "Secret not configured") 500, ls), w)
          | Some secret =>
              if emptyStr secret
              then ((json (ErrorText "Secret not configured") 500, ls), w) else
              let ls := ls ++ [InfoOpt opt] in
              let invalidFormat :=
                json (ErrorText "Invalid OTP format: must be a 6-digit number") 400 in
              match opt with
              | JOther => ((invalidFormat, ls), w)
              | JString opt =>
                  if emptyStr opt || negb (sixDigits opt)
                  then ((invalidFormat, ls), w) else
                  match Utils.verifyTOTP base32Decode subtleHmac secret opt
                          defaultPeriod defaultDigits defaultWindow w with
                  | (Ok isValid, w') => ((json200 (IsValid isValid), ls), w')
                  | (Throw e, w') =>
                      ((onError (FromEngine e),
                        ls ++ [ErrVerifying (FromEngine e)]), w')
                  end
              end
          end
      end
  end.

(** [app.post("/totp/generate", ...)]; the body is not read. *)
Definition totpGenerate (env : Env) (w : World)
    : (Response * list Line) * World :=
  let (kv, kvLines) := UtilsV2.getKV secretKey env in
  let ls := map FromGetKV kvLines in
  match kv with
  | Throws e => ((onError (FromKV e), ls ++ [ErrParsing (FromKV e)]), w)
  | Returns secret =>
      match secret with
      | None => ((json (ErrorText "Invalid secret") 400, ls), w)
      | Some secret =>
          if emptyStr secret
          then ((json (ErrorText "Invalid secret") 400, ls), w) else
          match Utils.generateTOTP base32Decode subtleHmac secret
                  defaultPeriod defaultDigits w with
          | (Ok otp, w') => ((json200 (Otp otp), ls), w')
          | (Throw genError, w') =>
              ((json (ErrorText "Failed to generate TOTP") 500,
                ls ++ [ErrGenerating genError]), w')
          end
      end
  end.

End WithCollaborators.
End AppV2.

(** * Properties *)

(** The checks that are constant on the numbers of the embedding. *)
Ltac checks :=
  unfold JS.isNaN, JS.isInteger in *; cbn [negb] in *;
  rewrite ?orb_false_r in *.

(** ** The 32-bit operators and the byte conversions *)

Module JSFacts.

Lemma toUint32_range x : 0 <= JS.toUint32 x < 2 ^ 32.
Proof. unfold JS.toUint32. apply Z.mod_pos_bound. lia. Qed.

Lemma toInt32_range x : - 2 ^ 31 <= JS.toInt32 x < 2 ^ 31.
Proof.
  unfold JS.toInt32. pose proof (toUint32_range x).
  destruct (JS.toUint32 x <? 2 ^ 31) eqn:E;
    [apply Z.ltb_lt in E | apply Z.ltb_ge in E]; lia.
Qed.

(** [ToInt32] changes a number by a multiple of 2^32. *)
Lemma toInt32_spec x : exists k, JS.toInt32 x = x + k * 2 ^ 32.
Proof.
  unfold JS.toInt32, JS.toUint32.
  pose proof (Z.div_mod x (2 ^ 32) ltac:(lia)) as D.
  destruct (x mod 2 ^ 32 <? 2 ^ 31).
  - exists (- (x / 2 ^ 32)). lia.
  - exists (- (x / 2 ^ 32) - 1). lia.
Qed.

Lemma toInt32_small x : - 2 ^ 31 <= x < 2 ^ 31 -> JS.toInt32 x = x.
Proof.
  intros Hx. destruct (toInt32_spec x) as [k Hk].
  pose proof (toInt32_range x). nia.
Qed.

Lemma toUint32_small x : 0 <= x < 2 ^ 32 -> JS.toUint32 x = x.
Proof. intros. unfold JS.toUint32. apply Z.mod_small. lia. Qed.

Lemma toInt32_mod_pow2 x n :
  0 <= n <= 32 -> JS.toInt32 x mod 2 ^ n = x mod 2 ^ n.
Proof.
  intros Hn. destruct (toInt32_spec x) as [k ->].
  replace (2 ^ 32) with (2 ^ (32 - n) * 2 ^ n)
    by (rewrite <- Z.pow_add_r by lia; f_equal; lia).
  rewrite Z.mul_assoc. apply Z.mod_add.
  apply Z.pow_nonzero; lia.
Qed.

(** [x & 0xFF] is the low byte of [x]. *)
Lemma band_255 x : JS.band x 255 = x mod 256.
Proof.
  unfold JS.band. rewrite (toInt32_small 255) by lia.
  change 255 with (Z.ones 8). rewrite Z.land_ones by lia.
  apply (toInt32_mod_pow2 x 8). lia.
Qed.

(** [x >>> 8] drops the low byte of the low 32 bits of [x]. *)
Lemma ushr_8 x : JS.ushr x 8 = (x mod 2 ^ 32) / 256.
Proof.
  unfold JS.ushr. rewrite (toUint32_small 8) by lia.
  change (8 mod 32) with 8. rewrite Z.shiftr_div_pow2 by lia.
  reflexivity.
Qed.

Lemma ushr_8_small x : 0 <= x < 2 ^ 32 -> JS.ushr x 8 = x / 256.
Proof. intros. rewrite ushr_8, Z.mod_small by lia. reflexivity. Qed.

Lemma toUint8_mod x : JS.toUint8 (x mod 256) = JS.toUint8 x.
Proof. unfold JS.toUint8. rewrite Z.mod_mod by lia. reflexivity. Qed.

Lemma byteVal_range b : 0 <= JS.byteVal b < 256.
Proof. unfold JS.byteVal. pose proof (Byte.to_N_bounded b). lia. Qed.

Lemma byteVal_toUint8 x : JS.byteVal (JS.toUint8 x) = x mod 256.
Proof.
  unfold JS.byteVal, JS.toUint8.
  pose proof (Z.mod_pos_bound x 256 ltac:(lia)) as B.
  destruct (Byte.of_N (Z.to_N (x mod 256))) as [b|] eqn:E.
  - apply Byte.to_of_N in E. rewrite E. lia.
  - pose proof (Byte.to_of_N_option_map (Z.to_N (x mod 256))) as O.
    rewrite E in O. simpl in O.
    destruct (N.leb_spec (Z.to_N (x mod 256)) 255); [discriminate | lia].
Qed.

Lemma set_of_nat a (i : nat) v :
  JS.set a (Z.of_nat i) v = <[i := JS.toUint8 v]> a.
Proof.
  unfold JS.set. destruct (Z.ltb_spec (Z.of_nat i) 0); [lia |].
  rewrite Nat2Z.id. reflexivity.
Qed.

Lemma get_in_range (a : list byte) (i : Z) :
  0 <= i < JS.len a ->
  JS.get a i = Some (JS.byteVal (List.nth (Z.to_nat i) a Byte.x00)).
Proof.
  intros [H0 H1]. unfold JS.get, JS.len in *.
  destruct (Z.ltb_spec i 0); [lia |].
  destruct (a !! Z.to_nat i) as [b|] eqn:E.
  - rewrite (nth_lookup_Some a (Z.to_nat i) Byte.x00 b E). reflexivity.
  - apply lookup_ge_None in E. lia.
Qed.

Lemma get_out_of_range (a : list byte) (i : Z) :
  i < 0 \/ JS.len a <= i -> JS.get a i = None.
Proof.
  intros H. unfold JS.get, JS.len in *.
  destruct (Z.ltb_spec i 0); [reflexivity |].
  rewrite (proj2 (lookup_ge_None a (Z.to_nat i))); [reflexivity | lia].
Qed.

End JSFacts.

(** ** The counter bytes *)

Import JSFacts.

Lemma counterBytes_eq T :
  counterBytes T =
  let u := T mod 2 ^ 32 in
  [Byte.x00; Byte.x00; Byte.x00; Byte.x00;
   JS.toUint8 (u / 2 ^ 24); JS.toUint8 (u / 2 ^ 16);
   JS.toUint8 (u / 2 ^ 8); JS.toUint8 u].
Proof.
  pose proof (Z.mod_pos_bound T (2 ^ 32) ltac:(lia)) as B.
  set (u := T mod 2 ^ 32) in *. cbv zeta.
  unfold counterBytes, JS.newUint8Array.
  cbn [counterLoop replicate].
  rewrite !band_255.
  rewrite (ushr_8 T). fold u.
  assert (H1 : 0 <= u / 256 < 2 ^ 24)
    by (split; [apply Z.div_pos | apply Z.div_lt_upper_bound]; lia).
  rewrite (ushr_8_small (u / 256)) by lia.
  rewrite Z.div_div by lia.
  assert (H2 : 0 <= u / (256 * 256) < 2 ^ 16)
    by (split; [apply Z.div_pos | apply Z.div_lt_upper_bound]; lia).
  rewrite (ushr_8_small (u / (256 * 256))) by lia.
  rewrite Z.div_div by lia.
  assert (H3 : 0 <= u / (256 * 256 * 256) < 2 ^ 8)
    by (split; [apply Z.div_pos | apply Z.div_lt_upper_bound]; lia).
  rewrite (ushr_8_small (u / (256 * 256 * 256))) by lia.
  rewrite Z.div_div by lia.
  replace (u / (256 * 256 * 256 * 256)) with 0
    by (symmetry; apply Z.div_small; lia).
  repeat (rewrite (ushr_8_small 0) by lia; change (0 / 256) with 0).
  change (0 mod 256) with 0.
  rewrite !set_of_nat.
  change (JS.toUint8 0) with Byte.x00.
  rewrite !toUint8_mod.
  change (256 * 256 * 256) with (2 ^ 24). change (256 * 256) with (2 ^ 16).
  change 256 with (2 ^ 8).
  replace (JS.toUint8 T) with (JS.toUint8 u).
  2:{ rewrite <- (toUint8_mod u), <- (toUint8_mod T). f_equal.
      unfold u. apply Z.mod_mod_divide. exists (2 ^ 24). reflexivity. }
  reflexivity.
Qed.

Lemma counterBytes_congr T1 T2 :
  T1 mod 2 ^ 32 = T2 mod 2 ^ 32 -> counterBytes T1 = counterBytes T2.
Proof. intros H. rewrite !counterBytes_eq. cbv zeta. rewrite H. reflexivity. Qed.

Lemma counterBytes_length T : length (counterBytes T) = 8%nat.
Proof. rewrite counterBytes_eq. reflexivity. Qed.

Lemma counterBytes_high T : take 4 (counterBytes T) = replicate 4 Byte.x00.
Proof. rewrite counterBytes_eq. reflexivity. Qed.

Lemma counterBytes_be64 T : 0 <= T < 2 ^ 32 -> counterBytes T = Spec.be64 T.
Proof.
  intros HT. rewrite counterBytes_eq. cbv zeta.
  rewrite (Z.mod_small T) by lia.
  unfold Spec.be64. cbn [map].
  change (8 * Z.of_nat 7) with 56. change (8 * Z.of_nat 6) with 48.
  change (8 * Z.of_nat 5) with 40. change (8 * Z.of_nat 4) with 32.
  change (8 * Z.of_nat 3) with 24. change (8 * Z.of_nat 2) with 16.
  change (8 * Z.of_nat 1) with 8. change (8 * Z.of_nat 0) with 0.
  rewrite (Z.div_small T (2 ^ 56)), (Z.div_small T (2 ^ 48)),
    (Z.div_small T (2 ^ 40)), (Z.div_small T (2 ^ 32)) by lia.
  rewrite Z.pow_0_r, Z.div_1_r. reflexivity.
Qed.

(** ** The dynamic truncation *)

Lemma land_shifted_byte v b : 0 <= b < 256 -> Z.land (v * 256) b = 0.
Proof.
  intros Hb. apply Z.bits_inj'. intros n Hn.
  rewrite Z.land_spec, Z.bits_0.
  change 256 with (2 ^ 8). rewrite <- Z.shiftl_mul_pow2 by lia.
  destruct (Z.lt_ge_cases n 8) as [L|G].
  - rewrite Z.shiftl_spec_low by lia. reflexivity.
  - rewrite <- (Z.mod_small b (2 ^ 8)) by lia.
    rewrite Z.mod_pow2_bits_high by lia. apply andb_false_r.
Qed.

Lemma lor_shifted_byte v b : 0 <= b < 256 -> Z.lor (v * 256) b = v * 256 + b.
Proof. intros Hb. symmetry. apply Z.add_nocarry_lor, land_shifted_byte, Hb. Qed.

Lemma shl_8 x : JS.shl x 8 = JS.toInt32 (JS.toInt32 x * 256).
Proof.
  unfold JS.shl. rewrite (toUint32_small 8) by lia.
  change (8 mod 32) with 8. rewrite Z.shiftl_mul_pow2 by lia. reflexivity.
Qed.

Lemma toInt32_idem x : JS.toInt32 (JS.toInt32 x) = JS.toInt32 x.
Proof. apply toInt32_small, toInt32_range. Qed.

(** One iteration of the truncation loop on a value [m * 256 ...]. *)
Lemma trunc_step_small t b :
  0 <= t < 2 ^ 23 -> 0 <= b < 256 ->
  JS.boru (JS.shl t 8) (Some b) = t * 256 + b.
Proof.
  intros Ht Hb. unfold JS.boru. rewrite shl_8, toInt32_idem.
  rewrite (toInt32_small t) by lia.
  rewrite (toInt32_small (t * 256)) by lia.
  simpl JS.toInt32u. rewrite (toInt32_small b) by lia.
  apply lor_shifted_byte, Hb.
Qed.

Lemma trunc_step_last t b :
  0 <= t < 2 ^ 24 -> 0 <= b < 256 ->
  exists k, JS.boru (JS.shl t 8) (Some b) = t * 256 + b + k * 2 ^ 32.
Proof.
  intros Ht Hb. unfold JS.boru. rewrite shl_8, toInt32_idem.
  rewrite (toInt32_small t) by lia.
  simpl JS.toInt32u. rewrite (toInt32_small b) by lia.
  destruct (toInt32_spec (t * 256)) as [k Hk]. exists k.
  rewrite Hk.
  replace (t * 256 + k * 2 ^ 32) with ((t + k * 2 ^ 24) * 256) by lia.
  rewrite lor_shifted_byte by lia. lia.
Qed.

Lemma land_15 x : Z.land x 15 = x mod 16.
Proof. change 15 with (Z.ones 4). rewrite Z.land_ones by lia. reflexivity. Qed.

Lemma truncOffset_range mac : 0 <= truncOffset mac <= 15.
Proof.
  unfold truncOffset, JS.bandu. rewrite (toInt32_small 15) by lia.
  rewrite land_15.
  pose proof (Z.mod_pos_bound (JS.toInt32u (JS.get mac (JS.len mac - 1))) 16 ltac:(lia)).
  lia.
Qed.

Lemma truncOffset_spec mac : mac <> [] -> truncOffset mac = Spec.dtOffset mac.
Proof.
  intros Hne. unfold truncOffset, JS.bandu, Spec.dtOffset.
  rewrite (toInt32_small 15) by lia.
  assert (L : 0 < JS.len mac).
  { unfold JS.len. destruct mac; [congruence | simpl; lia]. }
  rewrite get_in_range by lia. simpl JS.toInt32u.
  pose proof (byteVal_range (nth (Z.to_nat (JS.len mac - 1)) mac Byte.x00)).
  rewrite toInt32_small by lia.
  f_equal. f_equal.
  unfold JS.len. replace (Z.to_nat (Z.of_nat (length mac) - 1)) with (length mac - 1)%nat by lia.
  destruct (exists_last Hne) as [l [a ->]].
  rewrite List.last_last, length_app. simpl.
  rewrite List.app_nth2 by lia. replace (length l + 1 - 1 - length l)%nat with 0%nat by lia.
  reflexivity.
Qed.

Lemma truncLoop_spec mac off :
  0 <= off -> off + 4 <= JS.len mac ->
  exists k, truncLoop mac off 4 0 0 = Spec.beUint32 mac off + k * 2 ^ 32.
Proof.
  intros H0 H4. cbn [truncLoop].
  rewrite !get_in_range by lia.
  replace (off + 0) with off by lia.
  replace (off + (0 + 1)) with (off + 1) by lia.
  replace (off + (0 + 1 + 1)) with (off + 2) by lia.
  replace (off + (0 + 1 + 1 + 1)) with (off + 3) by lia.
  unfold Spec.beUint32, Spec.byteAt.
  set (b0 := JS.byteVal (nth (Z.to_nat off) mac Byte.x00)).
  set (b1 := JS.byteVal (nth (Z.to_nat (off + 1)) mac Byte.x00)).
  set (b2 := JS.byteVal (nth (Z.to_nat (off + 2)) mac Byte.x00)).
  set (b3 := JS.byteVal (nth (Z.to_nat (off + 3)) mac Byte.x00)).
  pose proof (byteVal_range (nth (Z.to_nat off) mac Byte.x00)) as R0. fold b0 in R0.
  pose proof (byteVal_range (nth (Z.to_nat (off + 1)) mac Byte.x00)) as R1. fold b1 in R1.
  pose proof (byteVal_range (nth (Z.to_nat (off + 2)) mac Byte.x00)) as R2. fold b2 in R2.
  pose proof (byteVal_range (nth (Z.to_nat (off + 3)) mac Byte.x00)) as R3. fold b3 in R3.
  rewrite (trunc_step_small 0 b0) by lia.
  rewrite (trunc_step_small (0 * 256 + b0) b1) by lia.
  rewrite (trunc_step_small ((0 * 256 + b0) * 256 + b1) b2) by lia.
  destruct (trunc_step_last (((0 * 256 + b0) * 256 + b1) * 256 + b2) b3) as [k Hk]; [lia | lia |].
  exists k. rewrite Hk. lia.
Qed.

Lemma otpOf_range tr digits : 0 <= digits -> 0 <= otpOf tr digits < 10 ^ digits.
Proof.
  intros Hd. unfold otpOf, JS.rem, JS.pow10, JS.band.
  rewrite (toInt32_small 2147483647) by lia.
  change 2147483647 with (Z.ones 31). rewrite Z.land_ones by lia.
  pose proof (Z.mod_pos_bound (JS.toInt32 tr) (2 ^ 31) ltac:(lia)).
  assert (0 < 10 ^ digits) by (apply Z.pow_pos_nonneg; lia).
  rewrite Z.rem_mod_nonneg by lia.
  apply Z.mod_pos_bound. lia.
Qed.

Lemma otpOf_spec x k digits :
  0 <= digits ->
  otpOf (x + k * 2 ^ 32) digits = Z.land x 2147483647 mod 10 ^ digits.
Proof.
  intros Hd. unfold otpOf, JS.rem, JS.pow10, JS.band.
  rewrite (toInt32_small 2147483647) by lia.
  change 2147483647 with (Z.ones 31). rewrite !Z.land_ones by lia.
  pose proof (Z.mod_pos_bound (JS.toInt32 (x + k * 2 ^ 32)) (2 ^ 31) ltac:(lia)).
  assert (0 < 10 ^ digits) by (apply Z.pow_pos_nonneg; lia).
  rewrite Z.rem_mod_nonneg by lia.
  f_equal. rewrite (toInt32_mod_pow2 _ 31) by lia.
  replace (k * 2 ^ 32) with (k * 2 * 2 ^ 31) by lia.
  apply Z.mod_add. lia.
Qed.

Lemma otp_dynamicTruncation mac digits :
  0 <= digits -> truncOffset mac + 4 <= JS.len mac ->
  otpOf (truncLoop mac (truncOffset mac) 4 0 0) digits = Spec.dynamicTruncation mac digits.
Proof.
  intros Hd Hlen. pose proof (truncOffset_range mac) as R.
  destruct (truncLoop_spec mac (truncOffset mac)) as [k Hk]; [lia | lia |].
  rewrite Hk, otpOf_spec by lia.
  unfold Spec.dynamicTruncation. rewrite truncOffset_spec; [reflexivity |].
  intros ->. unfold JS.len in Hlen. simpl in Hlen. lia.
Qed.

(** ** The decimal text of a code *)

Module StrFacts.

Lemma dec_unfold n :
  Str.dec n =
  if n <? 10 then String (Str.digitChar n) EmptyString
  else (Str.dec (n / 10) ++ String (Str.digitChar (n mod 10)) EmptyString)%string.
Proof.
  funelim (Str.dec n).
  - rewrite e. reflexivity.
  - rewrite H. reflexivity.
Qed.

Lemma length_append (s1 s2 : string) :
  String.length (s1 ++ s2) = (String.length s1 + String.length s2)%nat.
Proof. induction s1 as [|c s1 IH]; simpl; [reflexivity | rewrite IH; reflexivity]. Qed.

Lemma allDigits_append s1 s2 :
  Str.allDigits (s1 ++ s2) = Str.allDigits s1 && Str.allDigits s2.
Proof.
  induction s1 as [|c s1 IH]; simpl; [reflexivity |].
  rewrite IH. apply andb_assoc.
Qed.

Lemma valueFrom_append acc s1 s2 :
  Str.valueFrom acc (s1 ++ s2) = Str.valueFrom (Str.valueFrom acc s1) s2.
Proof. revert acc. induction s1 as [|c s1 IH]; intros acc; simpl; [reflexivity | apply IH]. Qed.

Lemma digitChar_code d : 0 <= d <= 9 -> nat_of_ascii (Str.digitChar d) = (48 + Z.to_nat d)%nat.
Proof. intros Hd. unfold Str.digitChar. apply nat_ascii_embedding. lia. Qed.

Lemma isDigit_digitChar d : 0 <= d <= 9 -> Str.isDigit (Str.digitChar d) = true.
Proof.
  intros Hd. unfold Str.isDigit. rewrite digitChar_code by lia.
  apply andb_true_intro. split; apply Nat.leb_le; lia.
Qed.

Lemma dec_allDigits n : 0 <= n -> Str.allDigits (Str.dec n) = true.
Proof.
  funelim (Str.dec n); intros Hn.
  - pose proof (proj1 (Z.ltb_lt _ _) e) as Hlt. cbn [Str.allDigits].
    rewrite isDigit_digitChar by lia. reflexivity.
  - pose proof (proj1 (Z.ltb_ge _ _) H) as Hge.
    rewrite allDigits_append, H0 by (apply Z.div_pos; lia).
    cbn [Str.allDigits andb]. rewrite isDigit_digitChar; [reflexivity |].
    pose proof (Z.mod_pos_bound n 10 ltac:(lia)). lia.
Qed.

Lemma dec_value n : 0 <= n -> Str.value (Str.dec n) = n.
Proof.
  unfold Str.value. funelim (Str.dec n); intros Hn.
  - pose proof (proj1 (Z.ltb_lt _ _) e) as Hlt. cbn [Str.valueFrom].
    rewrite digitChar_code by lia. lia.
  - pose proof (proj1 (Z.ltb_ge _ _) H) as Hge.
    rewrite valueFrom_append, H0 by (apply Z.div_pos; lia).
    pose proof (Z.mod_pos_bound n 10 ltac:(lia)).
    cbn [Str.valueFrom]. rewrite digitChar_code by lia.
    pose proof (Z.div_mod n 10 ltac:(lia)). lia.
Qed.

Lemma dec_length (d : nat) : forall n,
  0 <= n < 10 ^ Z.of_nat (S d) -> (String.length (Str.dec n) <= S d)%nat.
Proof.
  induction d as [|d IH]; intros n Hn; rewrite dec_unfold.
  - change (10 ^ Z.of_nat 1) with 10 in Hn.
    destruct (Z.ltb_spec n 10); [cbn [String.length]; lia | lia].
  - destruct (Z.ltb_spec n 10); [cbn [String.length]; lia |].
    rewrite length_append. cbn [String.length].
    assert (0 <= n / 10 < 10 ^ Z.of_nat (S d)).
    { split; [apply Z.div_pos; lia |].
      apply Z.div_lt_upper_bound; [lia |].
      replace (Z.of_nat (S (S d))) with (Z.of_nat (S d) + 1) in Hn by lia.
      rewrite Z.pow_add_r in Hn by lia. lia. }
    specialize (IH (n / 10) H0). lia.
Qed.

Lemma dec_nonempty n : (1 <= String.length (Str.dec n))%nat.
Proof.
  rewrite dec_unfold. destruct (n <? 10); [cbn [String.length]; lia |].
  rewrite length_append. cbn [String.length]. lia.
Qed.

Lemma length_zeros k : String.length (Str.zeros k) = k.
Proof. induction k; simpl; congruence. Qed.

Lemma allDigits_zeros k : Str.allDigits (Str.zeros k) = true.
Proof. induction k; simpl; [reflexivity | exact IHk]. Qed.

Lemma valueFrom_zeros k : Str.valueFrom 0 (Str.zeros k) = 0.
Proof. induction k; simpl; [reflexivity | exact IHk]. Qed.

Lemma padStart_length s n :
  String.length (Str.padStart s n) = Nat.max (String.length s) (Z.to_nat n).
Proof.
  unfold Str.padStart.
  destruct (Nat.leb_spec (Z.to_nat n) (String.length s)); [lia |].
  rewrite length_append, length_zeros. lia.
Qed.

Lemma padStart_allDigits s n :
  Str.allDigits (Str.padStart s n) = Str.allDigits s.
Proof.
  unfold Str.padStart. destruct (Z.to_nat n <=? String.length s)%nat; [reflexivity |].
  rewrite allDigits_append, allDigits_zeros. reflexivity.
Qed.

Lemma padStart_value s n : Str.value (Str.padStart s n) = Str.value s.
Proof.
  unfold Str.padStart, Str.value.
  destruct (Z.to_nat n <=? String.length s)%nat; [reflexivity |].
  rewrite valueFrom_append, valueFrom_zeros. reflexivity.
Qed.

End StrFacts.

(** The format of the code string for an [otp] below [10^digits]. *)
Lemma otpString_format otp digits :
  0 < digits -> 0 <= otp < 10 ^ digits ->
  String.length (otpString otp digits) = Z.to_nat digits /\
  Str.allDigits (otpString otp digits) = true /\
  Str.value (otpString otp digits) = otp /\
  otpString otp digits =
    (Str.zeros (Z.to_nat digits - String.length (Str.dec otp)) ++ Str.dec otp)%string.
Proof.
  intros Hd Ho. unfold otpString, Str.toString.
  destruct (Z.ltb_spec otp 0); [lia |].
  assert (L : (String.length (Str.dec otp) <= Z.to_nat digits)%nat).
  { destruct (Z.to_nat digits) as [|d] eqn:E; [lia |].
    apply StrFacts.dec_length. rewrite <- E, Z2Nat.id by lia. exact Ho. }
  rewrite StrFacts.padStart_length, StrFacts.padStart_allDigits, StrFacts.padStart_value.
  rewrite StrFacts.dec_allDigits, StrFacts.dec_value by lia.
  repeat split; [lia |].
  unfold Str.padStart.
  destruct (Nat.leb_spec (Z.to_nat digits) (String.length (Str.dec otp))); [| reflexivity].
  replace (Z.to_nat digits - String.length (Str.dec otp))%nat with 0%nat by lia.
  reflexivity.
Qed.

(** ** The offsets of a window *)

Lemma offsets_length window :
  length (Spec.offsets window) = Z.to_nat (2 * window + 1).
Proof. unfold Spec.offsets. rewrite length_map, length_seq. reflexivity. Qed.

Lemma offsets_In window t :
  In t (Spec.offsets window) <-> - window <= t <= window.
Proof.
  unfold Spec.offsets. rewrite in_map_iff. split.
  - intros (k & <- & Hk). apply in_seq in Hk. lia.
  - intros Ht. exists (Z.to_nat (t + window)). split; [lia |].
    apply in_seq. lia.
Qed.

(** ** The code of a valid call *)

Lemma otpString_isCode otp digits :
  0 < digits -> 0 <= otp < 10 ^ digits ->
  Spec.isCode digits (otpString otp digits).
Proof.
  intros Hd R.
  destruct (otpString_format otp digits Hd R) as (L & A & V & _).
  exists otp. repeat split; try assumption; lia.
Qed.

Lemma dtOffset_range mac : 0 <= Spec.dtOffset mac <= 15.
Proof.
  unfold Spec.dtOffset. rewrite land_15.
  pose proof (Z.mod_pos_bound (JS.byteVal (List.last mac Byte.x00)) 16 ltac:(lia)).
  lia.
Qed.

Lemma dtOffset_truncOffset mac :
  Spec.dtOffset mac + 4 <= JS.len mac -> truncOffset mac = Spec.dtOffset mac.
Proof.
  intros H. apply truncOffset_spec. intros ->.
  pose proof (dtOffset_range []). unfold JS.len in H. simpl in H. lia.
Qed.

Lemma otpOf_nonneg tr digits : 0 <= otpOf tr digits.
Proof.
  unfold otpOf, JS.rem, JS.band.
  rewrite (toInt32_small 2147483647) by lia.
  change 2147483647 with (Z.ones 31). rewrite Z.land_ones by lia.
  pose proof (Z.mod_pos_bound (JS.toInt32 tr) (2 ^ 31) ltac:(lia)).
  destruct (Z.eq_dec (JS.pow10 digits) 0) as [-> | Hne].
  - rewrite Z.rem_0_r_ext by reflexivity. lia.
  - apply Z.rem_nonneg; lia.
Qed.

Lemma otpString_allDigits otp digits :
  0 <= otp -> Str.allDigits (otpString otp digits) = true.
Proof.
  intros Ho. unfold otpString, Str.toString.
  destruct (Z.ltb_spec otp 0); [lia |].
  rewrite StrFacts.padStart_allDigits. apply StrFacts.dec_allDigits, Ho.
Qed.

Lemma dynamicTruncation_range mac digits :
  0 <= digits -> 0 <= Spec.dynamicTruncation mac digits < 10 ^ digits.
Proof.
  intros Hd. unfold Spec.dynamicTruncation.
  apply Z.mod_pos_bound, Z.pow_pos_nonneg; lia.
Qed.

(** ** The console *)

Lemma Ok_inj {A} (a b : A) : Ok a = Ok b -> a = b.
Proof. intros E. injection E as E. exact E. Qed.

Ltac run :=
  unfold bind, try_catch, throw, ret, call, console_error, Date_now in *.

Lemma appendLog_logged l e es w :
  logged l e (appendLog es w) = appendLog (es ++ [(l, e)]) w.
Proof. unfold logged, appendLog. simpl. rewrite <- app_assoc. reflexivity. Qed.

Lemma appendLog_clock es w :
  clock (appendLog es w) = clock w /\ reads (appendLog es w) = reads w.
Proof. split; reflexivity. Qed.

(** ** The window loop, for any generator and any step expression

    Both loops have the same shape: [step t] is the step examined at
    offset [t] and [gen T] the call of [generateTOTPWithT] at step [T]. *)

Section WindowLoop.

Variable gen : Z -> M string.
Variable step : Z -> Z.
Variable userInput : string.
Variable window : Z.
Variable loop : Z -> World -> Result bool * World.

Hypothesis loop_unfold : forall t w,
  loop t w =
  if t <=? window then
    match gen (step t) w with
    | (Throw e, w') => (Throw e, w')
    | (Ok totp, w') =>
        if (totp =? userInput)%string then (Ok true, w') else loop (t + 1) w'
    end
  else (Ok false, w).

(** The loop answers [true] only for a code some offset of the window
    produced. *)
Lemma loop_true_sound : forall n t w w',
  Z.to_nat (window + 1 - t) = n ->
  loop t w = (Ok true, w') ->
  exists t' w1, t <= t' <= window /\ fst (gen (step t') w1) = Ok userInput.
Proof.
  induction n as [|n IH]; intros t w w' Hn Hrun; rewrite loop_unfold in Hrun.
  - destruct (Z.leb_spec t window); [lia | discriminate].
  - destruct (Z.leb_spec t window); [| discriminate].
    destruct (gen (step t) w) as [[totp|e] w1] eqn:G; [| discriminate].
    destruct (String.eqb_spec totp userInput) as [->|Hne].
    + exists t, w. rewrite G. split; [lia | reflexivity].
    + destruct (IH (t + 1) w1 w' ltac:(lia) Hrun) as (t' & w2 & Ht' & Hg).
      exists t', w2. split; [lia | exact Hg].
Qed.

(** When every call returns a code and leaves the world alone, the loop
    returns, leaves the world alone, and answers [true] exactly when an
    offset from [t] to [window] produces the candidate. *)
Hypothesis gen_pure : forall T, exists c, forall w, gen T w = (Ok c, w).

Lemma loop_pure : forall n t w,
  Z.to_nat (window + 1 - t) = n ->
  exists b, loop t w = (Ok b, w) /\
    (b = true <->
     exists t', t <= t' <= window /\ forall w1, gen (step t') w1 = (Ok userInput, w1)).
Proof.
  induction n as [|n IH]; intros t w Hn; rewrite loop_unfold.
  - destruct (Z.leb_spec t window); [lia |].
    exists false. split; [reflexivity |].
    split; [discriminate | intros (t' & Ht' & _); lia].
  - destruct (Z.leb_spec t window); [| lia].
    destruct (gen_pure (step t)) as [c Hc]. rewrite Hc.
    destruct (String.eqb_spec c userInput) as [->|Hne].
    + exists true. split; [reflexivity |].
      split; [intros _; exists t; split; [lia | exact Hc] | reflexivity].
    + destruct (IH (t + 1) w ltac:(lia)) as (b & Hb & Hiff).
      exists b. split; [exact Hb |].
      rewrite Hiff. split; intros (t' & Ht' & Hg).
      * exists t'. split; [lia | exact Hg].
      * exists t'. split; [| exact Hg].
        destruct (Z.eq_dec t' t) as [->|]; [| lia].
        specialize (Hg w). rewrite Hc in Hg. congruence.
Qed.

End WindowLoop.

(** ** [utils.ts]: what a call of a generator does *)

Section UtilsFacts.

Variable base32Decode : string -> option (list byte).
Variable subtleHmac : HashAlg -> list byte -> list byte -> option (list byte).

Lemma utils_generateHMAC_run data key alg w :
  Utils.generateHMAC subtleHmac data key alg w =
  match subtleHmac alg key data with
  | Some mac => (Ok mac, w)
  | None => (Throw (HmacFailed alg), logged "Error generating HMAC:" CryptoError w)
  end.
Proof.
  unfold Utils.generateHMAC. run. destruct (subtleHmac alg key data); reflexivity.
Qed.

Lemma utils_codeAtStep_run key T digits w :
  Utils.codeAtStep subtleHmac key T digits w =
  match subtleHmac SHA1 key (counterBytes T) with
  | Some mac =>
      if truncOffset mac + 3 <? JS.len mac
      then (Ok (otpString (otpOf (truncLoop mac (truncOffset mac) 4 0 0) digits) digits), w)
      else (Throw TruncationRange, w)
  | None => (Throw (HmacFailed SHA1), logged "Error generating HMAC:" CryptoError w)
  end.
Proof.
  unfold Utils.codeAtStep, Utils.hmacSha1, Utils.truncate. unfold bind at 1.
  rewrite utils_generateHMAC_run.
  destruct (subtleHmac SHA1 key (counterBytes T)) as [mac|]; [|reflexivity].
  run. destruct (truncOffset mac + 3 <? JS.len mac); reflexivity.
Qed.

(** A call either returns a code and leaves the world as it was, or
    throws the generic error after writing to the console; which of the
    two, and the code, do not depend on the world. *)
Lemma utils_generateTOTPWithT_uniform secretBase32 T period digits :
  (exists c, forall w,
      Utils.generateTOTPWithT base32Decode subtleHmac secretBase32 T period digits w
      = (Ok c, w)) \/
  (exists es, forall w,
      Utils.generateTOTPWithT base32Decode subtleHmac secretBase32 T period digits w
      = (Throw FailedToGenerateTOTP, appendLog es w)).
Proof.
  unfold Utils.generateTOTPWithT. checks.
  destruct (emptyStr secretBase32);
    [right; eexists; intros w; run; reflexivity |].
  destruct (period <=? 0);
    [right; eexists; intros w; run; reflexivity |].
  destruct (digits <=? 0);
    [right; eexists; intros w; run; reflexivity |].
  destruct (base32Decode secretBase32) as [key|];
    [| right; eexists; intros w; run; reflexivity].
  pose proof (utils_codeAtStep_run key T digits) as R.
  destruct (subtleHmac SHA1 key (counterBytes T)) as [mac|].
  - destruct (truncOffset mac + 3 <? JS.len mac).
    + left. eexists. intros w. unfold try_catch, bind, call, ret.
      rewrite R. reflexivity.
    + right. eexists. intros w. unfold try_catch, bind, call, ret.
      rewrite R. run. reflexivity.
  - right.
    exists [("Error generating HMAC:"%string, CryptoError);
            ("Error generating TOTP with specific T:"%string, HmacFailed SHA1)].
    intros w. unfold try_catch, bind, call, ret. rewrite R. run.
    unfold logged, appendLog. simpl. rewrite <- app_assoc. reflexivity.
Qed.

(** The call on arguments that pass every check. *)
Lemma utils_generateTOTPWithT_ok secretBase32 key mac T period digits w :
  emptyStr secretBase32 = false -> 0 < period -> 0 < digits ->
  base32Decode secretBase32 = Some key ->
  subtleHmac SHA1 key (counterBytes T) = Some mac ->
  truncOffset mac + 4 <= JS.len mac ->
  Utils.generateTOTPWithT base32Decode subtleHmac secretBase32 T period digits w
  = (Ok (otpString (Spec.dynamicTruncation mac digits) digits), w).
Proof.
  intros Hs Hp Hd Hk Hm Hl. unfold Utils.generateTOTPWithT. rewrite Hs. checks.
  destruct (Z.leb_spec period 0); [lia |].
  destruct (Z.leb_spec digits 0); [lia |].
  rewrite Hk. unfold try_catch, bind, call, ret.
  rewrite utils_codeAtStep_run, Hm.
  destruct (Z.ltb_spec (truncOffset mac + 3) (JS.len mac)); [| lia].
  rewrite otp_dynamicTruncation by lia. reflexivity.
Qed.

Lemma utils_generateTOTP_ok secretBase32 key mac period digits w :
  emptyStr secretBase32 = false -> 0 < period -> 0 < digits ->
  base32Decode secretBase32 = Some key ->
  subtleHmac SHA1 key (counterBytes (floorDiv (nowOf w) (period * 1000))) = Some mac ->
  truncOffset mac + 4 <= JS.len mac ->
  Utils.generateTOTP base32Decode subtleHmac secretBase32 period digits w
  = (Ok (otpString (Spec.dynamicTruncation mac digits) digits), tick w).
Proof.
  intros Hs Hp Hd Hk Hm Hl. unfold Utils.generateTOTP. rewrite Hs. checks.
  destruct (Z.leb_spec period 0); [lia |].
  destruct (Z.leb_spec digits 0); [lia |].
  rewrite Hk. unfold try_catch, bind, call, ret, Date_now.
  rewrite utils_codeAtStep_run, Hm.
  destruct (Z.ltb_spec (truncOffset mac + 3) (JS.len mac)); [| lia].
  rewrite otp_dynamicTruncation by lia. reflexivity.
Qed.

(** Whatever a call returns is a string of decimal digits. *)
Lemma utils_code_allDigits secretBase32 T period digits w c :
  fst (Utils.generateTOTPWithT base32Decode subtleHmac secretBase32 T period digits w)
  = Ok c ->
  Str.allDigits c = true.
Proof.
  unfold Utils.generateTOTPWithT. checks.
  destruct (emptyStr secretBase32); [run; discriminate |].
  destruct (period <=? 0); [run; discriminate |].
  destruct (digits <=? 0); [run; discriminate |].
  destruct (base32Decode secretBase32) as [key|]; [| run; discriminate].
  unfold try_catch, bind, call, ret. rewrite utils_codeAtStep_run.
  destruct (subtleHmac SHA1 key (counterBytes T)) as [mac|]; [| run; discriminate].
  destruct (truncOffset mac + 3 <? JS.len mac); [| run; discriminate].
  cbn [fst]. intros E. apply Ok_inj in E. subst c.
  apply otpString_allDigits, otpOf_nonneg.
Qed.

Lemma utils_generateTOTPWithT_congr secretBase32 T1 T2 period digits w :
  T1 mod 2 ^ 32 = T2 mod 2 ^ 32 ->
  Utils.generateTOTPWithT base32Decode subtleHmac secretBase32 T1 period digits w
  = Utils.generateTOTPWithT base32Decode subtleHmac secretBase32 T2 period digits w.
Proof.
  intros H. unfold Utils.generateTOTPWithT, Utils.codeAtStep. checks.
  rewrite (counterBytes_congr T1 T2 H). reflexivity.
Qed.

Lemma utils_verifyLoop_unfold s u p d win cT t w :
  Utils.verifyLoop base32Decode subtleHmac s u p d win cT t w =
  if t <=? win then
    match Utils.generateTOTPWithT base32Decode subtleHmac s (cT + t) p d w with
    | (Throw e, w') => (Throw e, w')
    | (Ok totp, w') =>
        if (totp =? u)%string then (Ok true, w')
        else Utils.verifyLoop base32Decode subtleHmac s u p d win cT (t + 1) w'
    end
  else (Ok false, w).
Proof.
  funelim (Utils.verifyLoop base32Decode subtleHmac s u p d win cT t w).
  - rewrite e. reflexivity.
  - rewrite H, Heq. reflexivity.
  - rewrite H, Heq0, Heq. reflexivity.
  - rewrite H, Heq0, Heq. reflexivity.
Qed.

(** A valid secret makes every call succeed. *)
Lemma utils_valid_pure secretBase32 period digits :
  validSecret base32Decode subtleHmac SHA1 secretBase32 ->
  0 < period -> 0 < digits ->
  forall T, exists c, forall w,
    Utils.generateTOTPWithT base32Decode subtleHmac secretBase32 T period digits w
    = (Ok c, w).
Proof.
  intros (Hs & key & Hk & Hmac) Hp Hd T.
  destruct (Hmac (counterBytes T)) as (mac & Hm & Hl).
  eexists. intros w.
  apply (utils_generateTOTPWithT_ok secretBase32 key mac); try assumption.
  pose proof (truncOffset_range mac). simpl in Hl. lia.
Qed.

End UtilsFacts.

(** ** [index.ts]: what a call of a generator does *)

Section IndexFacts.

Variable base32Decode : string -> option (list byte).
Variable subtleHmac : HashAlg -> list byte -> list byte -> option (list byte).

Lemma index_generateHMAC_run data key alg w :
  Index.generateHMAC subtleHmac data key alg w =
  match subtleHmac alg key data with
  | Some mac => (Ok mac, w)
  | None => (Throw (HmacFailed alg), logged "Error generating HMAC:" CryptoError w)
  end.
Proof.
  unfold Index.generateHMAC. run. destruct (subtleHmac alg key data); reflexivity.
Qed.

(** No MAC makes the truncation fail: there is no [TruncationRange]
    branch. *)
Lemma index_codeAtStep_run key T digits w :
  Index.codeAtStep subtleHmac key T digits w =
  match subtleHmac SHA256 key (counterBytes T) with
  | Some mac =>
      (Ok (otpString (otpOf (truncLoop mac (truncOffset mac) 4 0 0) digits) digits), w)
  | None => (Throw (HmacFailed SHA256), logged "Error generating HMAC:" CryptoError w)
  end.
Proof.
  unfold Index.codeAtStep, Index.hmacSha256. unfold bind at 1.
  rewrite index_generateHMAC_run.
  destruct (subtleHmac SHA256 key (counterBytes T)) as [mac|]; reflexivity.
Qed.

Lemma index_generateTOTPWithT_uniform secretBase32 T period digits :
  (exists c, forall w,
      Index.generateTOTPWithT base32Decode subtleHmac secretBase32 T period digits w
      = (Ok c, w)) \/
  (exists es, forall w,
      Index.generateTOTPWithT base32Decode subtleHmac secretBase32 T period digits w
      = (Throw FailedToGenerateTOTP, appendLog es w)).
Proof.
  unfold Index.generateTOTPWithT. checks.
  destruct (emptyStr secretBase32);
    [right; eexists; intros w; run; reflexivity |].
  destruct (base32Decode secretBase32) as [key|];
    [| right; eexists; intros w; run; reflexivity].
  pose proof (index_codeAtStep_run key T digits) as R.
  destruct (subtleHmac SHA256 key (counterBytes T)) as [mac|].
  - left. eexists. intros w. unfold try_catch, bind, call, ret.
    rewrite R. reflexivity.
  - right.
    exists [("Error generating HMAC:"%string, CryptoError);
            ("Error generating TOTP with specific T:"%string, HmacFailed SHA256)].
    intros w. unfold try_catch, bind, call, ret. rewrite R. run.
    unfold logged, appendLog. simpl. rewrite <- app_assoc. reflexivity.
Qed.

(** The call whenever the secret decodes and the primitive returns:
    [period] and [digits] are not looked at. *)
Lemma index_generateTOTPWithT_run secretBase32 key mac T period digits w :
  emptyStr secretBase32 = false ->
  base32Decode secretBase32 = Some key ->
  subtleHmac SHA256 key (counterBytes T) = Some mac ->
  Index.generateTOTPWithT base32Decode subtleHmac secretBase32 T period digits w
  = (Ok (otpString (otpOf (truncLoop mac (truncOffset mac) 4 0 0) digits) digits), w).
Proof.
  intros Hs Hk Hm. unfold Index.generateTOTPWithT. rewrite Hs, Hk. checks.
  unfold try_catch, bind, call, ret.
  rewrite index_codeAtStep_run, Hm. reflexivity.
Qed.

Lemma index_generateTOTP_run secretBase32 key mac period digits w :
  emptyStr secretBase32 = false ->
  base32Decode secretBase32 = Some key ->
  subtleHmac SHA256 key (counterBytes (floorDiv (nowOf w) (period * 1000))) = Some mac ->
  Index.generateTOTP base32Decode subtleHmac secretBase32 period digits w
  = (Ok (otpString (otpOf (truncLoop mac (truncOffset mac) 4 0 0) digits) digits), tick w).
Proof.
  intros Hs Hk Hm. unfold Index.generateTOTP. rewrite Hs, Hk. checks.
  unfold try_catch, bind, call, ret, Date_now.
  rewrite index_codeAtStep_run, Hm. reflexivity.
Qed.

Lemma index_code_allDigits secretBase32 T period digits w c :
  fst (Index.generateTOTPWithT base32Decode subtleHmac secretBase32 T period digits w)
  = Ok c ->
  Str.allDigits c = true.
Proof.
  unfold Index.generateTOTPWithT. checks.
  destruct (emptyStr secretBase32); [run; discriminate |].
  destruct (base32Decode secretBase32) as [key|]; [| run; discriminate].
  unfold try_catch, bind, call, ret. rewrite index_codeAtStep_run.
  destruct (subtleHmac SHA256 key (counterBytes T)) as [mac|]; [| run; discriminate].
  cbn [fst]. intros E. apply Ok_inj in E. subst c.
  apply otpString_allDigits, otpOf_nonneg.
Qed.

Lemma index_generateTOTPWithT_congr secretBase32 T1 T2 period digits w :
  T1 mod 2 ^ 32 = T2 mod 2 ^ 32 ->
  Index.generateTOTPWithT base32Decode subtleHmac secretBase32 T1 period digits w
  = Index.generateTOTPWithT base32Decode subtleHmac secretBase32 T2 period digits w.
Proof.
  intros H. unfold Index.generateTOTPWithT, Index.codeAtStep. checks.
  rewrite (counterBytes_congr T1 T2 H). reflexivity.
Qed.

Lemma index_verifyLoop_unfold s u p d win now t w :
  Index.verifyLoop base32Decode subtleHmac s u p d win now t w =
  if t <=? win then
    match Index.generateTOTPWithT base32Decode subtleHmac s
            (Index.windowStep now p t) p d w with
    | (Throw e, w') => (Throw e, w')
    | (Ok totp, w') =>
        if (totp =? u)%string then (Ok true, w')
        else Index.verifyLoop base32Decode subtleHmac s u p d win now (t + 1) w'
    end
  else (Ok false, w).
Proof.
  funelim (Index.verifyLoop base32Decode subtleHmac s u p d win now t w).
  - rewrite e. reflexivity.
  - rewrite H, Heq. reflexivity.
  - rewrite H, Heq0, Heq. reflexivity.
  - rewrite H, Heq0, Heq. reflexivity.
Qed.

Lemma index_valid_pure secretBase32 period digits :
  validSecret base32Decode subtleHmac SHA256 secretBase32 ->
  forall T, exists c, forall w,
    Index.generateTOTPWithT base32Decode subtleHmac secretBase32 T period digits w
    = (Ok c, w).
Proof.
  intros (Hs & key & Hk & Hmac) T.
  destruct (Hmac (counterBytes T)) as (mac & Hm & Hl).
  eexists. intros w.
  apply (index_generateTOTPWithT_run secretBase32 key mac); assumption.
Qed.

End IndexFacts.

(** On integers the step [index.ts] recomputes for an offset is the
    current step plus the offset. *)
Lemma index_windowStep_exact currentTime period t :
  0 < period ->
  Index.windowStep currentTime period t = floorDiv currentTime (period * 1000) + t.
Proof.
  intros Hp. unfold Index.windowStep, floorDiv.
  rewrite <- Z.mul_assoc. apply Z.div_add. lia.
Qed.

(** ** The test doubles are valid collaborators *)

Lemma stub_valid alg : validSecret Stub.decode Stub.hmac alg "K".
Proof.
  split; [reflexivity |].
  exists (list_byte_of_string "K"). split; [reflexivity |].
  intros data. eexists. split; [reflexivity |].
  unfold JS.len. rewrite length_app, length_take, length_app, length_drop.
  rewrite !length_replicate.
  destruct alg; cbn [macLength];
    [change (Z.to_nat 20) with 20%nat | change (Z.to_nat 32) with 32%nat]; lia.
Qed.

(** ** The cases of [totp.test.ts], replayed on the test doubles

    The stub MAC makes the code of a step the step itself, so with the
    clock at step 123 the current code is ["000123"]. *)

Example test_generate_six_digits :
  Utils.generateTOTP Stub.decode Stub.hmac "K" defaultPeriod defaultDigits Stub.world
  = (Ok "000123"%string, tick Stub.world) /\
  Index.generateTOTP Stub.decode Stub.hmac "K" defaultPeriod defaultDigits Stub.world
  = (Ok "000123"%string, tick Stub.world).
Proof. split; reflexivity. Qed.

Example test_generate_digits_4_and_8 :
  fst (Utils.generateTOTP Stub.decode Stub.hmac "K" 30 4 Stub.world) = Ok "0123"%string /\
  fst (Utils.generateTOTP Stub.decode Stub.hmac "K" 30 8 Stub.world) = Ok "00000123"%string.
Proof. split; reflexivity. Qed.

Example test_generate_period_60 :
  fst (Utils.generateTOTP Stub.decode Stub.hmac "K" 60 6 Stub.world) = Ok "000061"%string.
Proof. reflexivity. Qed.

Example test_verify_window_1 :
  map (fun u => fst (Utils.verifyTOTP Stub.decode Stub.hmac "K" u 30 6 1 Stub.world))
      ["000121"; "000122"; "000123"; "000124"; "000125"; "000000"]%string
  = [Ok false; Ok true; Ok true; Ok true; Ok false; Ok false] /\
  map (fun u => fst (Index.verifyTOTP Stub.decode Stub.hmac "K" u 30 6 1 Stub.world))
      ["000121"; "000122"; "000123"; "000124"; "000125"; "000000"]%string
  = [Ok false; Ok true; Ok true; Ok true; Ok false; Ok false].
Proof. split; reflexivity. Qed.

Example test_verify_window_2 :
  fst (Utils.verifyTOTP Stub.decode Stub.hmac "K" "000121" 30 6 2 Stub.world) = Ok true /\
  fst (Index.verifyTOTP Stub.decode Stub.hmac "K" "000125" 30 6 2 Stub.world) = Ok true.
Proof. split; reflexivity. Qed.

Example test_verify_rejected_secret :
  Utils.verifyTOTP Stub.decode Stub.hmac "!" "000123" 30 6 1 Stub.world
  = (Ok false,
     appendLog [("Error generating TOTP with specific T:"%string, Base32Error);
                ("Error verifying TOTP:"%string, FailedToGenerateTOTP)]
               (tick Stub.world)).
Proof. reflexivity. Qed.

Example test_verify_failing_hmac :
  Index.verifyTOTP Stub.decode Stub.failingHmac "K" "000123" 30 6 1 Stub.world
  = (Ok false,
     appendLog [("Error generating HMAC:"%string, CryptoError);
                ("Error generating TOTP with specific T:"%string, HmacFailed SHA256);
                ("Error verifying TOTP:"%string, FailedToGenerateTOTP)]
               (tick Stub.world)).
Proof. reflexivity. Qed.

(** * The claims *)

(** ** C6: the counter encoding

    C6 asks for the unsigned 64-bit big-endian representation of every
    step up to 2^64 - 1.  The loop fills eight bytes, as its comment
    announces, but shifts with [>>>], which first reduces its operand
    to 32 bits: at the step 2^32 the code encodes eight zero bytes,
    where the 64-bit representation has a 1 in the fourth byte, and
    so both generators return at 2^32 the code of the step 0. *)
Theorem counter_encoding_loses_bit_32 :
  counterBytes (2 ^ 32) = replicate 8 Byte.x00 /\
  Spec.be64 (2 ^ 32) =
    [Byte.x00; Byte.x00; Byte.x00; Byte.x01;
     Byte.x00; Byte.x00; Byte.x00; Byte.x00] /\
  counterBytes (2 ^ 32) <> Spec.be64 (2 ^ 32) /\
  (forall base32Decode subtleHmac secretBase32 period digits w,
      Utils.generateTOTPWithT base32Decode subtleHmac secretBase32 (2 ^ 32) period digits w
      = Utils.generateTOTPWithT base32Decode subtleHmac secretBase32 0 period digits w) /\
  (forall base32Decode subtleHmac secretBase32 period digits w,
      Index.generateTOTPWithT base32Decode subtleHmac secretBase32 (2 ^ 32) period digits w
      = Index.generateTOTPWithT base32Decode subtleHmac secretBase32 0 period digits w).
Proof.
  split; [vm_compute; reflexivity |].
  split; [vm_compute; reflexivity |].
  split; [vm_compute; discriminate |].
  split; intros; [apply utils_generateTOTPWithT_congr | apply index_generateTOTPWithT_congr];
    reflexivity.
Qed.

(** ** C10: the four high-order counter bytes are zero

    C10: for every step [T] the first four of the eight counter bytes
    are zero, and two steps congruent modulo 2^32 make
    [generateTOTPWithT] (of either file) return the same result in
    every world. *)
Theorem counter_high_bytes_zero (T T1 T2 : Z) :
  T1 mod 2 ^ 32 = T2 mod 2 ^ 32 ->
  take 4 (counterBytes T) = replicate 4 Byte.x00 /\
  length (counterBytes T) = 8%nat /\
  counterBytes T1 = counterBytes T2 /\
  (forall base32Decode subtleHmac secretBase32 period digits w,
      Utils.generateTOTPWithT base32Decode subtleHmac secretBase32 T1 period digits w
      = Utils.generateTOTPWithT base32Decode subtleHmac secretBase32 T2 period digits w) /\
  (forall base32Decode subtleHmac secretBase32 period digits w,
      Index.generateTOTPWithT base32Decode subtleHmac secretBase32 T1 period digits w
      = Index.generateTOTPWithT base32Decode subtleHmac secretBase32 T2 period digits w).
Proof.
  intros H.
  split; [apply counterBytes_high |].
  split; [apply counterBytes_length |].
  split; [apply counterBytes_congr, H |].
  split; intros.
  - apply utils_generateTOTPWithT_congr, H.
  - apply index_generateTOTPWithT_congr, H.
Qed.

Lemma counter_high_bytes_zero_witness :
  123 mod 2 ^ 32 = (2 ^ 32 + 123) mod 2 ^ 32 /\
  take 4 (counterBytes 1700000000) = replicate 4 Byte.x00 /\
  fst (Utils.generateTOTPWithT Stub.decode Stub.hmac "K" (2 ^ 32 + 123) 30 6 Stub.world)
  = Ok "000123"%string.
Proof.
  split; [reflexivity |].
  destruct (counter_high_bytes_zero 1700000000 123 (2 ^ 32 + 123) eq_refl)
    as (Hhigh & _ & _ & Hutils & _).
  split; [exact Hhigh |].
  rewrite <- Hutils. reflexivity.
Defined.

(** ** C9: determinism of [generateTOTPWithT]

    C9: with the collaborators fixed, the result of [generateTOTPWithT]
    does not depend on the world it is called in; in particular a
    second call, made in the world the first one left, gives the result
    of the first.  A call that returns a code leaves the world as it
    found it, so nothing is kept from one call to the next. *)
Theorem generateTOTPWithT_deterministic :
  forall base32Decode subtleHmac secretBase32 T period digits (w1 w2 : World),
    let utils := Utils.generateTOTPWithT base32Decode subtleHmac secretBase32 T period digits in
    let index := Index.generateTOTPWithT base32Decode subtleHmac secretBase32 T period digits in
    (fst (utils w1) = fst (utils w2) /\
     fst (utils (snd (utils w1))) = fst (utils w1) /\
     (forall c w', utils w1 = (Ok c, w') -> w' = w1)) /\
    (fst (index w1) = fst (index w2) /\
     fst (index (snd (index w1))) = fst (index w1) /\
     (forall c w', index w1 = (Ok c, w') -> w' = w1)).
Proof.
  intros base32Decode subtleHmac secretBase32 T period digits w1 w2 utils index.
  subst utils index. split.
  - destruct (utils_generateTOTPWithT_uniform base32Decode subtleHmac
                secretBase32 T period digits) as [[c Hc] | [es Hes]].
    + rewrite !Hc. repeat split. intros c' w' E. congruence.
    + rewrite !Hes. repeat split. intros c' w' E. discriminate.
  - destruct (index_generateTOTPWithT_uniform base32Decode subtleHmac
                secretBase32 T period digits) as [[c Hc] | [es Hes]].
    + rewrite !Hc. repeat split. intros c' w' E. congruence.
    + rewrite !Hes. repeat split. intros c' w' E. discriminate.
Qed.

(** ** C4: the dynamic truncation

    C4: for a MAC that holds the four bytes at its offset, the number
    the code computes (32-bit shifts and ors, the mask, the remainder)
    is the RFC 4226 value: the big-endian 32-bit word at the offset
    given by the low nibble of the last byte, with its high bit
    cleared, modulo [10^digits]; the guard of [utils.ts] lets such a MAC
    pass, and every generator returns the text of that number. *)
Theorem dynamic_truncation_rfc4226 :
  forall base32Decode subtleHmac secretBase32 key mac T period digits w,
    emptyStr secretBase32 = false -> 0 < period -> 0 < digits ->
    base32Decode secretBase32 = Some key ->
    Spec.dtOffset mac + 4 <= JS.len mac ->
    let code := otpString (Spec.dynamicTruncation mac digits) digits in
    truncOffset mac = Spec.dtOffset mac /\
    otpOf (truncLoop mac (truncOffset mac) 4 0 0) digits
      = Spec.dynamicTruncation mac digits /\
    Utils.truncate mac w = (Ok (truncLoop mac (truncOffset mac) 4 0 0), w) /\
    Str.value code = Spec.dynamicTruncation mac digits /\
    (subtleHmac SHA1 key (counterBytes T) = Some mac ->
       Utils.generateTOTPWithT base32Decode subtleHmac secretBase32 T period digits w
       = (Ok code, w)) /\
    (subtleHmac SHA1 key (counterBytes (floorDiv (nowOf w) (period * 1000))) = Some mac ->
       Utils.generateTOTP base32Decode subtleHmac secretBase32 period digits w
       = (Ok code, tick w)) /\
    (subtleHmac SHA256 key (counterBytes T) = Some mac ->
       Index.generateTOTPWithT base32Decode subtleHmac secretBase32 T period digits w
       = (Ok code, w)) /\
    (subtleHmac SHA256 key (counterBytes (floorDiv (nowOf w) (period * 1000))) = Some mac ->
       Index.generateTOTP base32Decode subtleHmac secretBase32 period digits w
       = (Ok code, tick w)).
Proof.
  intros base32Decode subtleHmac secretBase32 key mac T period digits w
         Hs Hp Hd Hk Hl code.
  pose proof (dtOffset_truncOffset mac Hl) as Hoff.
  assert (Hl' : truncOffset mac + 4 <= JS.len mac) by (rewrite Hoff; exact Hl).
  pose proof (otp_dynamicTruncation mac digits ltac:(lia) Hl') as Hotp.
  split; [exact Hoff |].
  split; [exact Hotp |].
  split.
  { unfold Utils.truncate.
    destruct (Z.ltb_spec (truncOffset mac + 3) (JS.len mac)); [reflexivity | lia]. }
  split.
  { apply otpString_format; [lia | apply dynamicTruncation_range; lia]. }
  split; [intros Hm; apply (utils_generateTOTPWithT_ok _ _ _ key mac); assumption |].
  split; [intros Hm; apply (utils_generateTOTP_ok _ _ _ key mac); assumption |].
  split; intros Hm.
  - rewrite (index_generateTOTPWithT_run _ _ _ key mac) by assumption.
    rewrite Hotp. reflexivity.
  - rewrite (index_generateTOTP_run _ _ _ key mac) by assumption.
    rewrite Hotp. reflexivity.
Qed.

Lemma dynamic_truncation_rfc4226_witness :
  let mac := [Byte.x00; Byte.x00; Byte.x00; Byte.x7b] ++ replicate 16 Byte.x00 in
  Spec.dtOffset mac + 4 <= JS.len mac /\
  Spec.dynamicTruncation mac 6 = 123 /\
  Utils.generateTOTPWithT Stub.decode Stub.hmac "K" 123 30 6 Stub.world
  = (Ok "000123"%string, Stub.world).
Proof.
  intros mac.
  assert (Hl : Spec.dtOffset mac + 4 <= JS.len mac) by (vm_compute; discriminate).
  split; [exact Hl |].
  split; [reflexivity |].
  destruct (dynamic_truncation_rfc4226 Stub.decode Stub.hmac "K"
              (list_byte_of_string "K") mac 123 30 6 Stub.world
              eq_refl ltac:(lia) ltac:(lia) eq_refl Hl)
    as (_ & _ & _ & _ & Hutils & _).
  exact (Hutils eq_refl).
Defined.

(** ** C5: the format of a code

    C5: for a valid secret, a positive period and [digits = d > 0],
    [generateTOTPWithT] and [generateTOTP] of either file return a
    string of exactly [d] characters, all decimal digits, which is the
    decimal text of a number below [10^d] padded on the left with
    ['0']. *)
Theorem code_format :
  forall base32Decode subtleHmac secretBase32 T period digits w,
    0 < period -> 0 < digits ->
    (validSecret base32Decode subtleHmac SHA1 secretBase32 ->
       (exists code,
           Utils.generateTOTPWithT base32Decode subtleHmac secretBase32 T period digits w
           = (Ok code, w) /\ Spec.isCode digits code) /\
       (exists code,
           Utils.generateTOTP base32Decode subtleHmac secretBase32 period digits w
           = (Ok code, tick w) /\ Spec.isCode digits code)) /\
    (validSecret base32Decode subtleHmac SHA256 secretBase32 ->
       (exists code,
           Index.generateTOTPWithT base32Decode subtleHmac secretBase32 T period digits w
           = (Ok code, w) /\ Spec.isCode digits code) /\
       (exists code,
           Index.generateTOTP base32Decode subtleHmac secretBase32 period digits w
           = (Ok code, tick w) /\ Spec.isCode digits code)).
Proof.
  intros base32Decode subtleHmac secretBase32 T period digits w Hp Hd.
  split; intros (Hs & key & Hk & Hmac).
  - split.
    + destruct (Hmac (counterBytes T)) as (mac & Hm & Hl).
      pose proof (truncOffset_range mac). simpl in Hl.
      eexists. split.
      * apply (utils_generateTOTPWithT_ok _ _ _ key mac); try assumption. lia.
      * apply otpString_isCode; [lia | apply dynamicTruncation_range; lia].
    + destruct (Hmac (counterBytes (floorDiv (nowOf w) (period * 1000))))
        as (mac & Hm & Hl).
      pose proof (truncOffset_range mac). simpl in Hl.
      eexists. split.
      * apply (utils_generateTOTP_ok _ _ _ key mac); try assumption. lia.
      * apply otpString_isCode; [lia | apply dynamicTruncation_range; lia].
  - split.
    + destruct (Hmac (counterBytes T)) as (mac & Hm & Hl).
      eexists. split.
      * apply (index_generateTOTPWithT_run _ _ _ key mac); assumption.
      * apply otpString_isCode; [lia | apply otpOf_range; lia].
    + destruct (Hmac (counterBytes (floorDiv (nowOf w) (period * 1000))))
        as (mac & Hm & Hl).
      eexists. split.
      * apply (index_generateTOTP_run _ _ _ key mac); assumption.
      * apply otpString_isCode; [lia | apply otpOf_range; lia].
Qed.

Lemma code_format_witness :
  0 < 30 /\ 0 < 6 /\
  validSecret Stub.decode Stub.hmac SHA1 "K" /\
  exists code,
    Utils.generateTOTP Stub.decode Stub.hmac "K" 30 6 Stub.world
    = (Ok code, tick Stub.world) /\ Spec.isCode 6 code.
Proof.
  split; [lia |]. split; [lia |]. split; [apply stub_valid |].
  destruct (code_format Stub.decode Stub.hmac "K" 123 30 6 Stub.world
              ltac:(lia) ltac:(lia)) as (Hutils & _).
  exact (proj2 (Hutils (stub_valid SHA1))).
Defined.

(** ** [verifyTOTP]: the try block and the handler *)

Section VerifyFacts.

Variable base32Decode : string -> option (list byte).
Variable subtleHmac : HashAlg -> list byte -> list byte -> option (list byte).

Lemma utils_verifyTOTP_handler s u p d win w :
  (exists b w', Utils.verifyTOTP base32Decode subtleHmac s u p d win w = (Ok b, w')) /\
  (forall e w',
      Utils.verifyTOTP_try base32Decode subtleHmac s u p d win w = (Throw e, w') ->
      Utils.verifyTOTP base32Decode subtleHmac s u p d win w
      = (Ok false, logged "Error verifying TOTP:" e w')) /\
  (forall b w',
      Utils.verifyTOTP_try base32Decode subtleHmac s u p d win w = (Ok b, w') ->
      Utils.verifyTOTP base32Decode subtleHmac s u p d win w = (Ok b, w')).
Proof.
  unfold Utils.verifyTOTP, try_catch. checks.
  destruct (Utils.verifyTOTP_try base32Decode subtleHmac s u p d win w)
    as [[b|e] w1]; run.
  - split; [eauto |]. split; [discriminate | congruence].
  - split; [eauto |]. split; [| discriminate].
    intros e' w' E. inversion E; subst. reflexivity.
Qed.

Lemma index_verifyTOTP_handler s u p d win w :
  (exists b w', Index.verifyTOTP base32Decode subtleHmac s u p d win w = (Ok b, w')) /\
  (forall e w',
      Index.verifyTOTP_try base32Decode subtleHmac s u p d win w = (Throw e, w') ->
      Index.verifyTOTP base32Decode subtleHmac s u p d win w
      = (Ok false, logged "Error verifying TOTP:" e w')) /\
  (forall b w',
      Index.verifyTOTP_try base32Decode subtleHmac s u p d win w = (Ok b, w') ->
      Index.verifyTOTP base32Decode subtleHmac s u p d win w = (Ok b, w')).
Proof.
  unfold Index.verifyTOTP, try_catch. checks.
  destruct (Index.verifyTOTP_try base32Decode subtleHmac s u p d win w)
    as [[b|e] w1]; run.
  - split; [eauto |]. split; [discriminate | congruence].
  - split; [eauto |]. split; [| discriminate].
    intros e' w' E. inversion E; subst. reflexivity.
Qed.

(** The try block answers [true] only for a code of the window. *)
Lemma utils_try_true_sound s u p d win w w' :
  Utils.verifyTOTP_try base32Decode subtleHmac s u p d win w = (Ok true, w') ->
  exists t w1, - win <= t <= win /\
    fst (Utils.generateTOTPWithT base32Decode subtleHmac s
           (floorDiv (nowOf w) (p * 1000) + t) p d w1) = Ok u.
Proof.
  unfold Utils.verifyTOTP_try. checks.
  destruct (emptyStr s); [run; discriminate |].
  destruct (p <=? 0); [run; discriminate |].
  destruct (d <=? 0); [run; discriminate |].
  destruct (emptyStr u); [run; discriminate |].
  unfold bind, Date_now. intros Hrun.
  apply (loop_true_sound
           (fun T => Utils.generateTOTPWithT base32Decode subtleHmac s T p d)
           (fun t => floorDiv (nowOf w) (p * 1000) + t) u win
           (Utils.verifyLoop base32Decode subtleHmac s u p d win
              (floorDiv (nowOf w) (p * 1000)))
           (utils_verifyLoop_unfold base32Decode subtleHmac s u p d win _)
           _ (- win) (tick w) w' eq_refl Hrun).
Qed.

Lemma index_try_true_sound s u p d win w w' :
  Index.verifyTOTP_try base32Decode subtleHmac s u p d win w = (Ok true, w') ->
  exists t w1, - win <= t <= win /\
    fst (Index.generateTOTPWithT base32Decode subtleHmac s
           (Index.windowStep (nowOf w) p t) p d w1) = Ok u.
Proof.
  unfold Index.verifyTOTP_try. checks.
  destruct (emptyStr s); [run; discriminate |].
  destruct (emptyStr u); [run; discriminate |].
  unfold bind, Date_now. intros Hrun.
  apply (loop_true_sound
           (fun T => Index.generateTOTPWithT base32Decode subtleHmac s T p d)
           (Index.windowStep (nowOf w) p) u win
           (Index.verifyLoop base32Decode subtleHmac s u p d win (nowOf w))
           (index_verifyLoop_unfold base32Decode subtleHmac s u p d win _)
           _ (- win) (tick w) w' eq_refl Hrun).
Qed.

(** On valid arguments the try block reads the clock once, runs the
    loop in a world nothing else changes, and answers [true] exactly
    for a code of the window. *)
Lemma utils_try_valid s u p d win w :
  validSecret base32Decode subtleHmac SHA1 s ->
  emptyStr u = false -> 0 < p -> 0 < d ->
  exists b,
    Utils.verifyTOTP_try base32Decode subtleHmac s u p d win w = (Ok b, tick w) /\
    (b = true <->
     exists t, - win <= t <= win /\
       forall w1, Utils.generateTOTPWithT base32Decode subtleHmac s
                    (floorDiv (nowOf w) (p * 1000) + t) p d w1 = (Ok u, w1)).
Proof.
  intros Hv Hu Hp Hd. unfold Utils.verifyTOTP_try. checks.
  destruct Hv as (Hs & Hrest). rewrite Hs, Hu.
  destruct (Z.leb_spec p 0); [lia |].
  destruct (Z.leb_spec d 0); [lia |].
  unfold bind, Date_now.
  apply (loop_pure
           (fun T => Utils.generateTOTPWithT base32Decode subtleHmac s T p d)
           (fun t => floorDiv (nowOf w) (p * 1000) + t) u win
           (Utils.verifyLoop base32Decode subtleHmac s u p d win
              (floorDiv (nowOf w) (p * 1000)))
           (utils_verifyLoop_unfold base32Decode subtleHmac s u p d win _)
           (utils_valid_pure base32Decode subtleHmac s p d (conj Hs Hrest) Hp Hd)
           _ (- win) (tick w) eq_refl).
Qed.

Lemma index_try_valid s u p d win w :
  validSecret base32Decode subtleHmac SHA256 s ->
  emptyStr u = false -> 0 < p ->
  exists b,
    Index.verifyTOTP_try base32Decode subtleHmac s u p d win w = (Ok b, tick w) /\
    (b = true <->
     exists t, - win <= t <= win /\
       forall w1, Index.generateTOTPWithT base32Decode subtleHmac s
                    (floorDiv (nowOf w) (p * 1000) + t) p d w1 = (Ok u, w1)).
Proof.
  intros Hv Hu Hp. unfold Index.verifyTOTP_try. checks.
  destruct Hv as (Hs & Hrest). rewrite Hs, Hu.
  unfold bind, Date_now.
  destruct (loop_pure
           (fun T => Index.generateTOTPWithT base32Decode subtleHmac s T p d)
           (Index.windowStep (nowOf w) p) u win
           (Index.verifyLoop base32Decode subtleHmac s u p d win (nowOf w))
           (index_verifyLoop_unfold base32Decode subtleHmac s u p d win _)
           (index_valid_pure base32Decode subtleHmac s p d (conj Hs Hrest))
           _ (- win) (tick w) eq_refl) as (b & Hb & Hiff).
  exists b. split; [exact Hb |].
  rewrite Hiff. split; intros (t & Ht & Hg); exists t; (split; [exact Ht |]);
    intros w1; specialize (Hg w1);
    rewrite index_windowStep_exact in * by lia; exact Hg.
Qed.

End VerifyFacts.

(** ** The window loop with a binary64 counter

    Where the counter has stopped advancing ([t + 1] is [t]) and the
    code of the one step it still examines is not the candidate, the
    loop of [utils.ts] does not return, whatever the fuel. *)

Lemma utils64_loop_stuck base32Decode subtleHmac s u p d window currentT t c :
  PrimFloat.leb t window = true ->
  (t + 1)%float = t ->
  (forall w, Utils64.generateTOTPWithT base32Decode subtleHmac s
               (currentT + t)%float p d w = (Ok c, w)) ->
  (c =? u)%string = false ->
  forall fuel w,
    Utils64.verifyLoop base32Decode subtleHmac fuel s u p d window currentT t w
    = (Ok None, w).
Proof.
  intros Hle Hstuck Hgen Hne fuel.
  induction fuel as [|fuel IH]; intros w; cbn [Utils64.verifyLoop].
  - reflexivity.
  - rewrite Hle. unfold bind. rewrite Hgen, Hne, Hstuck. apply IH.
Qed.

(** With the window 2^54 the counter starts at -2^54, where it is
    stuck; the step examined is 124 - 2^54, the binary64 sum of the
    current step 123 and the counter, and its code is ["000124"]. *)
Lemma utils64_huge_window_run fuel u :
  ("000124" =? u)%string = false ->
  emptyStr u = false ->
  Utils64.verifyTOTP Stub.decode Stub.hmac fuel "K" u 30 6 0x1p54 Stub.world
  = (Ok None, tick Stub.world).
Proof.
  intros Hne Hu.
  unfold Utils64.verifyTOTP, Utils64.verifyTOTP_try, try_catch. checks.
  rewrite Hu.
  change (emptyStr "K") with false. change (PrimFloat.leb 30 0) with false.
  change (6 <=? 0) with false. cbv iota.
  unfold bind, Date_now.
  rewrite (utils64_loop_stuck Stub.decode Stub.hmac "K" u 30 6 0x1p54
             (Float64.currentStep (Float64.ofZ (nowOf Stub.world)) 30)
             (- 0x1p54)%float "000124").
  - reflexivity.
  - vm_compute. reflexivity.
  - vm_compute. reflexivity.
  - intros w. vm_compute. reflexivity.
  - exact Hne.
Qed.

(** The cases of [totp.test.ts] for the window, replayed on the
    binary64 loops, and the two loops at a period that is no integer:
    at 1 700 000 003 002 ms with a period of 1.0001 s the current step
    is 1 699 830 020; [utils.ts] accepts the code of the step before
    it, [index.ts] does not, and accepts the code of the step
    1 699 830 018 instead. *)
Example test_verify64_window_1 :
  fst (Utils64.verifyTOTP Stub.decode Stub.hmac 3 "K" "000124" 30 6 1 Stub.world)
  = Ok (Some true) /\
  fst (Utils64.verifyTOTP Stub.decode Stub.hmac 4 "K" "000125" 30 6 1 Stub.world)
  = Ok (Some false) /\
  fst (Index64.verifyTOTP Stub.decode Stub.hmac 3 "K" "000124" 30 6 1 Stub.world)
  = Ok (Some true) /\
  fst (Index64.verifyTOTP Stub.decode Stub.hmac 4 "K" "000125" 30 6 1 Stub.world)
  = Ok (Some false).
Proof. repeat split; vm_compute; reflexivity. Qed.

Example test_verify64_fractional_period :
  let w := mkWorld (fun _ => 1700000003002) 0 [] in
  let period := 0x1.00068db8bac71p+0%float in
  fst (Utils64.verifyTOTP Stub.decode Stub.hmac 4 "K" "830019" period 6 1 w)
  = Ok (Some true) /\
  fst (Index64.verifyTOTP Stub.decode Stub.hmac 4 "K" "830019" period 6 1 w)
  = Ok (Some false) /\
  fst (Index64.verifyTOTP Stub.decode Stub.hmac 4 "K" "830018" period 6 1 w)
  = Ok (Some true).
Proof. repeat split; vm_compute; reflexivity. Qed.

(** ** C3: the verification window

    C3, as stated, fails for a window of 2^53 or more, where the
    counter of the loop stops advancing
    ([verify_window_huge_window_misses_match]).  Amended: for a valid
    secret, a non-empty candidate, positive integers [period] and
    [digits] and an integer window [window >= 0] with
    [now + window * period * 1000 < 2^53], [verifyTOTP] of either file
    reads the clock once ([tick]), changes nothing else, and returns
    [true] exactly when one of the [2 * window + 1] offsets [t] from
    [-window] to [window] is such that [generateTOTPWithT] at the step
    [currentT + t] returns the candidate, compared as strings.  (What
    [index.ts] does for a period that is no integer is the subject of
    C8.) *)
Theorem verify_window :
  forall base32Decode subtleHmac secretBase32 userInput period digits window w,
    emptyStr userInput = false -> 0 < digits ->
    exactWindow (nowOf w) period window ->
    let currentT := floorDiv (nowOf w) (period * 1000) in
    length (Spec.offsets window) = Z.to_nat (2 * window + 1) /\
    (validSecret base32Decode subtleHmac SHA1 secretBase32 ->
       exists b,
         Utils.verifyTOTP base32Decode subtleHmac secretBase32 userInput
           period digits window w = (Ok b, tick w) /\
         (b = true <->
          exists t, In t (Spec.offsets window) /\
            forall w1,
              Utils.generateTOTPWithT base32Decode subtleHmac secretBase32
                (currentT + t) period digits w1 = (Ok userInput, w1))) /\
    (validSecret base32Decode subtleHmac SHA256 secretBase32 ->
       exists b,
         Index.verifyTOTP base32Decode subtleHmac secretBase32 userInput
           period digits window w = (Ok b, tick w) /\
         (b = true <->
          exists t, In t (Spec.offsets window) /\
            forall w1,
              Index.generateTOTPWithT base32Decode subtleHmac secretBase32
                (currentT + t) period digits w1 = (Ok userInput, w1))).
Proof.
  intros base32Decode subtleHmac secretBase32 userInput period digits window w
         Hu Hd (_ & Hp & Hw & _) currentT.
  split; [apply offsets_length |].
  split; intros Hv.
  - destruct (utils_try_valid base32Decode subtleHmac secretBase32 userInput
                period digits window w Hv Hu Hp Hd) as (b & Hb & Hiff).
    exists b. split.
    + apply (utils_verifyTOTP_handler base32Decode subtleHmac), Hb.
    + rewrite Hiff. split; intros (t & Ht & Hg); exists t;
        (split; [apply offsets_In; apply Ht || exact Ht | exact Hg]).
  - destruct (index_try_valid base32Decode subtleHmac secretBase32 userInput
                period digits window w Hv Hu Hp) as (b & Hb & Hiff).
    exists b. split.
    + apply (index_verifyTOTP_handler base32Decode subtleHmac), Hb.
    + rewrite Hiff. split; intros (t & Ht & Hg); exists t;
        (split; [apply offsets_In; apply Ht || exact Ht | exact Hg]).
Qed.

Lemma verify_window_witness :
  validSecret Stub.decode Stub.hmac SHA1 "K" /\
  emptyStr "000124" = false /\ 0 < 6 /\
  exactWindow (nowOf Stub.world) 30 1 /\
  Utils.verifyTOTP Stub.decode Stub.hmac "K" "000124" 30 6 1 Stub.world
  = (Ok true, tick Stub.world).
Proof.
  assert (E : exactWindow (nowOf Stub.world) 30 1)
    by (vm_compute; repeat split; discriminate).
  split; [apply stub_valid |]. split; [reflexivity |].
  split; [lia |]. split; [exact E |].
  destruct (verify_window Stub.decode Stub.hmac "K" "000124" 30 6 1 Stub.world
              eq_refl ltac:(lia) E) as (_ & Hutils & _).
  destruct (Hutils (stub_valid SHA1)) as (b & Hb & Hiff).
  rewrite Hb. f_equal. f_equal. apply Hiff.
  exists 1. split; [right; right; left; reflexivity |].
  intros w1. reflexivity.
Defined.

(** C3 as stated, at the window 2^54 (on the binary64 loop of
    [utils.ts]): the secret is valid, the offset 0 lies in the window
    and the code of the current step 123 is the candidate ["000123"],
    yet [verifyTOTP] does not return [true] - it does not return. *)
Lemma verify_window_huge_window_misses_match :
  validSecret Stub.decode Stub.hmac SHA1 "K" /\
  (PrimFloat.leb (- 0x1p54) 0 && PrimFloat.leb 0 0x1p54 = true) /\
  (forall w,
     Utils64.generateTOTPWithT Stub.decode Stub.hmac "K"
       (Float64.currentStep (Float64.ofZ (nowOf Stub.world)) 30 + 0)%float 30 6 w
     = (Ok "000123"%string, w)) /\
  ~ (exists fuel,
       fst (Utils64.verifyTOTP Stub.decode Stub.hmac fuel "K" "000123" 30 6
              0x1p54 Stub.world) = Ok (Some true)).
Proof.
  split; [apply stub_valid |].
  split; [vm_compute; reflexivity |].
  split; [intros w; vm_compute; reflexivity |].
  intros (fuel & H).
  rewrite utils64_huge_window_run in H by reflexivity.
  discriminate.
Qed.

(** ** C1: [verifyTOTP] returns a boolean

    C1, as stated, fails for a window of 2^53 or more: with no matching
    code the loop never ends and [verifyTOTP] returns nothing
    ([verifyTOTP_huge_window_never_returns]).  Amended: for integer
    arguments with [window < 2^53] and in every world, [verifyTOTP] of
    either file returns [Ok] of a boolean, never [Throw]: whatever the
    try block throws (an argument check, the decoder, the HMAC, the
    truncation) is logged and answered with [false]; [false] is also
    the answer when no offset of the window produces the candidate
    (stated where the integer steps are the steps of the code); an
    empty secret, an empty candidate, a secret the decoder rejects and
    a key the HMAC rejects each give [false], and so does a candidate
    with a character that is no decimal digit (in [index.ts] for
    [digits >= 0], where the codes are decimal). *)
Theorem verifyTOTP_never_throws :
  forall base32Decode subtleHmac secretBase32 userInput period digits window w,
    window < 2 ^ 53 ->
    let utils := Utils.verifyTOTP base32Decode subtleHmac secretBase32 userInput
                   period digits window in
    let index := Index.verifyTOTP base32Decode subtleHmac secretBase32 userInput
                   period digits window in
    ((exists b w', utils w = (Ok b, w')) /\
     (forall e w',
         Utils.verifyTOTP_try base32Decode subtleHmac secretBase32 userInput
           period digits window w = (Throw e, w') ->
         utils w = (Ok false, logged "Error verifying TOTP:" e w')) /\
     (exactWindow (nowOf w) period window ->
      (forall t w1, - window <= t <= window ->
          fst (Utils.generateTOTPWithT base32Decode subtleHmac secretBase32
                 (floorDiv (nowOf w) (period * 1000) + t) period digits w1)
          <> Ok userInput) ->
      fst (utils w) = Ok false) /\
     (emptyStr secretBase32 = true \/ emptyStr userInput = true \/
      Str.allDigits userInput = false \/
      base32Decode secretBase32 = None \/
      (forall key data, subtleHmac SHA1 key data = None) ->
      fst (utils w) = Ok false)) /\
    ((exists b w', index w = (Ok b, w')) /\
     (forall e w',
         Index.verifyTOTP_try base32Decode subtleHmac secretBase32 userInput
           period digits window w = (Throw e, w') ->
         index w = (Ok false, logged "Error verifying TOTP:" e w')) /\
     (exactWindow (nowOf w) period window ->
      (forall t w1, - window <= t <= window ->
          fst (Index.generateTOTPWithT base32Decode subtleHmac secretBase32
                 (floorDiv (nowOf w) (period * 1000) + t) period digits w1)
          <> Ok userInput) ->
      fst (index w) = Ok false) /\
     (emptyStr secretBase32 = true \/ emptyStr userInput = true \/
      (0 <= digits /\ Str.allDigits userInput = false) \/
      base32Decode secretBase32 = None \/
      (forall key data, subtleHmac SHA256 key data = None) ->
      fst (index w) = Ok false)).
Proof.
  intros base32Decode subtleHmac secretBase32 userInput period digits window w
         _ utils index.
  subst utils index.
  assert (U : (forall t w1, - window <= t <= window ->
          fst (Utils.generateTOTPWithT base32Decode subtleHmac secretBase32
                 (floorDiv (nowOf w) (period * 1000) + t) period digits w1)
          <> Ok userInput) ->
      fst (Utils.verifyTOTP base32Decode subtleHmac secretBase32 userInput
             period digits window w) = Ok false).
  { intros Hno.
    destruct (utils_verifyTOTP_handler base32Decode subtleHmac secretBase32
                userInput period digits window w) as (_ & Hthrow & Hok).
    destruct (Utils.verifyTOTP_try base32Decode subtleHmac secretBase32
                userInput period digits window w) as [[[|]|e] w'] eqn:E.
    - destruct (utils_try_true_sound base32Decode subtleHmac _ _ _ _ _ _ _ E)
        as (t & w1 & Ht & Hg).
      exfalso. exact (Hno t w1 Ht Hg).
    - rewrite (Hok _ _ eq_refl). reflexivity.
    - rewrite (Hthrow _ _ eq_refl). reflexivity. }
  assert (I : (forall t w1, - window <= t <= window ->
          fst (Index.generateTOTPWithT base32Decode subtleHmac secretBase32
                 (Index.windowStep (nowOf w) period t) period digits w1)
          <> Ok userInput) ->
      fst (Index.verifyTOTP base32Decode subtleHmac secretBase32 userInput
             period digits window w) = Ok false).
  { intros Hno.
    destruct (index_verifyTOTP_handler base32Decode subtleHmac secretBase32
                userInput period digits window w) as (_ & Hthrow & Hok).
    destruct (Index.verifyTOTP_try base32Decode subtleHmac secretBase32
                userInput period digits window w) as [[[|]|e] w'] eqn:E.
    - destruct (index_try_true_sound base32Decode subtleHmac _ _ _ _ _ _ _ E)
        as (t & w1 & Ht & Hg).
      exfalso. exact (Hno t w1 Ht Hg).
    - rewrite (Hok _ _ eq_refl). reflexivity.
    - rewrite (Hthrow _ _ eq_refl). reflexivity. }
  split.
  - split; [apply utils_verifyTOTP_handler |].
    split; [apply utils_verifyTOTP_handler |].
    split; [intros _; exact U |].
    intros [Hs | [Hu | [Hdig | [Hk | Hm]]]].
    + unfold Utils.verifyTOTP, Utils.verifyTOTP_try, try_catch. checks.
      rewrite Hs. reflexivity.
    + unfold Utils.verifyTOTP, Utils.verifyTOTP_try, try_catch. checks.
      rewrite Hu.
      destruct (emptyStr secretBase32); [reflexivity |].
      destruct (period <=? 0); [reflexivity |].
      destruct (digits <=? 0); reflexivity.
    + apply U. intros t w1 _ Hg.
      apply utils_code_allDigits in Hg. congruence.
    + apply U. intros t w1 _.
      unfold Utils.generateTOTPWithT. checks.
      destruct (emptyStr secretBase32); [run; discriminate |].
      destruct (period <=? 0); [run; discriminate |].
      destruct (digits <=? 0); [run; discriminate |].
      rewrite Hk. run. discriminate.
    + apply U. intros t w1 _.
      unfold Utils.generateTOTPWithT. checks.
      destruct (emptyStr secretBase32); [run; discriminate |].
      destruct (period <=? 0); [run; discriminate |].
      destruct (digits <=? 0); [run; discriminate |].
      destruct (base32Decode secretBase32) as [key|]; [| run; discriminate].
      unfold try_catch, bind, call, ret.
      rewrite utils_codeAtStep_run, Hm. run. discriminate.
  - split; [apply index_verifyTOTP_handler |].
    split; [apply index_verifyTOTP_handler |].
    split.
    { intros (_ & Hp & _) Hno. apply I. intros t w1 Ht.
      rewrite index_windowStep_exact by exact Hp. apply Hno, Ht. }
    intros [Hs | [Hu | [[_ Hdig] | [Hk | Hm]]]].
    + unfold Index.verifyTOTP, Index.verifyTOTP_try, try_catch. checks.
      rewrite Hs. reflexivity.
    + unfold Index.verifyTOTP, Index.verifyTOTP_try, try_catch. checks.
      rewrite Hu.
      destruct (emptyStr secretBase32); reflexivity.
    + apply I. intros t w1 _ Hg.
      apply index_code_allDigits in Hg. congruence.
    + apply I. intros t w1 _.
      unfold Index.generateTOTPWithT. checks.
      destruct (emptyStr secretBase32); [run; discriminate |].
      rewrite Hk. run. discriminate.
    + apply I. intros t w1 _.
      unfold Index.generateTOTPWithT. checks.
      destruct (emptyStr secretBase32); [run; discriminate |].
      destruct (base32Decode secretBase32) as [key|]; [| run; discriminate].
      unfold try_catch, bind, call, ret.
      rewrite index_codeAtStep_run, Hm. run. discriminate.
Qed.

Lemma verifyTOTP_never_throws_witness :
  1 < 2 ^ 53 /\
  (exists b w',
     Utils.verifyTOTP Stub.decode Stub.failingHmac "K" "000123" 30 6 1 Stub.world
     = (Ok b, w')) /\
  fst (Utils.verifyTOTP Stub.decode Stub.failingHmac "K" "000123" 30 6 1 Stub.world)
  = Ok false.
Proof.
  split; [lia |].
  destruct (verifyTOTP_never_throws Stub.decode Stub.failingHmac "K" "000123"
              30 6 1 Stub.world ltac:(lia)) as ((Hb & _ & _ & Hfalse) & _).
  split; [exact Hb |].
  apply Hfalse. right; right; right; right. reflexivity.
Defined.

(** C1 as stated, at the window 2^54 (on the binary64 loop of
    [utils.ts]): with the secret ["K"], the candidate ["000000"], the
    period 30 and 6 digits, no amount of fuel makes [verifyTOTP] return
    a boolean.  The counter starts at -2^54 and [t++] leaves it
    there. *)
Lemma verifyTOTP_huge_window_never_returns :
  ~ (exists fuel b,
       fst (Utils64.verifyTOTP Stub.decode Stub.hmac fuel "K" "000000" 30 6
              0x1p54 Stub.world) = Ok (Some b)).
Proof.
  intros (fuel & b & H).
  rewrite utils64_huge_window_run in H by reflexivity.
  discriminate.
Qed.

(** ** C8: the two window-step expressions

    C8: [currentT + t] and
    [Math.floor((currentTime + t * period * 1000) / (period * 1000))]
    do not always agree.  With a period of 1.0001 seconds (the binary64
    number nearest to it), at the time 1 700 000 003 002 ms, which is
    the step boundary 1 699 830 020, and the offset [-1] of the default
    window, [utils.ts] examines the step 1 699 830 019 and [index.ts]
    the step 1 699 830 018.  ([index_windowStep_exact]: on integers the
    two agree for every positive period.) *)
Theorem window_step_forms_differ :
  exists (currentTime : Z) (period : float) (window t : Z),
    - window <= t <= window /\
    PrimFloat.ltb 0 period = true /\
    Float64.onBoundary (Float64.ofZ currentTime) period = true /\
    Float64.utilsStep (Float64.ofZ currentTime) period (Float64.ofZ t)
      = Float64.ofZ 1699830019 /\
    Float64.indexStep (Float64.ofZ currentTime) period (Float64.ofZ t)
      = Float64.ofZ 1699830018 /\
    PrimFloat.eqb
      (Float64.utilsStep (Float64.ofZ currentTime) period (Float64.ofZ t))
      (Float64.indexStep (Float64.ofZ currentTime) period (Float64.ofZ t))
    = false.
Proof.
  exists 1700000003002, (0x1.00068db8bac71p+0)%float, defaultWindow, (-1).
  split; [unfold defaultWindow; lia |].
  repeat split; vm_compute; reflexivity.
Qed.

(** ** C7: validation in the generators

    [utils.ts] checks the secret, the period and the digits, in that
    order, before anything else, and reports each failure through the
    console and the generic error. *)
Lemma utils_generators_validate :
  forall base32Decode subtleHmac secretBase32 T period digits w,
    let bad e :=
      (Utils.generateTOTPWithT base32Decode subtleHmac secretBase32 T period digits w
       = (Throw FailedToGenerateTOTP,
          logged "Error generating TOTP with specific T:" e w)) /\
      (Utils.generateTOTP base32Decode subtleHmac secretBase32 period digits w
       = (Throw FailedToGenerateTOTP, logged "Error generating TOTP:" e w)) in
    (emptyStr secretBase32 = true -> bad InvalidSecret) /\
    (emptyStr secretBase32 = false -> period <= 0 -> bad InvalidPeriod) /\
    (emptyStr secretBase32 = false -> 0 < period -> digits <= 0 -> bad InvalidDigits) /\
    (emptyStr secretBase32 = false -> 0 < period -> 0 < digits ->
     base32Decode secretBase32 = None -> bad Base32Error).
Proof.
  intros base32Decode subtleHmac secretBase32 T period digits w bad. subst bad.
  unfold Utils.generateTOTPWithT, Utils.generateTOTP. checks.
  split; [intros ->; split; reflexivity |].
  split; [intros -> Hp; destruct (Z.leb_spec period 0); [split; reflexivity | lia] |].
  split.
  - intros -> Hp Hd. destruct (Z.leb_spec period 0); [lia |].
    destruct (Z.leb_spec digits 0); [split; reflexivity | lia].
  - intros -> Hp Hd Hk. destruct (Z.leb_spec period 0); [lia |].
    destruct (Z.leb_spec digits 0); [lia |].
    rewrite Hk. split; reflexivity.
Qed.

Lemma otpString_zero_digits tr : otpString (otpOf tr 0) 0 = "0"%string.
Proof.
  unfold otpOf, JS.rem, JS.pow10. change (10 ^ 0) with 1.
  rewrite Z.rem_1_r. reflexivity.
Qed.

(** C7 asks every generator to reject a [period] that is not positive
    and [digits] that is not a positive integer.  The generators of
    [index.ts] check the secret only: for [digits = 0] and any
    [period], positive or not, they return the text ["0"], where the
    generators of [utils.ts] throw. *)
Theorem index_generators_do_not_validate :
  forall base32Decode subtleHmac secretBase32 key mac mac' T period w,
    emptyStr secretBase32 = false ->
    base32Decode secretBase32 = Some key ->
    subtleHmac SHA256 key (counterBytes T) = Some mac ->
    subtleHmac SHA256 key (counterBytes (floorDiv (nowOf w) (period * 1000))) = Some mac' ->
    Index.generateTOTPWithT base32Decode subtleHmac secretBase32 T period 0 w
    = (Ok "0"%string, w) /\
    Index.generateTOTP base32Decode subtleHmac secretBase32 period 0 w
    = (Ok "0"%string, tick w) /\
    fst (Utils.generateTOTPWithT base32Decode subtleHmac secretBase32 T period 0 w)
    = Throw FailedToGenerateTOTP /\
    fst (Utils.generateTOTP base32Decode subtleHmac secretBase32 period 0 w)
    = Throw FailedToGenerateTOTP.
Proof.
  intros base32Decode subtleHmac secretBase32 key mac mac' T period w Hs Hk Hm Hm'.
  split.
  { rewrite (index_generateTOTPWithT_run _ _ _ key mac) by assumption.
    rewrite otpString_zero_digits. reflexivity. }
  split.
  { rewrite (index_generateTOTP_run _ _ _ key mac') by assumption.
    rewrite otpString_zero_digits. reflexivity. }
  destruct (utils_generators_validate base32Decode subtleHmac secretBase32
              T period 0 w) as (_ & Hperiod & Hdigits & _).
  destruct (Z.le_gt_cases period 0) as [Hp | Hp].
  - destruct (Hperiod Hs Hp) as [-> ->]. split; reflexivity.
  - destruct (Hdigits Hs ltac:(lia) ltac:(lia)) as [-> ->]. split; reflexivity.
Qed.

Lemma index_generators_do_not_validate_witness :
  Index.generateTOTP Stub.decode Stub.hmac "K" (-30) 0 Stub.world
  = (Ok "0"%string, tick Stub.world) /\
  Index.generateTOTPWithT Stub.decode Stub.hmac "K" 123 (-30) 0 Stub.world
  = (Ok "0"%string, Stub.world).
Proof.
  destruct (index_generators_do_not_validate Stub.decode Stub.hmac "K"
              (list_byte_of_string "K") _ _ 123 (-30) Stub.world
              eq_refl eq_refl eq_refl eq_refl) as (HT & Hnow & _).
  split; [exact Hnow | exact HT].
Defined.

(** ** C2: the bound check before the truncation

    [utils.ts] makes the check on every MAC: the truncation throws
    exactly when [offset + 4 > length(mac)], and reads the four bytes
    otherwise. *)
Lemma utils_truncate_checked mac w :
  (JS.len mac < truncOffset mac + 4 ->
   Utils.truncate mac w = (Throw TruncationRange, w)) /\
  (truncOffset mac + 4 <= JS.len mac ->
   Utils.truncate mac w = (Ok (truncLoop mac (truncOffset mac) 4 0 0), w)).
Proof.
  unfold Utils.truncate.
  destruct (Z.ltb_spec (truncOffset mac + 3) (JS.len mac)); split; intros;
    first [reflexivity | lia].
Qed.

(** C2 asks for a truncation-range error whenever
    [offset + 4 > length(mac)], by a check made on every generation.
    [index.ts] has no such check: for a MAC that is too short its
    generators read past the end of the array ([undefined], taken as 0
    by [|]) and return a code, where [utils.ts] throws. *)
Theorem index_truncation_unchecked :
  forall base32Decode subtleHmac secretBase32 key mac T period digits w,
    emptyStr secretBase32 = false -> 0 < period -> 0 < digits ->
    base32Decode secretBase32 = Some key ->
    JS.len mac < truncOffset mac + 4 ->
    (subtleHmac SHA256 key (counterBytes T) = Some mac ->
       exists code,
         Index.generateTOTPWithT base32Decode subtleHmac secretBase32 T period digits w
         = (Ok code, w) /\ Spec.isCode digits code) /\
    (subtleHmac SHA1 key (counterBytes T) = Some mac ->
       Utils.generateTOTPWithT base32Decode subtleHmac secretBase32 T period digits w
       = (Throw FailedToGenerateTOTP,
          logged "Error generating TOTP with specific T:" TruncationRange w)).
Proof.
  intros base32Decode subtleHmac secretBase32 key mac T period digits w
         Hs Hp Hd Hk Hshort.
  split; intros Hm.
  - eexists. split.
    + apply (index_generateTOTPWithT_run _ _ _ key mac); assumption.
    + apply otpString_isCode; [lia | apply otpOf_range; lia].
  - unfold Utils.generateTOTPWithT. rewrite Hs. checks.
    destruct (Z.leb_spec period 0); [lia |].
    destruct (Z.leb_spec digits 0); [lia |].
    rewrite Hk. unfold try_catch, bind, call, ret.
    rewrite utils_codeAtStep_run, Hm.
    destruct (Z.ltb_spec (truncOffset mac + 3) (JS.len mac)); [lia |].
    reflexivity.
Qed.

Lemma index_truncation_unchecked_witness :
  let mac := replicate 15 Byte.x00 ++ [Byte.x0f] in
  JS.len mac < truncOffset mac + 4 /\
  Index.generateTOTPWithT Stub.decode Stub.shortHmac "K" 5 30 6 Stub.world
  = (Ok "658240"%string, Stub.world) /\
  Utils.generateTOTPWithT Stub.decode Stub.shortHmac "K" 5 30 6 Stub.world
  = (Throw FailedToGenerateTOTP,
     logged "Error generating TOTP with specific T:" TruncationRange Stub.world).
Proof.
  intros mac.
  assert (Hshort : JS.len mac < truncOffset mac + 4) by (vm_compute; reflexivity).
  split; [exact Hshort |].
  destruct (index_truncation_unchecked Stub.decode Stub.shortHmac "K"
              (list_byte_of_string "K") mac 5 30 6 Stub.world
              eq_refl ltac:(lia) ltac:(lia) eq_refl Hshort) as (Hindex & Hutils).
  split; [| exact (Hutils eq_refl)].
  destruct (Hindex eq_refl) as (code & Hrun & _).
  rewrite Hrun. f_equal.
  assert (E : fst (Index.generateTOTPWithT Stub.decode Stub.shortHmac "K" 5 30 6
                     Stub.world) = Ok "658240"%string) by reflexivity.
  rewrite Hrun in E. exact E.
Defined.

(** * Round trips, frames, [getKV] and the routes *)

(** ** The counter bytes, read back *)

Lemma counterBytes_value T : beValue (counterBytes T) = T mod 2 ^ 32.
Proof.
  rewrite counterBytes_eq. cbv zeta.
  pose proof (Z.mod_pos_bound T (2 ^ 32) ltac:(lia)) as B.
  set (u := T mod 2 ^ 32) in *.
  unfold beValue. cbn [beValueFrom].
  rewrite !byteVal_toUint8.
  change (JS.byteVal Byte.x00) with 0.
  pose proof (Z.div_mod u 256 ltac:(lia)) as D0.
  pose proof (Z.div_mod (u / 2 ^ 8) 256 ltac:(lia)) as D1.
  pose proof (Z.div_mod (u / 2 ^ 16) 256 ltac:(lia)) as D2.
  assert (E1 : u / 2 ^ 8 / 256 = u / 2 ^ 16)
    by (rewrite Z.div_div by lia; reflexivity).
  assert (E2 : u / 2 ^ 16 / 256 = u / 2 ^ 24)
    by (rewrite Z.div_div by lia; reflexivity).
  assert (E0 : u / 256 = u / 2 ^ 8) by reflexivity.
  assert (H3 : 0 <= u / 2 ^ 24 < 256)
    by (split; [apply Z.div_pos | apply Z.div_lt_upper_bound]; lia).
  rewrite (Z.mod_small (u / 2 ^ 24) 256) by lia.
  lia.
Qed.

(** X1: reading the eight counter bytes back as a big-endian number
    gives the step modulo 2^32, so two steps have the same counter
    bytes exactly when they are congruent modulo 2^32; in particular
    distinct steps below 2^32 never share a counter. *)
Theorem counterBytes_roundtrip (T T1 T2 : Z) :
  beValue (counterBytes T) = T mod 2 ^ 32 /\
  (counterBytes T1 = counterBytes T2 <-> T1 mod 2 ^ 32 = T2 mod 2 ^ 32) /\
  (0 <= T1 < 2 ^ 32 -> 0 <= T2 < 2 ^ 32 -> T1 <> T2 ->
   counterBytes T1 <> counterBytes T2).
Proof.
  split; [apply counterBytes_value |].
  assert (I : counterBytes T1 = counterBytes T2 -> T1 mod 2 ^ 32 = T2 mod 2 ^ 32).
  { intros E. rewrite <- !counterBytes_value, E. reflexivity. }
  split; [split; [exact I | apply counterBytes_congr] |].
  intros H1 H2 Hne E. apply I in E.
  rewrite !Z.mod_small in E by lia. contradiction.
Qed.

(** X2: for a step from 0 to 2^32 - 1 the counter the code builds is
    the unsigned 64-bit big-endian representation of the step. *)
Theorem counterBytes_is_be64_below_2_32 (T : Z) :
  0 <= T < 2 ^ 32 -> counterBytes T = Spec.be64 T.
Proof. apply counterBytes_be64. Qed.

Lemma counterBytes_is_be64_below_2_32_witness :
  0 <= 1700000000 < 2 ^ 32 /\
  counterBytes 1700000000 = Spec.be64 1700000000.
Proof.
  split; [lia |].
  apply (counterBytes_is_be64_below_2_32 1700000000). lia.
Defined.

(** ** The world across a call *)

Lemma appendLog_nil w : appendLog [] w = w.
Proof. destruct w. unfold appendLog. cbn. rewrite app_nil_r. reflexivity. Qed.

Lemma logsOnly_refl w : logsOnly w w.
Proof.
  split; [reflexivity |]. split; [reflexivity |].
  exists []. rewrite app_nil_r. reflexivity.
Qed.

Lemma logsOnly_logged l e w w' : logsOnly w w' -> logsOnly w (logged l e w').
Proof.
  intros (Hc & Hr & es' & He). split; [exact Hc |]. split; [exact Hr |].
  exists (es' ++ [(l, e)]). cbn. rewrite He, app_assoc. reflexivity.
Qed.

Lemma logsOnly_trans w1 w2 w3 : logsOnly w1 w2 -> logsOnly w2 w3 -> logsOnly w1 w3.
Proof.
  intros (Hc & Hr & es & He) (Hc' & Hr' & es' & He').
  split; [congruence |]. split; [congruence |].
  exists (es ++ es'). rewrite He', He, app_assoc. reflexivity.
Qed.

Lemma logsOnly_evolves w w' : logsOnly w w' -> evolves w w'.
Proof. intros (Hc & Hr & He). split; [exact Hc |]. split; [left; exact Hr | exact He]. Qed.

Lemma logsOnly_tick_evolves w w' : logsOnly (tick w) w' -> evolves w w'.
Proof.
  intros (Hc & Hr & He). split; [exact Hc |]. split; [right; exact Hr | exact He].
Qed.

(** A branch that logs once or twice and throws the generic error. *)
Ltac thrown_branch :=
  run; unfold generatorOutcome; cbn [fst snd];
  split;
  [ first
      [ solve [apply logsOnly_evolves;
               repeat apply logsOnly_logged; apply logsOnly_refl]
      | solve [apply logsOnly_tick_evolves;
               repeat apply logsOnly_logged; apply logsOnly_refl] ]
  | split; [reflexivity |];
    unfold logged, appendLog; cbn [console];
    rewrite <- ?app_assoc; eexists _, _; reflexivity ].

(** ** The generators of one file agree, and what they throw *)

Section GeneratorFacts.

Variable base32Decode : string -> option (list byte).
Variable subtleHmac : HashAlg -> list byte -> list byte -> option (list byte).

Lemma utils_generateTOTP_result secretBase32 period digits w :
  fst (Utils.generateTOTP base32Decode subtleHmac secretBase32 period digits w)
  = fst (Utils.generateTOTPWithT base32Decode subtleHmac secretBase32
           (floorDiv (nowOf w) (period * 1000)) period digits w).
Proof.
  unfold Utils.generateTOTP, Utils.generateTOTPWithT. checks.
  destruct (emptyStr secretBase32); [reflexivity |].
  destruct (period <=? 0); [reflexivity |].
  destruct (digits <=? 0); [reflexivity |].
  destruct (base32Decode secretBase32) as [key|]; [| reflexivity].
  unfold try_catch, bind, call, ret, Date_now.
  rewrite !utils_codeAtStep_run.
  destruct (subtleHmac SHA1 key _) as [mac|]; [| reflexivity].
  destruct (truncOffset mac + 3 <? JS.len mac); reflexivity.
Qed.

Lemma index_generateTOTP_result secretBase32 period digits w :
  fst (Index.generateTOTP base32Decode subtleHmac secretBase32 period digits w)
  = fst (Index.generateTOTPWithT base32Decode subtleHmac secretBase32
           (floorDiv (nowOf w) (period * 1000)) period digits w).
Proof.
  unfold Index.generateTOTP, Index.generateTOTPWithT. checks.
  destruct (emptyStr secretBase32); [reflexivity |].
  destruct (base32Decode secretBase32) as [key|]; [| reflexivity].
  unfold try_catch, bind, call, ret, Date_now.
  rewrite !index_codeAtStep_run.
  destruct (subtleHmac SHA256 key _) as [mac|]; reflexivity.
Qed.

Lemma utils_generateTOTPWithT_outcome secretBase32 T period digits w :
  generatorOutcome w
    (Utils.generateTOTPWithT base32Decode subtleHmac secretBase32 T period digits w).
Proof.
  unfold Utils.generateTOTPWithT. checks.
  destruct (emptyStr secretBase32); [thrown_branch |].
  destruct (period <=? 0); [thrown_branch |].
  destruct (digits <=? 0); [thrown_branch |].
  destruct (base32Decode secretBase32) as [key|]; [| thrown_branch].
  unfold try_catch, bind, call, ret. rewrite utils_codeAtStep_run.
  destruct (subtleHmac SHA1 key _) as [mac|]; [| thrown_branch].
  destruct (truncOffset mac + 3 <? JS.len mac); [| thrown_branch].
  split; [apply logsOnly_evolves, logsOnly_refl | reflexivity].
Qed.

Lemma utils_generateTOTP_outcome secretBase32 period digits w :
  generatorOutcome w
    (Utils.generateTOTP base32Decode subtleHmac secretBase32 period digits w).
Proof.
  unfold Utils.generateTOTP. checks.
  destruct (emptyStr secretBase32); [thrown_branch |].
  destruct (period <=? 0); [thrown_branch |].
  destruct (digits <=? 0); [thrown_branch |].
  destruct (base32Decode secretBase32) as [key|]; [| thrown_branch].
  unfold try_catch, bind, call, ret, Date_now. rewrite utils_codeAtStep_run.
  destruct (subtleHmac SHA1 key _) as [mac|]; [| thrown_branch].
  destruct (truncOffset mac + 3 <? JS.len mac); [| thrown_branch].
  split; [apply logsOnly_tick_evolves, logsOnly_refl | reflexivity].
Qed.

Lemma index_generateTOTPWithT_outcome secretBase32 T period digits w :
  generatorOutcome w
    (Index.generateTOTPWithT base32Decode subtleHmac secretBase32 T period digits w).
Proof.
  unfold Index.generateTOTPWithT. checks.
  destruct (emptyStr secretBase32); [thrown_branch |].
  destruct (base32Decode secretBase32) as [key|]; [| thrown_branch].
  unfold try_catch, bind, call, ret. rewrite index_codeAtStep_run.
  destruct (subtleHmac SHA256 key _) as [mac|]; [| thrown_branch].
  split; [apply logsOnly_evolves, logsOnly_refl | reflexivity].
Qed.

Lemma index_generateTOTP_outcome secretBase32 period digits w :
  generatorOutcome w
    (Index.generateTOTP base32Decode subtleHmac secretBase32 period digits w).
Proof.
  unfold Index.generateTOTP. checks.
  destruct (emptyStr secretBase32); [thrown_branch |].
  destruct (base32Decode secretBase32) as [key|]; [| thrown_branch].
  unfold try_catch, bind, call, ret, Date_now. rewrite index_codeAtStep_run.
  destruct (subtleHmac SHA256 key _) as [mac|]; [| thrown_branch].
  split; [apply logsOnly_tick_evolves, logsOnly_refl | reflexivity].
Qed.

(** [generateTOTPWithT] never reads the clock. *)
Lemma utils_generateTOTPWithT_logsOnly secretBase32 T period digits w :
  logsOnly w (snd (Utils.generateTOTPWithT base32Decode subtleHmac
                     secretBase32 T period digits w)).
Proof.
  destruct (utils_generateTOTPWithT_uniform base32Decode subtleHmac
              secretBase32 T period digits) as [[c Hc] | [es Hes]].
  - rewrite Hc. apply logsOnly_refl.
  - rewrite Hes. split; [reflexivity |]. split; [reflexivity |]. exists es. reflexivity.
Qed.

Lemma index_generateTOTPWithT_logsOnly secretBase32 T period digits w :
  logsOnly w (snd (Index.generateTOTPWithT base32Decode subtleHmac
                     secretBase32 T period digits w)).
Proof.
  destruct (index_generateTOTPWithT_uniform base32Decode subtleHmac
              secretBase32 T period digits) as [[c Hc] | [es Hes]].
  - rewrite Hc. apply logsOnly_refl.
  - rewrite Hes. split; [reflexivity |]. split; [reflexivity |]. exists es. reflexivity.
Qed.

End GeneratorFacts.

(** ** The window loop only writes to the console *)

Section WindowLoopFrame.

Variable gen : Z -> M string.
Variable step : Z -> Z.
Variable userInput : string.
Variable window : Z.
Variable loop : Z -> World -> Result bool * World.

Hypothesis loop_unfold : forall t w,
  loop t w =
  if t <=? window then
    match gen (step t) w with
    | (Throw e, w') => (Throw e, w')
    | (Ok totp, w') =>
        if (totp =? userInput)%string then (Ok true, w') else loop (t + 1) w'
    end
  else (Ok false, w).

Hypothesis gen_logsOnly : forall T w, logsOnly w (snd (gen T w)).

Lemma loop_logsOnly : forall n t w,
  Z.to_nat (window + 1 - t) = n -> logsOnly w (snd (loop t w)).
Proof.
  induction n as [|n IH]; intros t w Hn; rewrite loop_unfold.
  - destruct (Z.leb_spec t window); [lia |]. apply logsOnly_refl.
  - destruct (Z.leb_spec t window); [| apply logsOnly_refl].
    pose proof (gen_logsOnly (step t) w) as G.
    destruct (gen (step t) w) as [[totp|e] w1]; cbn [snd] in *; [| exact G].
    destruct (totp =? userInput)%string; [exact G |].
    apply (logsOnly_trans _ w1); [exact G | apply IH; lia].
Qed.

(** Past the end of the window the loop answers [false] at once. *)
Lemma loop_empty t w : window < t -> loop t w = (Ok false, w).
Proof.
  intros H. rewrite loop_unfold. destruct (Z.leb_spec t window); [lia | reflexivity].
Qed.

End WindowLoopFrame.

(** ** [verifyTOTP] and the world *)

Section VerifyFrame.

Variable base32Decode : string -> option (list byte).
Variable subtleHmac : HashAlg -> list byte -> list byte -> option (list byte).

Lemma utils_verifyTOTP_frame s u p d win w :
  let out := Utils.verifyTOTP base32Decode subtleHmac s u p d win w in
  evolves w (snd out) /\
  (utilsChecksPass s u p d = false ->
   out = (Ok false, logged "Error verifying TOTP:"
            (if emptyStr s then InvalidSecret
             else if p <=? 0 then InvalidPeriod
             else if d <=? 0 then InvalidDigits else InvalidOTP) w)) /\
  (utilsChecksPass s u p d = true -> logsOnly (tick w) (snd out)).
Proof.
  cbv zeta. unfold utilsChecksPass, Utils.verifyTOTP, Utils.verifyTOTP_try. checks.
  destruct (emptyStr s);
    [run; cbn [snd negb andb]; repeat split; try discriminate;
     apply logsOnly_evolves, logsOnly_logged, logsOnly_refl |].
  destruct (p <=? 0);
    [run; cbn [snd negb andb]; repeat split; try discriminate;
     apply logsOnly_evolves, logsOnly_logged, logsOnly_refl |].
  destruct (d <=? 0);
    [run; cbn [snd negb andb]; repeat split; try discriminate;
     apply logsOnly_evolves, logsOnly_logged, logsOnly_refl |].
  destruct (emptyStr u);
    [run; cbn [snd negb andb]; repeat split; try discriminate;
     apply logsOnly_evolves, logsOnly_logged, logsOnly_refl |].
  cbn [negb andb]. unfold try_catch, bind, Date_now.
  pose proof (loop_logsOnly
           (fun T => Utils.generateTOTPWithT base32Decode subtleHmac s T p d)
           (fun t => floorDiv (nowOf w) (p * 1000) + t) u win
           (Utils.verifyLoop base32Decode subtleHmac s u p d win
              (floorDiv (nowOf w) (p * 1000)))
           (utils_verifyLoop_unfold base32Decode subtleHmac s u p d win _)
           (fun T w0 => utils_generateTOTPWithT_logsOnly base32Decode subtleHmac s T p d w0)
           _ (- win) (tick w) eq_refl) as L.
  destruct (Utils.verifyLoop base32Decode subtleHmac s u p d win
              (floorDiv (nowOf w) (p * 1000)) (- win) (tick w)) as [[b|e] w1];
    cbn [snd] in *; run; cbn [snd].
  - split; [apply logsOnly_tick_evolves, L |]. split; [discriminate | intros _; exact L].
  - split; [apply logsOnly_tick_evolves, logsOnly_logged, L |].
    split; [discriminate | intros _; apply logsOnly_logged, L].
Qed.

Lemma index_verifyTOTP_frame s u p d win w :
  let out := Index.verifyTOTP base32Decode subtleHmac s u p d win w in
  evolves w (snd out) /\
  (indexChecksPass s u = false ->
   out = (Ok false, logged "Error verifying TOTP:"
            (if emptyStr s then InvalidSecret else InvalidOTP) w)) /\
  (indexChecksPass s u = true -> logsOnly (tick w) (snd out)).
Proof.
  cbv zeta. unfold indexChecksPass, Index.verifyTOTP, Index.verifyTOTP_try. checks.
  destruct (emptyStr s);
    [run; cbn [snd negb andb]; repeat split; try discriminate;
     apply logsOnly_evolves, logsOnly_logged, logsOnly_refl |].
  destruct (emptyStr u);
    [run; cbn [snd negb andb]; repeat split; try discriminate;
     apply logsOnly_evolves, logsOnly_logged, logsOnly_refl |].
  cbn [negb andb]. unfold try_catch, bind, Date_now.
  pose proof (loop_logsOnly
           (fun T => Index.generateTOTPWithT base32Decode subtleHmac s T p d)
           (Index.windowStep (nowOf w) p) u win
           (Index.verifyLoop base32Decode subtleHmac s u p d win (nowOf w))
           (index_verifyLoop_unfold base32Decode subtleHmac s u p d win _)
           (fun T w0 => index_generateTOTPWithT_logsOnly base32Decode subtleHmac s T p d w0)
           _ (- win) (tick w) eq_refl) as L.
  destruct (Index.verifyLoop base32Decode subtleHmac s u p d win
              (nowOf w) (- win) (tick w)) as [[b|e] w1];
    cbn [snd] in *; run; cbn [snd].
  - split; [apply logsOnly_tick_evolves, L |]. split; [discriminate | intros _; exact L].
  - split; [apply logsOnly_tick_evolves, logsOnly_logged, L |].
    split; [discriminate | intros _; apply logsOnly_logged, L].
Qed.

(** A negative window: the loop does not run. *)
Lemma utils_verifyTOTP_negative_window s u p d win w :
  utilsChecksPass s u p d = true -> win < 0 ->
  Utils.verifyTOTP base32Decode subtleHmac s u p d win w = (Ok false, tick w).
Proof.
  unfold utilsChecksPass, Utils.verifyTOTP, Utils.verifyTOTP_try. checks.
  destruct (emptyStr s); [discriminate |].
  destruct (p <=? 0); [discriminate |].
  destruct (d <=? 0); [discriminate |].
  destruct (emptyStr u); [discriminate |].
  intros _ Hw. unfold try_catch, bind, Date_now.
  rewrite (loop_empty
           (fun T => Utils.generateTOTPWithT base32Decode subtleHmac s T p d)
           (fun t => floorDiv (nowOf w) (p * 1000) + t) u win
           (Utils.verifyLoop base32Decode subtleHmac s u p d win
              (floorDiv (nowOf w) (p * 1000)))
           (utils_verifyLoop_unfold base32Decode subtleHmac s u p d win _))
    by lia.
  reflexivity.
Qed.

Lemma index_verifyTOTP_negative_window s u p d win w :
  indexChecksPass s u = true -> win < 0 ->
  Index.verifyTOTP base32Decode subtleHmac s u p d win w = (Ok false, tick w).
Proof.
  unfold indexChecksPass, Index.verifyTOTP, Index.verifyTOTP_try. checks.
  destruct (emptyStr s); [discriminate |].
  destruct (emptyStr u); [discriminate |].
  intros _ Hw. unfold try_catch, bind, Date_now.
  rewrite (loop_empty
           (fun T => Index.generateTOTPWithT base32Decode subtleHmac s T p d)
           (Index.windowStep (nowOf w) p) u win
           (Index.verifyLoop base32Decode subtleHmac s u p d win (nowOf w))
           (index_verifyLoop_unfold base32Decode subtleHmac s u p d win _))
    by lia.
  reflexivity.
Qed.

End VerifyFrame.

(** ** A generated code verifies *)

Lemma emptyStr_false_of_length s : (0 < String.length s)%nat -> emptyStr s = false.
Proof. destruct s; cbn; [lia | reflexivity]. Qed.

Section RoundTrip.

Variable base32Decode : string -> option (list byte).
Variable subtleHmac : HashAlg -> list byte -> list byte -> option (list byte).

Lemma utils_generate_then_verify s p d win w w2 :
  validSecret base32Decode subtleHmac SHA1 s ->
  0 < p -> 0 < d ->
  - win <= floorDiv (nowOf w) (p * 1000) - floorDiv (nowOf w2) (p * 1000) <= win ->
  exists code,
    Utils.generateTOTP base32Decode subtleHmac s p d w = (Ok code, tick w) /\
    Utils.verifyTOTP base32Decode subtleHmac s code p d win w2 = (Ok true, tick w2).
Proof.
  intros Hv Hp Hd Hwin. pose proof Hv as (Hs & key & Hk & Hmac).
  destruct (Hmac (counterBytes (floorDiv (nowOf w) (p * 1000)))) as (mac & Hm & Hl).
  pose proof (truncOffset_range mac) as Hoff. cbn in Hl.
  assert (Hl' : truncOffset mac + 4 <= JS.len mac) by lia.
  exists (otpString (Spec.dynamicTruncation mac d) d). split.
  { apply (utils_generateTOTP_ok _ _ _ key mac); assumption. }
  assert (Hne : emptyStr (otpString (Spec.dynamicTruncation mac d) d) = false).
  { apply emptyStr_false_of_length.
    destruct (otpString_format (Spec.dynamicTruncation mac d) d Hd
                (dynamicTruncation_range mac d ltac:(lia))) as (L & _).
    rewrite L. lia. }
  destruct (utils_try_valid base32Decode subtleHmac s _ p d win w2 Hv Hne Hp Hd)
    as (b & Hb & Hiff).
  destruct (utils_verifyTOTP_handler base32Decode subtleHmac s
              (otpString (Spec.dynamicTruncation mac d) d) p d win w2)
    as (_ & _ & Hok).
  rewrite (Hok _ _ Hb). f_equal. f_equal. apply Hiff.
  exists (floorDiv (nowOf w) (p * 1000) - floorDiv (nowOf w2) (p * 1000)).
  split; [exact Hwin |]. intros w1.
  replace (floorDiv (nowOf w2) (p * 1000) +
           (floorDiv (nowOf w) (p * 1000) - floorDiv (nowOf w2) (p * 1000)))
    with (floorDiv (nowOf w) (p * 1000)) by lia.
  apply (utils_generateTOTPWithT_ok _ _ _ key mac); assumption.
Qed.

Lemma index_generate_then_verify s p d win w w2 :
  validSecret base32Decode subtleHmac SHA256 s ->
  0 < p -> 0 < d ->
  - win <= floorDiv (nowOf w) (p * 1000) - floorDiv (nowOf w2) (p * 1000) <= win ->
  exists code,
    Index.generateTOTP base32Decode subtleHmac s p d w = (Ok code, tick w) /\
    Index.verifyTOTP base32Decode subtleHmac s code p d win w2 = (Ok true, tick w2).
Proof.
  intros Hv Hp Hd Hwin. pose proof Hv as (Hs & key & Hk & Hmac).
  destruct (Hmac (counterBytes (floorDiv (nowOf w) (p * 1000)))) as (mac & Hm & Hl).
  set (code := otpString (otpOf (truncLoop mac (truncOffset mac) 4 0 0) d) d).
  exists code. split.
  { apply (index_generateTOTP_run _ _ _ key mac); assumption. }
  assert (Hne : emptyStr code = false).
  { apply emptyStr_false_of_length.
    destruct (otpString_format (otpOf (truncLoop mac (truncOffset mac) 4 0 0) d) d Hd
                (otpOf_range _ d ltac:(lia))) as (L & _).
    unfold code. rewrite L. lia. }
  destruct (index_try_valid base32Decode subtleHmac s code p d win w2 Hv Hne Hp)
    as (b & Hb & Hiff).
  destruct (index_verifyTOTP_handler base32Decode subtleHmac s code p d win w2)
    as (_ & _ & Hok).
  rewrite (Hok _ _ Hb). f_equal. f_equal. apply Hiff.
  exists (floorDiv (nowOf w) (p * 1000) - floorDiv (nowOf w2) (p * 1000)).
  split; [exact Hwin |]. intros w1.
  replace (floorDiv (nowOf w2) (p * 1000) +
           (floorDiv (nowOf w) (p * 1000) - floorDiv (nowOf w2) (p * 1000)))
    with (floorDiv (nowOf w) (p * 1000)) by lia.
  apply (index_generateTOTPWithT_run _ _ _ key mac); assumption.
Qed.

End RoundTrip.

(** ** Long codes *)

Lemma zeros_add a b : Str.zeros (a + b) = (Str.zeros a ++ Str.zeros b)%string.
Proof. induction a as [|a IH]; cbn; [reflexivity | rewrite IH; reflexivity]. Qed.

Lemma append_assoc (s1 s2 s3 : string) :
  ((s1 ++ s2) ++ s3 = s1 ++ (s2 ++ s3))%string.
Proof. induction s1 as [|c s1 IH]; cbn; [reflexivity | rewrite IH; reflexivity]. Qed.

Lemma masked_range tr : 0 <= JS.band tr 2147483647 < 2 ^ 31.
Proof.
  unfold JS.band. rewrite (toInt32_small 2147483647) by lia.
  change 2147483647 with (Z.ones 31). rewrite Z.land_ones by lia.
  apply Z.mod_pos_bound. lia.
Qed.

Lemma otpOf_ten_digits tr d : 10 <= d -> otpOf tr d = JS.band tr 2147483647.
Proof.
  intros Hd. unfold otpOf, JS.rem, JS.pow10.
  pose proof (masked_range tr) as R.
  assert (10 ^ 10 <= 10 ^ d) by (apply Z.pow_le_mono_r; lia).
  rewrite Z.rem_mod_nonneg by lia. apply Z.mod_small. lia.
Qed.

Lemma otpString_long tr d :
  10 <= d ->
  otpString (otpOf tr d) d
  = (Str.zeros (Z.to_nat (d - 10)) ++ otpString (otpOf tr 10) 10)%string.
Proof.
  intros Hd. rewrite (otpOf_ten_digits tr d Hd), (otpOf_ten_digits tr 10) by lia.
  pose proof (masked_range tr) as R. set (v := JS.band tr 2147483647) in *.
  assert (Rd : 0 <= v < 10 ^ d).
  { assert (10 ^ 10 <= 10 ^ d) by (apply Z.pow_le_mono_r; lia). lia. }
  destruct (otpString_format v d ltac:(lia) Rd) as (_ & _ & _ & ->).
  destruct (otpString_format v 10 ltac:(lia) ltac:(lia)) as (L10 & _ & _ & E10).
  rewrite E10. rewrite E10, StrFacts.length_append, StrFacts.length_zeros in L10.
  rewrite <- append_assoc, <- zeros_add. do 2 f_equal. lia.
Qed.

(** ** The engine: further properties *)

(** X3: for integer arguments, [generateTOTP] returns or throws what
    [generateTOTPWithT] returns or throws at the step
    [floor(Date.now() / (period * 1000))]: in [utils.ts] for every
    period (one that is not positive is rejected by both), in
    [index.ts] for a period other than 0.  ([index.ts] at the period 0
    and the time 0 derives the step [NaN], which [generateTOTP] turns
    into the counter 0 and [generateTOTPWithT] rejects.) *)
Theorem generateTOTP_is_generateTOTPWithT_now :
  forall base32Decode subtleHmac secretBase32 period digits w,
    let T := floorDiv (nowOf w) (period * 1000) in
    fst (Utils.generateTOTP base32Decode subtleHmac secretBase32 period digits w)
    = fst (Utils.generateTOTPWithT base32Decode subtleHmac secretBase32 T period digits w)
    /\
    (period <> 0 ->
     fst (Index.generateTOTP base32Decode subtleHmac secretBase32 period digits w)
     = fst (Index.generateTOTPWithT base32Decode subtleHmac secretBase32 T period digits w)).
Proof.
  intros. split; [apply utils_generateTOTP_result | intros _; apply index_generateTOTP_result].
Qed.

Lemma generateTOTP_is_generateTOTPWithT_now_witness :
  fst (Index.generateTOTP Stub.decode Stub.hmac "K" 30 6 Stub.world)
  = fst (Index.generateTOTPWithT Stub.decode Stub.hmac "K" 123 30 6 Stub.world).
Proof.
  apply (proj2 (generateTOTP_is_generateTOTPWithT_now Stub.decode Stub.hmac
                  "K" 30 6 Stub.world)).
  discriminate.
Defined.

(** X4: for a valid secret, positive integers [period] and [digits],
    a clock reading below 2^53 at generation and a window and a clock
    reading at verification with
    [now + window * period * 1000 < 2^53]: a code that [generateTOTP]
    returns is accepted by [verifyTOTP] of the same file whenever the
    step at verification is at most [window] steps away from the step
    at generation. *)
Theorem generated_code_verifies :
  forall base32Decode subtleHmac secretBase32 period digits window w w2,
    0 < digits -> 0 <= nowOf w < 2 ^ 53 ->
    exactWindow (nowOf w2) period window ->
    - window <= floorDiv (nowOf w) (period * 1000)
                - floorDiv (nowOf w2) (period * 1000) <= window ->
    (validSecret base32Decode subtleHmac SHA1 secretBase32 ->
     exists code,
       Utils.generateTOTP base32Decode subtleHmac secretBase32 period digits w
       = (Ok code, tick w) /\
       Utils.verifyTOTP base32Decode subtleHmac secretBase32 code period digits window w2
       = (Ok true, tick w2)) /\
    (validSecret base32Decode subtleHmac SHA256 secretBase32 ->
     exists code,
       Index.generateTOTP base32Decode subtleHmac secretBase32 period digits w
       = (Ok code, tick w) /\
       Index.verifyTOTP base32Decode subtleHmac secretBase32 code period digits window w2
       = (Ok true, tick w2)).
Proof.
  intros base32Decode subtleHmac secretBase32 period digits window w w2
         Hd _ (_ & Hp & _) Hw.
  split; intros Hv.
  - apply utils_generate_then_verify; assumption.
  - apply index_generate_then_verify; assumption.
Qed.

Lemma generated_code_verifies_witness :
  let later := mkWorld (fun _ => 3730000) 0 [] in
  exactWindow (nowOf later) 30 1 /\
  - 1 <= floorDiv (nowOf Stub.world) (30 * 1000) - floorDiv (nowOf later) (30 * 1000) <= 1 /\
  exists code,
    Index.generateTOTP Stub.decode Stub.hmac "K" 30 6 Stub.world
    = (Ok code, tick Stub.world) /\
    Index.verifyTOTP Stub.decode Stub.hmac "K" code 30 6 1 later
    = (Ok true, tick later).
Proof.
  intros later.
  assert (E : exactWindow (nowOf later) 30 1)
    by (vm_compute; repeat split; discriminate).
  assert (N : 0 <= nowOf Stub.world < 2 ^ 53)
    by (vm_compute; split; [discriminate | reflexivity]).
  assert (H : - 1 <= floorDiv (nowOf Stub.world) (30 * 1000)
                     - floorDiv (nowOf later) (30 * 1000) <= 1)
    by (vm_compute; split; discriminate).
  split; [exact E |]. split; [exact H |].
  exact (proj2 (generated_code_verifies Stub.decode Stub.hmac "K" 30 6 1
                  Stub.world later ltac:(lia) N E H)
               (stub_valid SHA256)).
Defined.

(** X5: the result of [generateTOTP] depends on the time only through
    the step, and on the step only modulo 2^32: two calls whose steps
    are congruent return the same code, or both throw. *)
Theorem same_step_same_code :
  forall base32Decode subtleHmac secretBase32 period digits w1 w2,
    floorDiv (nowOf w1) (period * 1000) mod 2 ^ 32
    = floorDiv (nowOf w2) (period * 1000) mod 2 ^ 32 ->
    fst (Utils.generateTOTP base32Decode subtleHmac secretBase32 period digits w1)
    = fst (Utils.generateTOTP base32Decode subtleHmac secretBase32 period digits w2)
    /\
    fst (Index.generateTOTP base32Decode subtleHmac secretBase32 period digits w1)
    = fst (Index.generateTOTP base32Decode subtleHmac secretBase32 period digits w2).
Proof.
  intros base32Decode subtleHmac secretBase32 period digits w1 w2 H.
  rewrite !utils_generateTOTP_result, !index_generateTOTP_result.
  rewrite (utils_generateTOTPWithT_congr _ _ _ _ _ _ _ w1 H).
  rewrite (index_generateTOTPWithT_congr _ _ _ _ _ _ _ w1 H).
  split.
  - destruct (utils_generateTOTPWithT_uniform base32Decode subtleHmac secretBase32
                (floorDiv (nowOf w2) (period * 1000)) period digits)
      as [[c Hc] | [es Hes]]; [rewrite !Hc | rewrite !Hes]; reflexivity.
  - destruct (index_generateTOTPWithT_uniform base32Decode subtleHmac secretBase32
                (floorDiv (nowOf w2) (period * 1000)) period digits)
      as [[c Hc] | [es Hes]]; [rewrite !Hc | rewrite !Hes]; reflexivity.
Qed.

Lemma same_step_same_code_witness :
  let later := mkWorld (fun _ => 3719999) 5 [] in
  floorDiv (nowOf Stub.world) (30 * 1000) mod 2 ^ 32
  = floorDiv (nowOf later) (30 * 1000) mod 2 ^ 32 /\
  fst (Utils.generateTOTP Stub.decode Stub.hmac "K" 30 6 later) = Ok "000123"%string.
Proof.
  intros later. split; [reflexivity |].
  rewrite <- (proj1 (same_step_same_code Stub.decode Stub.hmac "K" 30 6
                       Stub.world later eq_refl)).
  reflexivity.
Defined.

(** X6: each of the four generators, for all arguments, either returns
    a code and writes nothing to the console, or throws the generic
    error ['Failed to generate TOTP'] after writing at least one
    console line; no other error leaves a generator.
    [generateTOTPWithT] never reads the clock and [generateTOTP] reads
    it at most once. *)
Theorem generators_throw_only_generic_error :
  forall base32Decode subtleHmac secretBase32 T period digits w,
    generatorOutcome w
      (Utils.generateTOTPWithT base32Decode subtleHmac secretBase32 T period digits w) /\
    generatorOutcome w
      (Utils.generateTOTP base32Decode subtleHmac secretBase32 period digits w) /\
    generatorOutcome w
      (Index.generateTOTPWithT base32Decode subtleHmac secretBase32 T period digits w) /\
    generatorOutcome w
      (Index.generateTOTP base32Decode subtleHmac secretBase32 period digits w) /\
    reads (snd (Utils.generateTOTPWithT base32Decode subtleHmac secretBase32
                  T period digits w)) = reads w /\
    reads (snd (Index.generateTOTPWithT base32Decode subtleHmac secretBase32
                  T period digits w)) = reads w.
Proof.
  intros.
  split; [apply utils_generateTOTPWithT_outcome |].
  split; [apply utils_generateTOTP_outcome |].
  split; [apply index_generateTOTPWithT_outcome |].
  split; [apply index_generateTOTP_outcome |].
  split; [apply utils_generateTOTPWithT_logsOnly | apply index_generateTOTPWithT_logsOnly].
Qed.

(** X7: [verifyTOTP] never changes the clock, reads it at most once and
    only appends to the console.  When an argument check fails it
    answers [false] without reading the clock, after one console line
    that names the first check that failed; when the checks pass it
    reads the clock exactly once. *)
Theorem verifyTOTP_world :
  forall base32Decode subtleHmac secretBase32 userInput period digits window w,
    let utils := Utils.verifyTOTP base32Decode subtleHmac secretBase32 userInput
                   period digits window w in
    let index := Index.verifyTOTP base32Decode subtleHmac secretBase32 userInput
                   period digits window w in
    (evolves w (snd utils) /\
     (utilsChecksPass secretBase32 userInput period digits = false ->
      utils = (Ok false, logged "Error verifying TOTP:"
                 (if emptyStr secretBase32 then InvalidSecret
                  else if period <=? 0 then InvalidPeriod
                  else if digits <=? 0 then InvalidDigits else InvalidOTP) w)) /\
     (utilsChecksPass secretBase32 userInput period digits = true ->
      logsOnly (tick w) (snd utils))) /\
    (evolves w (snd index) /\
     (indexChecksPass secretBase32 userInput = false ->
      index = (Ok false, logged "Error verifying TOTP:"
                 (if emptyStr secretBase32 then InvalidSecret else InvalidOTP) w)) /\
     (indexChecksPass secretBase32 userInput = true ->
      logsOnly (tick w) (snd index))).
Proof.
  intros. split; [apply utils_verifyTOTP_frame | apply index_verifyTOTP_frame].
Qed.

(** X8: with a negative window the loop body never runs: when the
    argument checks pass, [verifyTOTP] reads the clock once, logs
    nothing and answers [false] for every candidate, the current code
    included. *)
Theorem negative_window_rejects :
  forall base32Decode subtleHmac secretBase32 userInput period digits window w,
    window < 0 ->
    (utilsChecksPass secretBase32 userInput period digits = true ->
     Utils.verifyTOTP base32Decode subtleHmac secretBase32 userInput
       period digits window w = (Ok false, tick w)) /\
    (indexChecksPass secretBase32 userInput = true ->
     Index.verifyTOTP base32Decode subtleHmac secretBase32 userInput
       period digits window w = (Ok false, tick w)).
Proof.
  intros. split; intros.
  - apply utils_verifyTOTP_negative_window; assumption.
  - apply index_verifyTOTP_negative_window; assumption.
Qed.

Lemma negative_window_rejects_witness :
  -1 < 0 /\
  utilsChecksPass "K" "000123" 30 6 = true /\
  fst (Utils.generateTOTP Stub.decode Stub.hmac "K" 30 6 Stub.world) = Ok "000123"%string /\
  Utils.verifyTOTP Stub.decode Stub.hmac "K" "000123" 30 6 (-1) Stub.world
  = (Ok false, tick Stub.world).
Proof.
  split; [lia |]. split; [reflexivity |]. split; [reflexivity |].
  exact (proj1 (negative_window_rejects Stub.decode Stub.hmac "K" "000123" 30 6 (-1)
                  Stub.world ltac:(lia)) eq_refl).
Defined.

(** X9: the truncation offset always lies between 0 and 15; so the
    guard of [utils.ts] lets every MAC of 19 bytes or more pass (every
    SHA-1 and SHA-256 MAC) and stops every MAC of fewer than 4
    bytes. *)
Theorem truncation_guard_bounds :
  forall (mac : list byte) (w : World),
    0 <= truncOffset mac <= 15 /\
    (19 <= JS.len mac ->
     Utils.truncate mac w = (Ok (truncLoop mac (truncOffset mac) 4 0 0), w)) /\
    (JS.len mac < 4 -> Utils.truncate mac w = (Throw TruncationRange, w)).
Proof.
  intros mac w. pose proof (truncOffset_range mac) as R.
  split; [exact R |]. unfold Utils.truncate.
  split; intros H;
    destruct (Z.ltb_spec (truncOffset mac + 3) (JS.len mac)); first [reflexivity | lia].
Qed.

Lemma ok_pair_inj {A} (a b : A) (w w' : World) :
  (Ok a, w) = (Ok b, w') -> a = b /\ w = w'.
Proof. intros E. injection E as E1 E2. split; assumption. Qed.

(** X10: the number behind a code has at most 31 bits, so more than ten
    digits add nothing: for [digits >= 10] [generateTOTPWithT] returns
    the ten-digit code of the same call preceded by [digits - 10]
    zeros. *)
Theorem long_codes_are_padded :
  forall base32Decode subtleHmac secretBase32 T period digits w,
    10 <= digits ->
    (forall c w',
        Utils.generateTOTPWithT base32Decode subtleHmac secretBase32 T period 10 w
        = (Ok c, w') ->
        Str.value c < 2 ^ 31 /\
        Utils.generateTOTPWithT base32Decode subtleHmac secretBase32 T period digits w
        = (Ok (Str.zeros (Z.to_nat (digits - 10)) ++ c)%string, w')) /\
    (forall c w',
        Index.generateTOTPWithT base32Decode subtleHmac secretBase32 T period 10 w
        = (Ok c, w') ->
        Str.value c < 2 ^ 31 /\
        Index.generateTOTPWithT base32Decode subtleHmac secretBase32 T period digits w
        = (Ok (Str.zeros (Z.to_nat (digits - 10)) ++ c)%string, w')).
Proof.
  intros base32Decode subtleHmac secretBase32 T period digits w Hd.
  assert (V : forall tr, Str.value (otpString (otpOf tr 10) 10) < 2 ^ 31).
  { intros tr.
    destruct (otpString_format (otpOf tr 10) 10 ltac:(lia)
                (otpOf_range tr 10 ltac:(lia))) as (_ & _ & -> & _).
    rewrite otpOf_ten_digits by lia. apply masked_range. }
  split; intros c w'.
  - unfold Utils.generateTOTPWithT. checks.
    destruct (emptyStr secretBase32); [run; discriminate |].
    destruct (period <=? 0); [run; discriminate |].
    change (10 <=? 0) with false. cbv iota.
    destruct (Z.leb_spec digits 0); [lia |].
    destruct (base32Decode secretBase32) as [key|]; [| run; discriminate].
    unfold try_catch, bind, call, ret. rewrite !utils_codeAtStep_run.
    destruct (subtleHmac SHA1 key _) as [mac|]; [| run; discriminate].
    destruct (truncOffset mac + 3 <? JS.len mac); [| run; discriminate].
    intros E. apply ok_pair_inj in E. destruct E as [<- <-].
    split; [apply V |]. rewrite otpString_long by lia. reflexivity.
  - unfold Index.generateTOTPWithT. checks.
    destruct (emptyStr secretBase32); [run; discriminate |].
    destruct (base32Decode secretBase32) as [key|]; [| run; discriminate].
    unfold try_catch, bind, call, ret. rewrite !index_codeAtStep_run.
    destruct (subtleHmac SHA256 key _) as [mac|]; [| run; discriminate].
    intros E. apply ok_pair_inj in E. destruct E as [<- <-].
    split; [apply V |]. rewrite otpString_long by lia. reflexivity.
Qed.

Lemma long_codes_are_padded_witness :
  10 <= 12 /\
  Utils.generateTOTPWithT Stub.decode Stub.hmac "K" 123 30 12 Stub.world
  = (Ok "000000000123"%string, Stub.world).
Proof.
  split; [lia |].
  exact (proj2 (proj1 (long_codes_are_padded Stub.decode Stub.hmac "K" 123 30 12
                         Stub.world ltac:(lia))
                  "0000000123"%string Stub.world eq_refl)).
Defined.

(** ** The length of a code *)

Lemma otpString_length tr digits :
  0 < digits -> String.length (otpString (otpOf tr digits) digits) = Z.to_nat digits.
Proof.
  intros Hd. apply otpString_format; [exact Hd |].
  pose proof (otpOf_nonneg tr digits) as Hn.
  split; [exact Hn |].
  unfold otpOf, JS.rem, JS.pow10.
  pose proof (masked_range tr) as R.
  assert (0 < 10 ^ digits) by (apply Z.pow_pos_nonneg; lia).
  rewrite Z.rem_mod_nonneg by lia. apply Z.mod_pos_bound. lia.
Qed.

Section CodeLength.

Variable base32Decode : string -> option (list byte).
Variable subtleHmac : HashAlg -> list byte -> list byte -> option (list byte).

Lemma utils_code_length secretBase32 T period digits w c :
  fst (Utils.generateTOTPWithT base32Decode subtleHmac secretBase32 T period digits w)
  = Ok c ->
  String.length c = Z.to_nat digits.
Proof.
  unfold Utils.generateTOTPWithT. checks.
  destruct (emptyStr secretBase32); [run; discriminate |].
  destruct (period <=? 0); [run; discriminate |].
  destruct (Z.leb_spec digits 0) as [|Hd]; [run; discriminate |].
  destruct (base32Decode secretBase32) as [key|]; [| run; discriminate].
  unfold try_catch, bind, call, ret. rewrite utils_codeAtStep_run.
  destruct (subtleHmac SHA1 key (counterBytes T)) as [mac|]; [| run; discriminate].
  destruct (truncOffset mac + 3 <? JS.len mac); [| run; discriminate].
  cbn [fst]. intros E. apply Ok_inj in E. subst c.
  apply otpString_length, Hd.
Qed.

Lemma index_code_length secretBase32 T period digits w c :
  0 < digits ->
  fst (Index.generateTOTPWithT base32Decode subtleHmac secretBase32 T period digits w)
  = Ok c ->
  String.length c = Z.to_nat digits.
Proof.
  intros Hd. unfold Index.generateTOTPWithT. checks.
  destruct (emptyStr secretBase32); [run; discriminate |].
  destruct (base32Decode secretBase32) as [key|]; [| run; discriminate].
  unfold try_catch, bind, call, ret. rewrite index_codeAtStep_run.
  destruct (subtleHmac SHA256 key (counterBytes T)) as [mac|]; [| run; discriminate].
  cbn [fst]. intros E. apply Ok_inj in E. subst c.
  apply otpString_length, Hd.
Qed.


Lemma index_verify_true_length s u p d win w w' :
  0 < d ->
  Index.verifyTOTP base32Decode subtleHmac s u p d win w = (Ok true, w') ->
  String.length u = Z.to_nat d.
Proof.
  intros Hd H.
  destruct (index_verifyTOTP_handler base32Decode subtleHmac s u p d win w)
    as (_ & Hthrow & Hok).
  destruct (Index.verifyTOTP_try base32Decode subtleHmac s u p d win w)
    as [[b|e] w1] eqn:T.
  - rewrite (Hok b w1 eq_refl) in H.
    assert (b = true) by congruence. subst b.
    destruct (index_try_true_sound _ _ _ _ _ _ _ _ _ T) as (t & w2 & _ & G).
    exact (index_code_length _ _ _ _ _ _ Hd G).
  - rewrite (Hthrow e w1 eq_refl) in H. discriminate.
Qed.

End CodeLength.



(** ** [getKV] *)

Lemma noNamespace_not_timed_out :
  KV.isTimedOut KV.noNamespace = false.
Proof. reflexivity. Qed.

Lemma timer_is_timed_out : KV.isTimedOut KV.timedOut = true.
Proof. reflexivity. Qed.

Lemma v1_onError_fst key e ls :
  fst (UtilsV1.onError key e ls) =
  if KV.isTimedOut e then KV.Throws e else KV.Returns None.
Proof.
  destruct e as [sy m|]; [| reflexivity].
  unfold UtilsV1.onError, KV.isTimedOut.
  destruct (KV.includes m "timed out"); reflexivity.
Qed.

Lemma v2_onError_fst key e ls :
  fst (UtilsV2.onError key e ls) =
  if KV.isTimedOut e then KV.Throws e else KV.Returns None.
Proof.
  destruct e as [sy m|]; [| reflexivity].
  unfold UtilsV2.onError, KV.isTimedOut.
  destruct (KV.includes m "timed out"); reflexivity.
Qed.

(** The result of the two revisions, in one expression each. *)
Lemma v1_getKV_fst key env :
  fst (UtilsV1.getKV key env) =
  if emptyStr key then KV.Throws KV.invalidKey else
  match env with
  | None => KV.Returns None
  | Some test =>
      match KV.race (test key) with
      | inr result => KV.Returns result
      | inl e => if KV.isTimedOut e then KV.Throws e else KV.Returns None
      end
  end.
Proof.
  unfold UtilsV1.getKV. destruct (emptyStr key); [reflexivity |].
  destruct env as [test|].
  - destruct (KV.race (test key)) as [e|r]; [apply v1_onError_fst | reflexivity].
  - rewrite v1_onError_fst. reflexivity.
Qed.

Lemma v2_getKV_run key env :
  UtilsV2.getKV key env =
  if emptyStr key then (KV.Throws KV.invalidKey, []) else
  match env with
  | None => (KV.Returns (Some KV.fallbackSecret), [KV.WarnFallback])
  | Some test =>
      match KV.race (test key) with
      | inr result => (KV.Returns result, [])
      | inl e =>
          if KV.isTimedOut e then (KV.Throws e, [KV.ErrTimedOut key])
          else (KV.Returns None, [KV.ErrAccessing key e])
      end
  end.
Proof.
  unfold UtilsV2.getKV. destruct (emptyStr key); [reflexivity |].
  destruct env as [test|]; [| reflexivity].
  unfold UtilsV2.readKey.
  destruct (KV.race (test key)) as [e|r]; [| reflexivity].
  destruct (KV.isTimedOut e) eqn:T; [| reflexivity].
  destruct e as [sy m|]; [| discriminate].
  unfold UtilsV2.onError. cbn in T. rewrite T. reflexivity.
Qed.

(** X12: [getKV] throws in exactly two cases, in both revisions: the
    key is empty (the invalid-key error), or the namespace exists and
    the race ends with an [Error] whose message contains "timed out" -
    the timer's own error or a rejection of the read - which is thrown
    on unchanged.  Every other failure is turned into a result. *)
Theorem getKV_throws :
  forall (key : string) (env : KV.Env) (e : KV.Thrown),
    let cause :=
      (emptyStr key = true /\ e = KV.invalidKey) \/
      (emptyStr key = false /\
       exists test, env = Some test /\
         KV.race (test key) = inl e /\ KV.isTimedOut e = true) in
    (fst (UtilsV1.getKV key env) = KV.Throws e <-> cause) /\
    (fst (UtilsV2.getKV key env) = KV.Throws e <-> cause).
Proof.
  intros key env e. cbv zeta.
  rewrite v1_getKV_fst, v2_getKV_run.
  destruct (emptyStr key) eqn:K.
  - cbn [fst]. split; (split; [intros H; left; split; [reflexivity | congruence] |]);
      intros [[_ ->] | [H _]]; (reflexivity || discriminate).
  - destruct env as [test|].
    + destruct (KV.race (test key)) as [e0|r] eqn:R.
      * destruct (KV.isTimedOut e0) eqn:T; cbn [fst];
          (split; (split; [intros H | intros [[H _] | (_ & t & Ht & Hr & Hto)]]));
          try discriminate;
          try (right; split; [reflexivity |]; exists test;
               split; [reflexivity |];
               assert (e0 = e) by congruence; subst e0; split; [exact R | exact T]);
          try (assert (t = test) by congruence; subst t; congruence).
      * cbn [fst]. split; (split; [intros H | intros [[H _] | (_ & t & Ht & Hr & Hto)]]);
          try discriminate;
          try (assert (t = test) by congruence; subst t; congruence).
    + cbn [fst]. split; (split; [intros H | intros [[H _] | (_ & t & Ht & _)]]);
        discriminate.
Qed.

(** X13: Where the secret comes from.  The first revision returns a
    string only when the read of the existing namespace resolved with
    that string; the second does so too, and otherwise returns a string
    only when the namespace is missing: the built-in development
    secret. *)
Theorem getKV_returns_string :
  forall (key : string) (env : KV.Env) (s : string),
    (fst (UtilsV1.getKV key env) = KV.Returns (Some s) <->
       emptyStr key = false /\
       exists test, env = Some test /\ test key = KV.Resolves (Some s)) /\
    (fst (UtilsV2.getKV key env) = KV.Returns (Some s) <->
       emptyStr key = false /\
       ((env = None /\ s = KV.fallbackSecret) \/
        exists test, env = Some test /\ test key = KV.Resolves (Some s))).
Proof.
  intros key env s. rewrite v1_getKV_fst, v2_getKV_run.
  destruct (emptyStr key) eqn:K.
  - cbn [fst]. split; (split; [discriminate | intros [H _]; discriminate]).
  - destruct env as [test|].
    + destruct (test key) as [v|e0|] eqn:R; cbn [KV.race].
      * cbn [fst]. split; split.
        -- intros H. split; [reflexivity |]. exists test. split; [reflexivity | congruence].
        -- intros [_ (t & Ht & Hr)]. congruence.
        -- intros H. split; [reflexivity |]. right. exists test.
           split; [reflexivity | congruence].
        -- intros [_ [[H _] | (t & Ht & Hr)]]; congruence.
      * destruct (KV.isTimedOut e0); cbn [fst]; split; split;
          try discriminate;
          try (intros [_ (t & Ht & Hr)]; congruence);
          try (intros [_ [[H _] | (t & Ht & Hr)]]; congruence).
      * rewrite timer_is_timed_out. cbn [fst]. split; split;
          try discriminate;
          try (intros [_ (t & Ht & Hr)]; congruence);
          try (intros [_ [[H _] | (t & Ht & Hr)]]; congruence).
    + cbn [fst]. split; split.
      * discriminate.
      * intros [_ (t & Ht & _)]. discriminate.
      * intros H. split; [reflexivity |]. left. split; [reflexivity | congruence].
      * intros [_ [[_ ->] | (t & Ht & _)]]; [reflexivity | discriminate].
Qed.

(** X14: The two revisions return or throw the same thing exactly
    when the namespace exists or the key is empty; with a missing
    namespace (and a key) the first returns [null] and the second the
    development secret. *)
Theorem getKV_revisions_agree :
  forall (key : string) (env : KV.Env),
    (fst (UtilsV1.getKV key env) = fst (UtilsV2.getKV key env)
     <-> (emptyStr key = true \/ env <> None)) /\
    (emptyStr key = false ->
     fst (UtilsV1.getKV key None) = KV.Returns None /\
     UtilsV2.getKV key None
     = (KV.Returns (Some KV.fallbackSecret), [KV.WarnFallback])).
Proof.
  intros key env. split.
  - rewrite v1_getKV_fst, v2_getKV_run.
    destruct (emptyStr key) eqn:K.
    + split; [left; reflexivity | reflexivity].
    + destruct env as [test|].
      * split; [right; discriminate | intros _].
        destruct (KV.race (test key)) as [e|r]; [| reflexivity].
        destruct (KV.isTimedOut e); reflexivity.
      * cbn [fst]. split; [discriminate | intros [H | H]; [discriminate | congruence]].
  - intros K. rewrite v1_getKV_fst, v2_getKV_run, K. split; reflexivity.
Qed.

Lemma getKV_revisions_agree_witness :
  fst (UtilsV1.getKV "totp-demo" None) = KV.Returns None /\
  UtilsV2.getKV "totp-demo" None
  = (KV.Returns (Some KV.fallbackSecret), [KV.WarnFallback]).
Proof.
  apply (proj2 (getKV_revisions_agree "totp-demo" None)). reflexivity.
Defined.

(** X15: What the second revision writes: at most one line, and never
    the lines of its outer handler.  A missing namespace is warned
    about, a time-out and any other failure of the read are reported
    once, a successful read writes nothing.  The only error that
    reaches the outer [catch] has a message containing "timed out", for
    which that handler logs nothing. *)
Theorem getKV_console :
  forall (key : string) (env : KV.Env),
    let out := UtilsV2.getKV key env in
    (length (snd out) <= 1)%nat /\
    (forall l, In l (snd out) ->
       (l = KV.WarnFallback /\ env = None) \/
       (l = KV.ErrTimedOut key /\ exists e, fst out = KV.Throws e) \/
       (exists e, l = KV.ErrAccessing key e /\ fst out = KV.Returns None)) /\
    (forall v, fst out = KV.Returns (Some v) -> env <> None -> snd out = []).
Proof.
  intros key env. cbv zeta. rewrite v2_getKV_run.
  destruct (emptyStr key).
  { cbn. split; [lia |]. split; [intros l [] | reflexivity]. }
  destruct env as [test|].
  - destruct (KV.race (test key)) as [e|r].
    + destruct (KV.isTimedOut e); cbn [fst snd length In].
      * split; [lia |]. split; [| discriminate].
        intros l [<- | []]. right; left. split; [reflexivity | exists e; reflexivity].
      * split; [lia |]. split; [| discriminate].
        intros l [<- | []]. right; right. exists e. split; reflexivity.
    + cbn. split; [lia |]. split; [intros l [] | reflexivity].
  - cbn [fst snd length In]. split; [lia |]. split.
    + intros l [<- | []]. left. split; reflexivity.
    + intros v _ H. congruence.
Qed.

(** ** The routes *)

Lemma sixDigits_nonempty s : Http.sixDigits s = true -> emptyStr s = false.
Proof.
  unfold Http.sixDigits. destruct s; [discriminate | reflexivity].
Qed.

Lemma sixDigits_of_code c :
  String.length c = 6%nat -> Str.allDigits c = true -> Http.sixDigits c = true.
Proof.
  intros L D. unfold Http.sixDigits. rewrite L, D. reflexivity.
Qed.

Lemma onError_status e :
  Http.status (AppV2.onError e) = 400 \/ Http.status (AppV2.onError e) = 500.
Proof. unfold AppV2.onError. destruct (Http.isSyntaxError e); [left | right]; reflexivity. Qed.

Lemma onError_not_200 e : Http.status (AppV2.onError e) <> 200.
Proof. destruct (onError_status e) as [-> | ->]; discriminate. Qed.

(** Whether a request reaches the engine can be decided from the body
    and the result of [getKV]. *)
Lemma v2_reaches_dec (env : KV.Env) (body : Http.Body) :
  (exists field opt secret,
      body = Http.JsonValue field /\
      field "opt"%string = Http.JString opt /\
      Http.sixDigits opt = true /\
      fst (UtilsV2.getKV Http.secretKey env) = KV.Returns (Some secret) /\
      emptyStr secret = false) \/
  (forall field opt secret,
      body = Http.JsonValue field ->
      field "opt"%string = Http.JString opt ->
      Http.sixDigits opt = true ->
      fst (UtilsV2.getKV Http.secretKey env) = KV.Returns (Some secret) ->
      emptyStr secret = false -> False).
Proof.
  destruct body as [| | field]; [right; discriminate | right; discriminate |].
  destruct (field "opt"%string) as [opt|] eqn:Hf;
    [| right; intros f o s E; injection E as <-; congruence].
  destruct (Http.sixDigits opt) eqn:H6;
    [| right; intros f o s E; injection E as <-; congruence].
  destruct (fst (UtilsV2.getKV Http.secretKey env)) as [[secret|]|e] eqn:K;
    [| right; intros; congruence | right; intros; congruence].
  destruct (emptyStr secret) eqn:Hs; [right; intros; congruence |].
  left. exists field, opt, secret. repeat split; assumption.
Qed.

Section RouteFacts.

Variable base32Decode : string -> option (list byte).
Variable subtleHmac : HashAlg -> list byte -> list byte -> option (list byte).

(** The request that reaches the engine. *)
Lemma v2_verify_reaches_engine env field opt secret kl w :
  field "opt"%string = Http.JString opt ->
  Http.sixDigits opt = true ->
  UtilsV2.getKV Http.secretKey env = (KV.Returns (Some secret), kl) ->
  emptyStr secret = false ->
  exists isValid w',
    Utils.verifyTOTP base32Decode subtleHmac secret opt
      defaultPeriod defaultDigits defaultWindow w = (Ok isValid, w') /\
    AppV2.totpVerify base32Decode subtleHmac env (Http.JsonValue field) w
    = ((Http.json200 (Http.IsValid isValid),
        (Http.InfoJson (Http.JsonValue field) :: map Http.FromGetKV kl)
          ++ [Http.InfoOpt (Http.JString opt)]), w').
Proof.
  intros Hf H6 Hkv Hs.
  destruct (utils_verifyTOTP_handler base32Decode subtleHmac secret opt
              defaultPeriod defaultDigits defaultWindow w) as ((b & w' & E) & _).
  exists b, w'. split; [exact E |].
  unfold AppV2.totpVerify. rewrite Hkv, Hf, Hs, (sixDigits_nonempty _ H6), H6.
  cbn [orb negb]. rewrite E. reflexivity.
Qed.

(** Every other request is answered without the engine. *)
Lemma v2_verify_stops env body w :
  (forall field opt secret,
      body = Http.JsonValue field ->
      field "opt"%string = Http.JString opt ->
      Http.sixDigits opt = true ->
      fst (UtilsV2.getKV Http.secretKey env) = KV.Returns (Some secret) ->
      emptyStr secret = false -> False) ->
  let out := AppV2.totpVerify base32Decode subtleHmac env body w in
  snd out = w /\
  (Http.status (fst (fst out)) = 400 \/ Http.status (fst (fst out)) = 500).
Proof.
  intros Hno. cbv zeta. unfold AppV2.totpVerify.
  destruct body as [| | field].
  - split; [reflexivity | apply onError_status].
  - split; [reflexivity | apply onError_status].
  - destruct (UtilsV2.getKV Http.secretKey env) as [kv kl] eqn:Hkv.
    destruct kv as [[secret|]|e].
    + destruct (emptyStr secret) eqn:Hs; [split; [reflexivity | right; reflexivity] |].
      destruct (field "opt"%string) as [opt|] eqn:Hf;
        [| split; [reflexivity | left; reflexivity]].
      destruct (emptyStr opt) eqn:Ho; [split; [reflexivity | left; reflexivity] |].
      destruct (Http.sixDigits opt) eqn:H6; [| split; [reflexivity | left; reflexivity]].
      exfalso. apply (Hno field opt secret); try reflexivity; assumption.
    + split; [reflexivity | right; reflexivity].
    + split; [reflexivity | apply onError_status].
Qed.

End RouteFacts.

(** X16: [POST /totp/verify] of the second revision answers 200
    exactly when the body is JSON whose [opt] is a string of six
    decimal digits and [getKV] returned a non-empty secret; the answer
    then carries what [verifyTOTP(secret, opt)] returns with the
    default period, digits and window.  Every other request is answered
    with 400 or 500 without reading the clock or touching the world. *)
Theorem verify_route_ok :
  forall base32Decode subtleHmac (env : KV.Env) (body : Http.Body) (w : World),
    let out := AppV2.totpVerify base32Decode subtleHmac env body w in
    let reaches field opt secret :=
      body = Http.JsonValue field /\
      field "opt"%string = Http.JString opt /\
      Http.sixDigits opt = true /\
      fst (UtilsV2.getKV Http.secretKey env) = KV.Returns (Some secret) /\
      emptyStr secret = false in
    (Http.status (fst (fst out)) = 200
     <-> exists field opt secret, reaches field opt secret) /\
    (forall field opt secret, reaches field opt secret ->
       exists isValid,
         fst (fst out) = Http.json200 (Http.IsValid isValid) /\
         Utils.verifyTOTP base32Decode subtleHmac secret opt 30 6 1 w
         = (Ok isValid, snd out)) /\
    (Http.status (fst (fst out)) <> 200 ->
     snd out = w /\
     (Http.status (fst (fst out)) = 400 \/ Http.status (fst (fst out)) = 500)).
Proof.
  intros dec mac env body w. cbv zeta.
  assert (R : forall field opt secret,
             body = Http.JsonValue field /\
             field "opt"%string = Http.JString opt /\
             Http.sixDigits opt = true /\
             fst (UtilsV2.getKV Http.secretKey env) = KV.Returns (Some secret) /\
             emptyStr secret = false ->
             exists isValid,
               fst (fst (AppV2.totpVerify dec mac env body w))
               = Http.json200 (Http.IsValid isValid) /\
               Utils.verifyTOTP dec mac secret opt 30 6 1 w
               = (Ok isValid, snd (AppV2.totpVerify dec mac env body w))).
  { intros field opt secret (-> & Hf & H6 & Hkv & Hs).
    destruct (UtilsV2.getKV Http.secretKey env) as [kv kl] eqn:K.
    cbn [fst] in Hkv. subst kv.
    destruct (v2_verify_reaches_engine dec mac env field opt secret kl w Hf H6 K Hs)
      as (b & w' & E & Run).
    exists b. rewrite Run. split; [reflexivity | exact E]. }
  assert (S : Http.status (fst (fst (AppV2.totpVerify dec mac env body w))) <> 200 ->
              forall field opt secret,
                body = Http.JsonValue field ->
                field "opt"%string = Http.JString opt ->
                Http.sixDigits opt = true ->
                fst (UtilsV2.getKV Http.secretKey env) = KV.Returns (Some secret) ->
                emptyStr secret = false -> False).
  { intros Hne field opt secret Hb Hf H6 Hkv Hs.
    destruct (R field opt secret) as (b & Hr & _); [repeat split; assumption |].
    apply Hne. rewrite Hr. reflexivity. }
  split; [split |]; [| | split; [exact R |]].
  - intros H200.
    destruct (v2_reaches_dec env body) as [Hyes | Hno]; [exact Hyes |].
    destruct (v2_verify_stops dec mac env body w Hno) as (_ & [H | H]);
      rewrite H in H200; discriminate.
  - intros (field & opt & secret & H). destruct (R field opt secret H) as (b & -> & _).
    reflexivity.
  - intros Hne. apply v2_verify_stops. exact (S Hne).
Qed.

(** ** The generators behind the routes *)

Section GeneratedCode.

Variable base32Decode : string -> option (list byte).
Variable subtleHmac : HashAlg -> list byte -> list byte -> option (list byte).

Lemma utils_generateTOTP_world secretBase32 period digits w c w' :
  Utils.generateTOTP base32Decode subtleHmac secretBase32 period digits w = (Ok c, w') ->
  w' = tick w.
Proof.
  unfold Utils.generateTOTP. checks.
  destruct (emptyStr secretBase32); [run; discriminate |].
  destruct (period <=? 0); [run; discriminate |].
  destruct (digits <=? 0); [run; discriminate |].
  destruct (base32Decode secretBase32) as [key|]; [| run; discriminate].
  unfold try_catch, bind, call, ret, Date_now. rewrite utils_codeAtStep_run.
  destruct (subtleHmac SHA1 key _) as [mac|]; [| run; discriminate].
  destruct (truncOffset mac + 3 <? JS.len mac); [| run; discriminate].
  intros E. apply ok_pair_inj in E. symmetry. exact (proj2 E).
Qed.

Lemma index_generateTOTP_world secretBase32 period digits w c w' :
  Index.generateTOTP base32Decode subtleHmac secretBase32 period digits w = (Ok c, w') ->
  w' = tick w.
Proof.
  unfold Index.generateTOTP. checks.
  destruct (emptyStr secretBase32); [run; discriminate |].
  destruct (base32Decode secretBase32) as [key|]; [| run; discriminate].
  unfold try_catch, bind, call, ret, Date_now. rewrite index_codeAtStep_run.
  destruct (subtleHmac SHA256 key _) as [mac|]; [| run; discriminate].
  intros E. apply ok_pair_inj in E. symmetry. exact (proj2 E).
Qed.

Lemma utils_default_code_sixDigits secretBase32 w c :
  fst (Utils.generateTOTP base32Decode subtleHmac secretBase32
         defaultPeriod defaultDigits w) = Ok c ->
  Http.sixDigits c = true.
Proof.
  rewrite utils_generateTOTP_result. intros G.
  apply sixDigits_of_code.
  - exact (utils_code_length _ _ _ _ _ _ _ _ G).
  - exact (utils_code_allDigits _ _ _ _ _ _ _ _ G).
Qed.

Lemma index_default_code_sixDigits secretBase32 w c :
  fst (Index.generateTOTP base32Decode subtleHmac secretBase32
         defaultPeriod defaultDigits w) = Ok c ->
  Http.sixDigits c = true.
Proof.
  rewrite index_generateTOTP_result. intros G.
  apply sixDigits_of_code.
  - exact (index_code_length _ _ _ _ _ defaultDigits _ _ eq_refl G).
  - exact (index_code_allDigits _ _ _ _ _ _ _ _ G).
Qed.

End GeneratedCode.

(** X17: [POST /totp/generate] of the second revision answers 200
    exactly when [getKV] returned a non-empty secret and
    [generateTOTP(secret)] succeeded; the code it sends is then a string
    of six decimal digits and the clock was read once.  A missing or
    empty secret gives 400, a failed generation 500 with the generic
    message, and the request body plays no part. *)
Theorem generate_route :
  forall base32Decode subtleHmac (env : KV.Env) (w : World),
    let out := AppV2.totpGenerate base32Decode subtleHmac env w in
    let r := fst (fst out) in
    (Http.status r = 200 <->
       exists secret otp,
         fst (UtilsV2.getKV Http.secretKey env) = KV.Returns (Some secret) /\
         emptyStr secret = false /\
         fst (Utils.generateTOTP base32Decode subtleHmac secret 30 6 w) = Ok otp) /\
    (forall secret otp,
       fst (UtilsV2.getKV Http.secretKey env) = KV.Returns (Some secret) ->
       emptyStr secret = false ->
       fst (Utils.generateTOTP base32Decode subtleHmac secret 30 6 w) = Ok otp ->
       r = Http.json200 (Http.Otp otp) /\ Http.sixDigits otp = true /\
       snd out = tick w) /\
    (forall secret e,
       fst (UtilsV2.getKV Http.secretKey env) = KV.Returns (Some secret) ->
       emptyStr secret = false ->
       fst (Utils.generateTOTP base32Decode subtleHmac secret 30 6 w) = Throw e ->
       r = Http.json (Http.ErrorText "Failed to generate TOTP") 500) /\
    (forall secret,
       fst (UtilsV2.getKV Http.secretKey env) = KV.Returns secret ->
       secret = None \/ secret = Some EmptyString ->
       r = Http.json (Http.ErrorText "Invalid secret") 400 /\ snd out = w).
Proof.
  intros dec mac env w. cbv zeta. unfold AppV2.totpGenerate.
  change defaultPeriod with 30. change defaultDigits with 6.
  destruct (UtilsV2.getKV Http.secretKey env) as [kv kl] eqn:K. cbn [fst].
  destruct kv as [[secret|]|e].
  - destruct (emptyStr secret) eqn:Hs.
    + cbn [fst snd Http.status Http.json].
      split; [split; [discriminate | intros (s & o & E & Hs' & _); congruence] |].
      split; [intros s o E; congruence |].
      split; [intros s e E; congruence |].
      intros s _ _. split; reflexivity.
    + destruct (Utils.generateTOTP dec mac secret 30 6 w) as [[otp|e] w'] eqn:G.
      * cbn [fst snd Http.status Http.json Http.json200].
        split; [split; [intros _; exists secret, otp; rewrite G; repeat split;
                        [exact Hs] | reflexivity] |].
        split.
        { intros s o E Hs' Ho. assert (s = secret) by congruence. subst s.
          rewrite G in Ho. cbn [fst] in Ho. apply Ok_inj in Ho. subst o.
          split; [reflexivity |]. split.
          - apply (utils_default_code_sixDigits dec mac secret w).
            unfold defaultPeriod, defaultDigits. rewrite G. reflexivity.
          - exact (utils_generateTOTP_world _ _ _ _ _ _ _ _ G). }
        split.
        { intros s e E Hs' He. assert (s = secret) by congruence. subst s.
          rewrite G in He. discriminate. }
        intros s E [-> | ->]; [discriminate |].
        assert (secret = EmptyString) by congruence. subst secret. discriminate.
      * cbn [fst snd Http.status Http.json Http.json200].
        split; [split; [discriminate |] |].
        { intros (s & o & E & _ & Ho). assert (s = secret) by congruence. subst s.
          rewrite G in Ho. discriminate. }
        split.
        { intros s o E _ Ho. assert (s = secret) by congruence. subst s.
          rewrite G in Ho. discriminate. }
        split; [intros; reflexivity |].
        intros s E [-> | ->]; [discriminate |].
        assert (secret = EmptyString) by congruence. subst secret. discriminate.
  - cbn [fst snd Http.status Http.json].
    split; [split; [discriminate | intros (s & o & E & _); discriminate] |].
    split; [intros s o E; discriminate |].
    split; [intros s e E; discriminate |].
    intros s _ _. split; reflexivity.
  - cbn [fst snd].
    split; [split; [intros H; destruct (onError_not_200 _ H)
                   | intros (s & o & E & _); discriminate] |].
    split; [intros s o E; discriminate |].
    split; [intros s e' E; discriminate |].
    intros s E; discriminate.
Qed.

(** X18: A code sent by [/totp/generate] is accepted by
    [/totp/verify] when it is sent back, as [opt], within one step of
    30 s: for a secret the collaborators accept, the first route
    answers 200 with a code and the second answers 200 with
    [isValid: true], each reading the clock once. *)
Theorem routes_round_trip :
  forall base32Decode subtleHmac (env : KV.Env) (secret : string) (w w2 : World),
    fst (UtilsV2.getKV Http.secretKey env) = KV.Returns (Some secret) ->
    validSecret base32Decode subtleHmac SHA1 secret ->
    - 1 <= floorDiv (nowOf w) 30000 - floorDiv (nowOf w2) 30000 <= 1 ->
    exists otp,
      fst (fst (AppV2.totpGenerate base32Decode subtleHmac env w))
      = Http.json200 (Http.Otp otp) /\
      snd (AppV2.totpGenerate base32Decode subtleHmac env w) = tick w /\
      forall field,
        field "opt"%string = Http.JString otp ->
        fst (fst (AppV2.totpVerify base32Decode subtleHmac env (Http.JsonValue field) w2))
        = Http.json200 (Http.IsValid true) /\
        snd (AppV2.totpVerify base32Decode subtleHmac env (Http.JsonValue field) w2)
        = tick w2.
Proof.
  intros dec mac env secret w w2 Hkv Hv Hwin.
  pose proof Hv as (Hs & _).
  destruct (utils_generate_then_verify dec mac secret 30 6 1 w w2 Hv
              ltac:(lia) ltac:(lia) Hwin) as (code & G & V).
  exists code.
  assert (H6 : Http.sixDigits code = true).
  { apply (utils_default_code_sixDigits dec mac secret w).
    unfold defaultPeriod, defaultDigits. rewrite G. reflexivity. }
  destruct (UtilsV2.getKV Http.secretKey env) as [kv kl] eqn:K.
  cbn [fst] in Hkv. subst kv.
  split; [| split].
  - unfold AppV2.totpGenerate. rewrite K, Hs.
    unfold defaultPeriod, defaultDigits. rewrite G. reflexivity.
  - unfold AppV2.totpGenerate. rewrite K, Hs.
    unfold defaultPeriod, defaultDigits. rewrite G. reflexivity.
  - intros field Hf.
    destruct (v2_verify_reaches_engine dec mac env field code secret kl w2 Hf H6 K Hs)
      as (b & w' & E & Run).
    unfold defaultPeriod, defaultDigits, defaultWindow in E. rewrite V in E.
    apply ok_pair_inj in E. destruct E as [<- <-].
    rewrite Run. split; reflexivity.
Qed.

Lemma routes_round_trip_witness :
  let env := Some (fun _ : string => KV.Resolves (Some "K"%string)) in
  let later := mkWorld (fun _ => 3730000) 0 [] in
  exists otp,
    fst (fst (AppV2.totpGenerate Stub.decode Stub.hmac env Stub.world))
    = Http.json200 (Http.Otp otp) /\
    snd (AppV2.totpGenerate Stub.decode Stub.hmac env Stub.world) = tick Stub.world /\
    forall field,
      field "opt"%string = Http.JString otp ->
      fst (fst (AppV2.totpVerify Stub.decode Stub.hmac env (Http.JsonValue field) later))
      = Http.json200 (Http.IsValid true) /\
      snd (AppV2.totpVerify Stub.decode Stub.hmac env (Http.JsonValue field) later)
      = tick later.
Proof.
  intros env later.
  apply (routes_round_trip Stub.decode Stub.hmac env "K" Stub.world later).
  - reflexivity.
  - apply stub_valid.
  - vm_compute. split; discriminate.
Defined.

(** X19: without the namespace binding the second revision serves
    the built-in development secret: both routes give the response,
    and leave the world of the engine, as they do when that secret is
    the stored value, and they write the same console lines and one
    more, the warning of [getKV] - after the line that shows the body
    in [/totp/verify], first in [/totp/generate].  (A body that is no
    JSON value is answered before [getKV] is called, with the same
    lines.)  The first revision answers every verification with 400
    instead. *)
Theorem missing_namespace :
  forall base32Decode subtleHmac (body : Http.Body) (w : World),
    let stored : KV.Env :=
      Some (fun _ => KV.Resolves (Some KV.fallbackSecret)) in
    let warning := Http.FromGetKV KV.WarnFallback in
    let v2 := AppV2.totpVerify base32Decode subtleHmac in
    let g2 := AppV2.totpGenerate base32Decode subtleHmac in
    let v1 := AppV1.totpVerify base32Decode subtleHmac (AppV1.kv None) body w in
    (fst (fst (v2 None body w)) = fst (fst (v2 stored body w)) /\
     snd (v2 None body w) = snd (v2 stored body w) /\
     (forall field, body = Http.JsonValue field ->
        exists rest,
          snd (fst (v2 stored body w)) = Http.InfoJson body :: rest /\
          snd (fst (v2 None body w)) = Http.InfoJson body :: warning :: rest) /\
     (body = Http.BadJson \/ body = Http.JsonNull ->
        snd (fst (v2 None body w)) = snd (fst (v2 stored body w)))) /\
    (fst (fst (g2 None w)) = fst (fst (g2 stored w)) /\
     snd (g2 None w) = snd (g2 stored w) /\
     snd (fst (g2 None w)) = warning :: snd (fst (g2 stored w))) /\
    (Http.status (fst v1) = 400 /\ snd v1 = w).
Proof.
  intros dec mac body w. cbv zeta.
  assert (K0 : UtilsV2.getKV Http.secretKey None
               = (KV.Returns (Some KV.fallbackSecret), [KV.WarnFallback]))
    by reflexivity.
  assert (K1 : UtilsV2.getKV Http.secretKey
                 (Some (fun _ => KV.Resolves (Some KV.fallbackSecret)))
               = (KV.Returns (Some KV.fallbackSecret), [])) by reflexivity.
  assert (E : emptyStr KV.fallbackSecret = false) by reflexivity.
  split; [| split].
  - unfold AppV2.totpVerify. rewrite K0, K1, E.
    destruct body as [| | field].
    { repeat split; try reflexivity; intros f Hf; discriminate. }
    { repeat split; try reflexivity; intros f Hf; discriminate. }
    cbn [map app].
    destruct (field "opt"%string) as [opt|].
    2:{ repeat split; try reflexivity;
          [intros f _; eexists; split; reflexivity
          | intros [H | H]; discriminate]. }
    destruct (emptyStr opt || negb (Http.sixDigits opt)).
    { repeat split; try reflexivity;
        [intros f _; eexists; split; reflexivity
        | intros [H | H]; discriminate]. }
    destruct (Utils.verifyTOTP dec mac KV.fallbackSecret opt
                defaultPeriod defaultDigits defaultWindow w) as [[b|e] w'];
      (repeat split; try reflexivity;
        [intros f _; eexists; split; reflexivity
        | intros [H | H]; discriminate]).
  - unfold AppV2.totpGenerate. rewrite K0, K1, E. cbn [map app].
    destruct (Utils.generateTOTP dec mac KV.fallbackSecret
                defaultPeriod defaultDigits w) as [[c|e] w'];
      repeat split; reflexivity.
  - assert (Kv : AppV1.kv None = KV.Returns None) by reflexivity.
    rewrite Kv. unfold AppV1.totpVerify.
    destruct body as [| | field]; split; reflexivity.
Qed.

(** X20: When the read of the secret times out, the second revision
    answers both routes with 500 "Server error" and the first revision
    answers with 400 "Invalid request format"; none of them reads the
    clock. *)
Theorem kv_timeout :
  forall base32Decode subtleHmac (test : string -> KV.Settle)
         (field : string -> Http.JVal) (w : World),
    test Http.secretKey = KV.TimerFirst ->
    let env := Some test in
    let serverError := Http.json (Http.ErrorText "Server error") 500 in
    AppV2.totpVerify base32Decode subtleHmac env (Http.JsonValue field) w
    = ((serverError,
        [Http.InfoJson (Http.JsonValue field);
         Http.FromGetKV (KV.ErrTimedOut Http.secretKey);
         Http.ErrVerifying (Http.FromKV KV.timedOut)]), w) /\
    AppV2.totpGenerate base32Decode subtleHmac env w
    = ((serverError,
        [Http.FromGetKV (KV.ErrTimedOut Http.secretKey);
         Http.ErrParsing (Http.FromKV KV.timedOut)]), w) /\
    AppV1.totpVerify base32Decode subtleHmac (AppV1.kv env) (Http.JsonValue field) w
    = (Http.json (Http.ErrorText "Invalid request format") 400, w).
Proof.
  intros dec mac test field w Ht. cbv zeta.
  assert (K2 : UtilsV2.getKV Http.secretKey (Some test)
               = (KV.Throws KV.timedOut, [KV.ErrTimedOut Http.secretKey])).
  { rewrite v2_getKV_run, Ht. reflexivity. }
  assert (K1 : AppV1.kv (Some test) = KV.Throws KV.timedOut).
  { unfold AppV1.kv. rewrite v1_getKV_fst, Ht. reflexivity. }
  split; [| split].
  - unfold AppV2.totpVerify. rewrite K2. reflexivity.
  - unfold AppV2.totpGenerate. rewrite K2. reflexivity.
  - rewrite K1. reflexivity.
Qed.

Lemma kv_timeout_witness :
  AppV2.totpGenerate Stub.decode Stub.hmac (Some (fun _ => KV.TimerFirst)) Stub.world
  = ((Http.json (Http.ErrorText "Server error") 500,
      [Http.FromGetKV (KV.ErrTimedOut Http.secretKey);
       Http.ErrParsing (Http.FromKV KV.timedOut)]), Stub.world).
Proof.
  apply (kv_timeout Stub.decode Stub.hmac (fun _ => KV.TimerFirst)
           (fun _ => Http.JOther) Stub.world).
  reflexivity.
Defined.

(** X21: The routes of the first revision answer 200 or 400 only.
    [/totp/verify] answers 200 exactly when the body is JSON whose [otp]
    is a non-empty string of decimal digits and the secret fetched at
    load time is a non-empty string, and then carries the result of
    [verifyTOTP]; every other request leaves the world untouched. *)
Theorem first_verify_route :
  forall base32Decode subtleHmac (kv : KV.Outcome) (body : Http.Body) (w : World),
    let out := AppV1.totpVerify base32Decode subtleHmac kv body w in
    let reaches field otp secret :=
      body = Http.JsonValue field /\
      field "otp"%string = Http.JString otp /\
      Http.digitsOnly otp = true /\
      kv = KV.Returns (Some secret) /\
      emptyStr secret = false in
    (Http.status (fst out) = 200 \/ Http.status (fst out) = 400) /\
    (Http.status (fst out) = 200
     <-> exists field otp secret, reaches field otp secret) /\
    (forall field otp secret, reaches field otp secret ->
       exists isValid,
         fst out = Http.json200 (Http.IsValid isValid) /\
         Index.verifyTOTP base32Decode subtleHmac secret otp 30 6 1 w
         = (Ok isValid, snd out)) /\
    (Http.status (fst out) <> 200 -> snd out = w).
Proof.
  intros dec mac kv body w. cbv zeta. unfold AppV1.totpVerify.
  change defaultPeriod with 30. change defaultDigits with 6.
  change defaultWindow with 1.
  destruct body as [| | field];
    [ cbn; split; [right; reflexivity |];
      split; [split; [discriminate | intros (f & o & s & E & _); discriminate] |];
      split; [intros f o s (E & _); discriminate | reflexivity] ..
    | ].
  destruct kv as [[secret|]|e];
    [ | cbn; split; [right; reflexivity |];
        split; [split; [discriminate | intros (f & o & s & _ & _ & _ & E & _); discriminate] |];
        split; [intros f o s (_ & _ & _ & E & _); discriminate | reflexivity] .. ].
  destruct (emptyStr secret) eqn:Hs.
  { cbn. split; [right; reflexivity |].
    split; [split; [discriminate | intros (f & o & s & _ & _ & _ & E & Hs'); congruence] |].
    split; [intros f o s (_ & _ & _ & E & Hs'); congruence | reflexivity]. }
  destruct (field "otp"%string) as [otp|] eqn:Hf.
  2:{ cbn. split; [right; reflexivity |].
      split; [split; [discriminate | intros (f & o & s & E & Hf' & _); congruence] |].
      split; [intros f o s (E & Hf' & _); congruence | reflexivity]. }
  destruct (Http.digitsOnly otp) eqn:Hd; cbn [negb].
  2:{ cbn. split; [right; reflexivity |].
      split; [split; [discriminate | intros (f & o & s & E & Hf' & Hd' & _); congruence] |].
      split; [intros f o s (E & Hf' & Hd' & _); congruence | reflexivity]. }
  destruct (index_verifyTOTP_handler dec mac secret otp 30 6 1 w) as ((b & w' & E) & _).
  rewrite E. cbn [fst snd Http.status Http.json200 Http.json].
  split; [left; reflexivity |].
  split; [split; [intros _; exists field, otp, secret; repeat split; assumption
                 | reflexivity] |].
  split; [| intros H; congruence].
  intros f o s (Eb & Hf' & _ & Ek & _).
  assert (f = field) by congruence. subst f.
  assert (o = otp) by congruence. subst o.
  assert (s = secret) by congruence. subst s.
  exists b. split; [reflexivity | exact E].
Qed.

(** X22: [/totp/generate] of the first revision takes the secret from
    the request, not from the store: it answers 200 exactly when the
    body is JSON whose [secret] is a non-empty string for which
    [generateTOTP] succeeds, and the code is then six decimal digits;
    everything else is answered with 400. *)
Theorem first_generate_route :
  forall base32Decode subtleHmac (body : Http.Body) (w : World),
    let out := AppV1.totpGenerate base32Decode subtleHmac body w in
    (Http.status (fst out) = 200 \/ Http.status (fst out) = 400) /\
    (Http.status (fst out) = 200 <->
       exists field secret otp,
         body = Http.JsonValue field /\
         field "secret"%string = Http.JString secret /\
         emptyStr secret = false /\
         fst (Index.generateTOTP base32Decode subtleHmac secret 30 6 w) = Ok otp) /\
    (forall otp, Http.payload (fst out) = Http.Otp otp ->
       Http.status (fst out) = 200 /\ Http.sixDigits otp = true /\ snd out = tick w).
Proof.
  intros dec mac body w. cbv zeta. unfold AppV1.totpGenerate.
  change defaultPeriod with 30. change defaultDigits with 6.
  destruct body as [| | field];
    [ cbn; split; [right; reflexivity |];
      split; [split; [discriminate | intros (f & s & o & E & _); discriminate]
             | discriminate] .. | ].
  destruct (field "secret"%string) as [secret|] eqn:Hf.
  2:{ cbn. split; [right; reflexivity |].
      split; [split; [discriminate | intros (f & s & o & E & Hf' & _); congruence]
             | discriminate]. }
  destruct (emptyStr secret) eqn:Hs.
  { cbn. split; [right; reflexivity |].
    split; [split; [discriminate | intros (f & s & o & E & Hf' & Hs' & _); congruence]
           | discriminate]. }
  destruct (Index.generateTOTP dec mac secret 30 6 w) as [[otp|e] w'] eqn:G;
    cbn [fst snd Http.status Http.payload Http.json200 Http.json AppV1.invalidRequest].
  - split; [left; reflexivity |].
    split; [split; [intros _; exists field, secret, otp; rewrite G;
                    repeat split; assumption | reflexivity] |].
    intros o Ho. assert (o = otp) by congruence. subst o.
    split; [reflexivity |]. split.
    + apply (index_default_code_sixDigits dec mac secret w).
      unfold defaultPeriod, defaultDigits. rewrite G. reflexivity.
    + exact (index_generateTOTP_world _ _ _ _ _ _ _ _ G).
  - split; [right; reflexivity |].
    split; [| discriminate].
    split; [discriminate |].
    intros (f & s & o & E & Hf' & _ & Ho).
    assert (f = field) by congruence. subst f.
    assert (s = secret) by congruence. subst s.
    rewrite G in Ho. discriminate.
Qed.

(** X23: A candidate of decimal digits whose length is not six: the
    first revision hands it to [verifyTOTP] and answers 200 with
    [isValid: false]; the second revision rejects it with 400 before
    the secret is used. *)
Theorem wrong_length_routes :
  forall base32Decode subtleHmac (env : KV.Env) (secret candidate : string)
         (field : string -> Http.JVal) (w : World),
    Http.digitsOnly candidate = true ->
    String.length candidate <> 6%nat ->
    emptyStr secret = false ->
    (field "otp"%string = Http.JString candidate ->
     fst (AppV1.totpVerify base32Decode subtleHmac (KV.Returns (Some secret))
            (Http.JsonValue field) w)
     = Http.json200 (Http.IsValid false)) /\
    (field "opt"%string = Http.JString candidate ->
     fst (UtilsV2.getKV Http.secretKey env) = KV.Returns (Some secret) ->
     fst (fst (AppV2.totpVerify base32Decode subtleHmac env (Http.JsonValue field) w))
     = Http.json (Http.ErrorText "Invalid OTP format: must be a 6-digit number") 400 /\
     snd (AppV2.totpVerify base32Decode subtleHmac env (Http.JsonValue field) w) = w).
Proof.
  intros dec mac env secret cand field w Hd Hlen Hs. split.
  - intros Hf. unfold AppV1.totpVerify. rewrite Hf, Hs, Hd. cbn [negb].
    destruct (index_verifyTOTP_handler dec mac secret cand defaultPeriod
                defaultDigits defaultWindow w) as ((b & w' & E) & _).
    rewrite E. destruct b; [| reflexivity].
    exfalso. apply Hlen.
    exact (index_verify_true_length dec mac secret cand defaultPeriod defaultDigits
             defaultWindow w w' eq_refl E).
  - intros Hf Hkv. unfold AppV2.totpVerify.
    destruct (UtilsV2.getKV Http.secretKey env) as [kv kl]. cbn [fst] in Hkv. subst kv.
    rewrite Hf, Hs.
    assert (H6 : Http.sixDigits cand = false).
    { unfold Http.sixDigits. destruct (Nat.eqb_spec (String.length cand) 6);
        [contradiction | reflexivity]. }
    rewrite H6, orb_true_r. split; reflexivity.
Qed.

Lemma wrong_length_routes_witness :
  let field := fun _ : string => Http.JString "0123" in
  let env := Some (fun _ : string => KV.Resolves (Some "K"%string)) in
  fst (AppV1.totpVerify Stub.decode Stub.hmac (KV.Returns (Some "K"%string))
         (Http.JsonValue field) Stub.world)
  = Http.json200 (Http.IsValid false) /\
  fst (fst (AppV2.totpVerify Stub.decode Stub.hmac env (Http.JsonValue field) Stub.world))
  = Http.json (Http.ErrorText "Invalid OTP format: must be a 6-digit number") 400.
Proof.
  intros field env.
  destruct (wrong_length_routes Stub.decode Stub.hmac env "K" "0123" field Stub.world)
    as [A B]; [reflexivity | vm_compute; lia | reflexivity |].
  split; [apply A; reflexivity | apply B; reflexivity].
Defined.
